(** * SimpleShell: a shallow embedding of [shell.c]

    The development follows the C file function by function.  A process is
    a record [proc] (file system, descriptor table, the global [childPid],
    the cell [lineIndex], the diagnostics printed so far); a C function is a
    computation in the monad [M], whose outcomes are: the function returned,
    the process called [exit]/[_exit], the process image was replaced by
    [execvp], or the process ran into undefined behaviour.

    Conventions.
    - A C string is a Rocq [string] without NUL; a [char*] that may be NULL
      is an [option string].
    - [line] is the token array returned by [getArgList]: the tokens are the
      elements of a [list string], the NULL sentinel sits at index
      [length line], and anything after it is outside the array.
    - An argument array ([char* args[MAX_ARGS]], passed as [char** args]) is
      the memory seen through the pointer: a finite map from index to cell;
      an index without a binding has never been written.
    - The operating system is a record [os] of answers: what [fork] and
      [pipe] return, which programs [execvp] can start, what [waitpid]
      reports.  A run follows one process; the branch taken after [fork] is
      decided by the answer.
    - [MAX_ARGS] comes from shellParser.h, which is not part of the
      sources at hand; it is a parameter of the statements about the
      capacity of an argument array.  The C functions themselves never
      compare an index with it, and neither do their models.
    - Recursion that C bounds by the end of the line takes a fuel argument
      here; [main_body] supplies enough of it, and the outcome [OutOfFuel]
      is shown not to occur. *)

From Stdlib Require Import ZArith String Ascii List Lia Bool Sorted.
From stdpp Require Import base gmap strings list fin_maps.
Import ListNotations.

Local Open Scope string_scope.
Local Open Scope Z_scope.

(** ** Strings of the C library *)

(** [strchr(set, c) != NULL] for a character [c] of a string, that is, for
    [c] other than NUL.  ([isSpecial] looks at [token[0]] when
    [strlen(token) == 1] and at [token[1]] when [strlen(token) == 2].) *)
Fixpoint strchr (set : string) (c : ascii) : bool :=
  match set with
  | EmptyString => false
  | String a rest => Ascii.eqb a c || strchr rest c
  end.

(** [token[i]] for [i <= strlen token] (index [strlen token] holds NUL). *)
Definition char_at (token : string) (i : nat) : ascii :=
  match String.get i token with
  | Some c => c
  | None => Ascii.zero
  end.

Definition strlen (token : string) : nat := String.length token.

(** ** TokenClassifier: [isSpecial] *)

Definition isSpecial (token : string) : bool :=
  (Nat.eqb (strlen token) 1 && strchr "<>|" (char_at token 0))
  || (Nat.eqb (strlen token) 2 && strchr ">" (char_at token 1)).

(** ** The token array *)

Inductive cell :=
| Tok (t : string)   (* a token *)
| Null               (* the sentinel *)
| Beyond.            (* outside the array *)

Definition line_at (line : list string) (i : nat) : cell :=
  match line !! i with
  | Some t => Tok t
  | None => if decide (i = length line) then Null else Beyond
  end.

(** A [char*] read from the array, for passing on to a function. *)
Definition cell_ptr (c : cell) : option string :=
  match c with Tok t => Some t | _ => None end.

(** ** Argument arrays *)

Abbreviation argmem := (gmap nat (option string)).

(** The NULL-terminated vector stored at the start of an argument array, as
    [execvp] or a loop [while (args[i] != NULL)] walks it; the walk from
    index [i] visits at most [n] cells. *)
Fixpoint argv_from (n : nat) (args : argmem) (i : nat) : list string :=
  match n with
  | O => []
  | S n' =>
      match args !! i with
      | Some (Some a) => a :: argv_from n' args (S i)
      | _ => []
      end
  end.

Definition argv_of (args : argmem) : list string :=
  argv_from (size args) args 0%nat.

(** ** Files, descriptors, events *)

(** The file system is a flat map from names to files.  A body is what
    [open] and [unlink] make of it (created empty, emptied by O_TRUNC,
    gone); what a process writes through a descriptor is not added to the
    body: output of the shell's own code is recorded as an event in
    [p_out], wherever the descriptor it goes to points. *)
Inductive content :=
| Data (bytes : string)
| Dir (entries : list string).

Record file := File { f_read : bool; f_write : bool; f_body : content }.

(** An entry of the descriptor table says what the descriptor names.  For a
    file it is the path and the flags of the [open]; the table does not
    tell two descriptors of one [open] (made by [dup2]) from descriptors of
    two [open]s of the same path with the same flags. *)
Inductive fobj :=
| FStd (n : Z)                       (* the stream the process started with *)
| FFile (path : string) (flags : Z)  (* an open file *)
| FPipeR (id : nat)                  (* read endpoint of pipe [id] *)
| FPipeW (id : nat).                 (* write endpoint of pipe [id] *)

Inductive event :=
| EvPerror (msg : string)
| EvPrintf (text : string)
| EvPrompt
| EvChildExited (pid status : Z)
| EvWait (pid : Z)
| EvKill (pid signo : Z).

Inductive fault :=
| NullDeref          (* a NULL pointer handed to strcmp, readdir or execvp *)
| UninitRead         (* an array cell read before it was written *)
| ReadPastSentinel.  (* [line[i]] with [i] after the sentinel *)

Record proc := Proc {
  p_fs : gmap string file;
  p_fds : gmap Z fobj;
  p_childPid : Z;          (* static pid_t childPid *)
  p_lineIndex : nat;       (* int lineIndex of main, reached through int* *)
  p_cursors : list nat;    (* every value stored into lineIndex, newest first *)
  p_out : list event;      (* oldest first *)
  p_nfork : nat;           (* calls of fork so far *)
  p_npipe : nat            (* calls of pipe so far *)
}.

Record os := Os {
  fork_ret : nat → Z;       (* result of the n-th fork in this process *)
  pipe_ok : nat → bool;     (* does the n-th pipe succeed *)
  exec_ok : string → bool;  (* can execvp start this program *)
  wait_status : Z → Z;      (* status stored by waitpid for this child *)
  creat_ok : string → bool; (* may open create this name: the directory of
                               the path is there and takes a new entry *)
  unlink_ok : string → bool (* may unlink remove this name: the directory
                               of the path lets an entry be taken out *)
}.

(** ** The monad of C functions *)

Inductive outcome (A : Type) :=
| Ret (a : A) (s : proc)                               (* returned to the caller *)
| Exited (code : Z) (s : proc)                         (* exit or _exit *)
| Replaced (prog : string) (argv : list string) (s : proc)  (* execvp succeeded *)
| Fault (f : fault) (s : proc)                         (* undefined behaviour *)
| OutOfFuel.
Arguments Ret {A} a s.
Arguments Exited {A} code s.
Arguments Replaced {A} prog argv s.
Arguments Fault {A} f s.
Arguments OutOfFuel {A}.

Definition M (A : Type) : Type := proc → outcome A.

Definition ret {A} (a : A) : M A := λ s, Ret a s.

Definition bind {A B} (m : M A) (k : A → M B) : M B := λ s,
  match m s with
  | Ret a s' => k a s'
  | Exited c s' => Exited c s'
  | Replaced p v s' => Replaced p v s'
  | Fault f s' => Fault f s'
  | OutOfFuel => OutOfFuel
  end.

#[local] Instance M_ret : MRet M := @ret.
#[local] Instance M_bind : MBind M := λ A B k m, bind m k.


(** *** State access *)

Definition emit (e : event) : M unit := λ s,
  Ret tt (Proc (p_fs s) (p_fds s) (p_childPid s) (p_lineIndex s) (p_cursors s)
               (p_out s ++ [e]) (p_nfork s) (p_npipe s)).

Definition set_fs (fs : gmap string file) (s : proc) : proc :=
  Proc fs (p_fds s) (p_childPid s) (p_lineIndex s) (p_cursors s)
       (p_out s) (p_nfork s) (p_npipe s).

Definition set_fds (fds : gmap Z fobj) (s : proc) : proc :=
  Proc (p_fs s) fds (p_childPid s) (p_lineIndex s) (p_cursors s)
       (p_out s) (p_nfork s) (p_npipe s).

Definition set_childPid (pid : Z) : M unit := λ s,
  Ret tt (Proc (p_fs s) (p_fds s) pid (p_lineIndex s) (p_cursors s)
               (p_out s) (p_nfork s) (p_npipe s)).

(** A store into [lineIndex]; the stored value is also pushed on the history. *)
Definition store_lineIndex (v : nat) (s : proc) : proc :=
  Proc (p_fs s) (p_fds s) (p_childPid s) v (v :: p_cursors s)
       (p_out s) (p_nfork s) (p_npipe s).

(** [++lineIndex], through the pointer *)
Definition incr_lineIndex : M unit := λ s,
  Ret tt (store_lineIndex (S (p_lineIndex s)) s).

(** [line[*lineIndex]] *)
Definition read_line (line : list string) (i : nat) : M cell := λ s,
  match line_at line i with
  | Beyond => Fault ReadPastSentinel s
  | c => Ret c s
  end.

Definition cur_token (line : list string) : M cell := λ s,
  read_line line (p_lineIndex s) s.

(** [args[i]] *)
Definition arg_at (args : argmem) (i : nat) : M (option string) := λ s,
  match args !! i with
  | Some c => Ret c s
  | None => Fault UninitRead s
  end.

(** [perror] writes to standard error, [printf] to standard output: the
    event is the write, to whatever descriptor 2 (descriptor 1) names at
    that moment; when that is a file the message ends up in the file, and
    [p_fs] does not show it. *)
Definition perror (msg : string) : M unit := emit (EvPerror msg).
Definition printf (text : string) : M unit := emit (EvPrintf text).
Definition _exit {A} (code : Z) : M A := λ s, Exited code s.

(** ** System calls *)

(** Values of <fcntl.h> and <sys/stat.h> on Linux. *)
Definition O_RDONLY : Z := 0.
Definition O_WRONLY : Z := 1.
Definition O_RDWR : Z := 2.
Definition O_CREAT : Z := 64.
Definition O_TRUNC : Z := 512.
Definition O_APPEND : Z := 1024.
Definition S_IRWXU : Z := 448.
Definition SIGINT : Z := 2.

Definition has_flag (flags f : Z) : bool := negb (Z.land flags f =? 0).

Definition wants_read (flags : Z) : bool :=
  let acc := Z.land flags 3 in (acc =? O_RDONLY) || (acc =? O_RDWR).
Definition wants_write (flags : Z) : bool :=
  let acc := Z.land flags 3 in (acc =? O_WRONLY) || (acc =? O_RDWR).

(** The lowest descriptor not in use. *)
Fixpoint lowest_free (n : nat) (fd : Z) (fds : gmap Z fobj) : Z :=
  match n with
  | O => fd
  | S n' => match fds !! fd with
            | Some _ => lowest_free n' (fd + 1) fds
            | None => fd
            end
  end.

Definition fresh_fd (fds : gmap Z fobj) : Z := lowest_free (size fds) 0 fds.

(** What [open] does to the named file as far as the file itself decides:
    [None] when the call fails, else the file system after the call.  A
    NULL path fails (EFAULT); an absent file is created only under O_CREAT
    (else ENOENT); an existing file must grant the requested access, a
    directory cannot be written, and O_TRUNC empties a regular file opened
    for writing.  The name space is flat: whether the directory of an
    absent name lets the file be created is not decided here but by the
    environment, in [sys_open]. *)
Definition open_effect (fs : gmap string file) (path : option string)
    (flags mode : Z) : option (gmap string file) :=
  match path with
  | None => None
  | Some p =>
      match fs !! p with
      | None =>
          if has_flag flags O_CREAT
          then Some (<[p := File (has_flag mode 256) (has_flag mode 128) (Data "")]> fs)
          else None
      | Some f =>
          if (implb (wants_read flags) (f_read f))
             && (implb (wants_write flags) (f_write f))
          then match f_body f with
               | Dir _ => if wants_write flags then None else Some fs
               | Data _ =>
                   if has_flag flags O_TRUNC && wants_write flags
                   then Some (<[p := File (f_read f) (f_write f) (Data "")]> fs)
                   else Some fs
               end
          else None
      end
  end.

Section Shell.

Variable E : os.

(** [open(path, flags, mode)]: the new descriptor, or -1.  For a name that
    is not there, the call gets as far as creating the file only when the
    environment lets it ([creat_ok]); with a directory of the path missing
    or closed to writing it fails (ENOENT, EACCES), O_CREAT or not. *)
Definition sys_open (path : option string) (flags mode : Z) : M Z := λ s,
  match path, open_effect (p_fs s) path flags mode with
  | Some p, Some fs' =>
      if match p_fs s !! p with
         | None => creat_ok E p
         | Some _ => true
         end
      then
        let fd := fresh_fd (p_fds s) in
        Ret fd (set_fds (<[fd := FFile p flags]> (p_fds s)) (set_fs fs' s))
      else Ret (-1) s
  | _, _ => Ret (-1) s
  end.

(** [dup2(oldfd, newfd)]: [newfd] becomes a copy of [oldfd]; -1 when
    [oldfd] is not open. *)
Definition sys_dup2 (oldfd newfd : Z) : M Z := λ s,
  match p_fds s !! oldfd with
  | Some o => Ret newfd (set_fds (<[newfd := o]> (p_fds s)) s)
  | None => Ret (-1) s
  end.

Definition sys_close (fd : Z) : M unit := λ s,
  Ret tt (set_fds (delete fd (p_fds s)) s).

(** [fflush] on a standard stream: the stdio buffers are not part of the
    process state here. *)
Definition fflush (stream : Z) : M unit := ret tt.

(** [unlink(path)]: removes a regular file when the directory of the path
    lets the entry go ([unlink_ok]); fails on a directory, on a missing
    file, and where the directory is closed to writing (EACCES, EROFS).
    The shell ignores the result. *)
Definition sys_unlink (path : string) : M unit := λ s,
  match p_fs s !! path with
  | Some (File _ _ (Data _)) =>
      if unlink_ok E path then Ret tt (set_fs (delete path (p_fs s)) s)
      else Ret tt s
  | _ => Ret tt s
  end.

(** [opendir(path)]: the entries, or NULL. *)
Definition sys_opendir (path : string) : M (option (list string)) := λ s,
  match p_fs s !! path with
  | Some (File true _ (Dir entries)) => Ret (Some entries) s
  | _ => Ret None s
  end.

Definition getpid_prompt : M unit := emit EvPrompt.

Definition sys_kill (pid signo : Z) : M unit := emit (EvKill pid signo).

(** [pipe(fds)]: 0 and the two endpoints, or -1. *)
Definition sys_pipe : M (Z * (Z * Z)) := λ s,
  let n := p_npipe s in
  let s1 := Proc (p_fs s) (p_fds s) (p_childPid s) (p_lineIndex s)
                 (p_cursors s) (p_out s) (p_nfork s) (S n) in
  if pipe_ok E n then
    let r := fresh_fd (p_fds s1) in
    let fds1 := <[r := FPipeR n]> (p_fds s1) in
    let w := fresh_fd fds1 in
    Ret (0, (r, w)) (set_fds (<[w := FPipeW n]> fds1) s1)
  else Ret (-1, (0, 0)) s1.

(** [fork()]: the process followed from here on is the child when the
    answer is 0 and the parent when it is positive. *)
Definition sys_fork : M Z := λ s,
  let n := p_nfork s in
  Ret (fork_ret E n)
      (Proc (p_fs s) (p_fds s) (p_childPid s) (p_lineIndex s)
            (p_cursors s) (p_out s) (S n) (p_npipe s)).

(** [execvp(file, argv)]: does not return when the program can be started;
    returns -1 otherwise.  A NULL [file] is read by the C library before
    any system call is made: a null dereference. *)
Definition sys_execvp (file : option string) (args : argmem) : M Z := λ s,
  match file with
  | Some prog => if exec_ok E prog then Replaced prog (argv_of args) s
                 else Ret (-1) s
  | None => Fault NullDeref s
  end.

(** [waitpid(pid, &status, 0)] *)
Definition sys_waitpid (pid : Z) : M Z :=
  emit (EvWait pid) ;; mret (wait_status E pid).

(** ** The wrappers *)

Definition forkWrapper : M Z :=
  pid ← sys_fork;
  if pid <? 0 then perror "fork" ;; _exit 2
  else mret pid.

Definition pipeWrapper : M (Z * Z) :=
  '(returnValue, pipefds) ← sys_pipe;
  if returnValue <? 0 then perror "Pipe_Error!" ;; _exit 0
  else mret pipefds.

(** ** InterruptBridge: [signalHandler] *)

Definition signalHandler (signo : Z) : M unit := λ s,
  if 0 <? p_childPid s then sys_kill (p_childPid s) signo s
  else if p_childPid s <? 0 then perror "fork" s
  else Ret tt s.

(** ** RedirectionApplier *)

Definition exit {A} (code : Z) : M A := _exit code.

Definition doAppendRedirection (filename : option string) : M unit :=
  stdOutFile ← sys_open filename (Z.lor O_RDWR O_APPEND) S_IRWXU;
  if stdOutFile =? -1 then perror "Error opening file" ;; exit 1
  else
    r ← sys_dup2 stdOutFile 1;
    if r =? -1 then perror "can't redirect standard out for append" ;; exit 1
    else fflush 1 ;; sys_close stdOutFile.

Definition doStdoutRedirection (filename : option string) : M unit :=
  stdOutFile ← sys_open filename (Z.lor O_TRUNC (Z.lor O_WRONLY O_CREAT)) S_IRWXU;
  if stdOutFile =? -1 then perror "Error opening file" ;; exit 1
  else
    r ← sys_dup2 stdOutFile 1;
    if r =? -1 then perror "can't redirect standard out" ;; exit 1
    else fflush 1 ;; sys_close stdOutFile.

Definition doStderrRedirection (filename : option string) : M unit :=
  stdErrFile ← sys_open filename (Z.lor O_TRUNC (Z.lor O_WRONLY O_CREAT)) S_IRWXU;
  if stdErrFile =? -1 then perror "Error opening file" ;; exit 1
  else
    r ← sys_dup2 stdErrFile 2;
    if r =? -1 then perror "can't redirect standard error" ;; exit 1
    else fflush 2 ;; sys_close stdErrFile.

Definition doStdoutStderrRedirection (filename : option string) : M unit :=
  stdOutErrFile ← sys_open filename (Z.lor O_TRUNC (Z.lor O_WRONLY O_CREAT)) S_IRWXU;
  if stdOutErrFile =? -1 then perror "Error opening file" ;; exit 1
  else
    r1 ← sys_dup2 stdOutErrFile 1;
    if r1 =? -1 then perror "can't redirect standard out" ;; exit 1
    else
      r2 ← sys_dup2 stdOutErrFile 2;
      if r2 =? -1 then perror "can't redirect standard error" ;; exit 1
      else fflush 1 ;; fflush 2 ;; sys_close stdOutErrFile.

Definition doStdinRedirection (filename : option string) : M unit :=
  stdInFile ← sys_open filename O_RDONLY 0;
  if stdInFile =? -1 then perror "Error opening file" ;; exit 1
  else
    r ← sys_dup2 stdInFile 0;
    if r =? -1 then perror "can't redirect standard in" ;; exit 1
    else fflush 0 ;; sys_close stdInFile.

(** ** ArgumentCollector: [parseArgs] *)

(** The [for] loop over the tokens that start at the cursor: [rest] is
    [line] from [*lineIndex] on, so [rest = []] is [line[*lineIndex] == NULL].
    Each round stores [args[i] = line[*lineIndex]] and increments both
    counters.  The stores go through the pointer [args]: there is no
    comparison of [i] with any bound. *)
Fixpoint parseArgs_loop (rest : list string) (args : argmem) (i : nat)
    (s : proc) : argmem * nat * proc :=
  match rest with
  | [] => (args, i, s)
  | tok :: rest' =>
      if isSpecial tok then (args, i, s)
      else parseArgs_loop rest' (<[i := Some tok]> args) (S i)
                          (store_lineIndex (S (p_lineIndex s)) s)
  end.

Definition parseArgs (args : argmem) (line : list string) : M argmem := λ s,
  if decide (p_lineIndex s ≤ length line)%nat then
    let '(args', i, s') := parseArgs_loop (drop (p_lineIndex s) line) args 0%nat s in
    Ret (<[i := None]> args') s'
  else Fault ReadPastSentinel s.

(** ** PipeStageLauncher: [doPipe] *)

(** [continue] is the recursive call of [continueProcessingLine]. *)
Definition doPipe (continue : argmem → M unit) (p1Args : argmem)
    (line : list string) : M unit :=
  '(pipefd0, pipefd1) ← pipeWrapper;
  pid ← forkWrapper;
  if pid =? 0 then
    sys_dup2 pipefd1 1 ;;
    sys_close pipefd0 ;;
    l0 ← read_line line 0;
    sys_execvp (cell_ptr l0) p1Args ;;
    mret tt
  else
    sys_dup2 pipefd0 0 ;;
    sys_close pipefd1 ;;
    l2 ← read_line line 2;
    sys_execvp (cell_ptr l2) p1Args ;;
    args ← parseArgs ∅ line;
    continue args.

(** ** PipelineExecutor: [continueProcessingLine] *)

(** The body shared by the five redirection branches: step over the
    operator, hand [line[*lineIndex]] to the redirection, step over it. *)
Definition redirect (apply : option string → M unit) (line : list string)
    (continue : M unit) : M unit :=
  incr_lineIndex ;;
  filename ← cur_token line;
  apply (cell_ptr filename) ;;
  incr_lineIndex ;;
  continue.

Fixpoint continueProcessingLine (fuel : nat) (line : list string)
    (args : argmem) : M unit :=
  match fuel with
  | O => λ _, OutOfFuel
  | S fuel' =>
      tok ← cur_token line;
      match tok with
      | Null =>
          l0 ← read_line line 0;
          r ← sys_execvp (cell_ptr l0) args;
          if r <? 0 then perror "EXEC failed" ;; _exit 1 else mret tt
      | Tok t =>
          if String.eqb t ">>" then
            redirect doAppendRedirection line (continueProcessingLine fuel' line args)
          else if String.eqb t "2>" then
            redirect doStderrRedirection line (continueProcessingLine fuel' line args)
          else if String.eqb t "&>" then
            redirect doStdoutStderrRedirection line (continueProcessingLine fuel' line args)
          else if String.eqb t ">" then
            redirect doStdoutRedirection line (continueProcessingLine fuel' line args)
          else if String.eqb t "<" then
            redirect doStdinRedirection line (continueProcessingLine fuel' line args)
          else if String.eqb t "|" then
            incr_lineIndex ;;
            doPipe (continueProcessingLine fuel' line) args line
          else mret tt
      | Beyond => mret tt
      end
  end.

(** ** Built-in commands *)

Definition nl : string := String "010"%char EmptyString.

(** The [for] loop of [lsHelper] over the entries [readdir] delivers. *)
Fixpoint print_entries (entries : list string) : M unit :=
  match entries with
  | [] => mret tt
  | d_name :: rest =>
      (if Ascii.eqb (char_at d_name 0) "."%char then mret tt
       else printf (d_name +:+ nl)) ;;
      print_entries rest
  end.

Definition lsHelper (dp : option (list string)) : M unit :=
  printf nl ;;
  match dp with
  | None => λ s, Fault NullDeref s
  | Some entries => print_entries entries ;; printf nl
  end.

Fixpoint doLs_loop (fuel : nat) (args : argmem) (i : nat) : M unit :=
  match fuel with
  | O => λ _, OutOfFuel
  | S fuel' =>
      a ← arg_at args i;
      match a with
      | None => mret tt
      | Some dir =>
          dp ← sys_opendir dir;
          match dp with
          | Some _ =>
              a2 ← arg_at args 2;
              (if a2 is Some _ then printf (dir +:+ " --->") else mret tt) ;;
              lsHelper dp
          | None =>
              printf (nl +:+ "Error ! Cannot open '" +:+ dir
                      +:+ "' : Directory not found" +:+ nl +:+ nl)
          end ;;
          doLs_loop fuel' args (S i)
      end
  end.

Definition doLs (args : argmem) : M unit :=
  a1 ← arg_at args 1;
  match a1 with
  | None => dp ← sys_opendir "./"; lsHelper dp
  | Some _ => doLs_loop (size args) args 1
  end.

Definition rm_need_name : string := nl +:+ "Error! Need file name" +:+ nl +:+ nl.

Definition rm_not_found (name : string) : string :=
  nl +:+ "Error! Cannot remove '" +:+ name +:+ "' : File not found" +:+ nl +:+ nl.

(** One round of the [while] loop of [doRm], for [args[i] = name]. *)
Definition doRm_step (name : string) : M unit :=
  fd ← sys_open (Some name) O_RDONLY 0;
  if fd <? 0 then printf (rm_not_found name)
  else sys_unlink name ;; sys_close fd.

Fixpoint doRm_loop (fuel : nat) (args : argmem) (i : nat) : M unit :=
  match fuel with
  | O => λ _, OutOfFuel
  | S fuel' =>
      a ← arg_at args i;
      match a with
      | None => mret tt
      | Some name => doRm_step name ;; doRm_loop fuel' args (S i)
      end
  end.

Definition doRm (args : argmem) : M unit :=
  a1 ← arg_at args 1;
  match a1 with
  | None => printf rm_need_name
  | Some _ => doRm_loop (size args) args 1
  end.

(** ** The input loop: [main] *)

(** [strcmp(a, b) == 0] for a pointer [a] that may be NULL. *)
Definition strcmp_eq (a : option string) (b : string) : M bool := λ s,
  match a with
  | Some a => Ret (String.eqb a b) s
  | None => Fault NullDeref s
  end.

(** [int lineIndex = 0;] of a loop round: a new cell, a new history. *)
Definition init_lineIndex : M unit := λ s,
  Ret tt (Proc (p_fs s) (p_fds s) (p_childPid s) 0 [0%nat]
               (p_out s) (p_nfork s) (p_npipe s)).

Definition get_childPid : M Z := λ s, Ret (p_childPid s) s.

(** The body of the [while] loop for the line just read. *)
Definition main_body (line : list string) : M unit :=
  init_lineIndex ;;
  first ← cur_token line;
  match first with
  | Tok _ =>
      args ← parseArgs ∅ line;
      a0 ← arg_at args 0;
      is_ls ← strcmp_eq a0 "ls";
      if is_ls : bool then doLs args
      else
        is_rm ← strcmp_eq a0 "rm";
        if is_rm : bool then doRm args
        else
          pid ← forkWrapper;
          set_childPid pid ;;
          if pid =? 0 then
            continueProcessingLine (S (length line)) line args
          else
            child ← get_childPid;
            status ← sys_waitpid child;
            child' ← get_childPid;
            emit (EvChildExited child' status)
  | _ => mret tt
  end.

Definition promptAndRead : M unit := getpid_prompt.

(** [main] over the lines [getArgList] delivers, in order.  The result is
    [Some 0] when the loop ended on the token exit, [None] when the given
    input is used up and the process waits in [promptAndRead]. *)
Fixpoint main_loop (input : list (list string)) : M (option Z) :=
  match input with
  | [] => promptAndRead ;; mret None
  | line :: rest =>
      promptAndRead ;;
      match line with
      | l0 :: _ =>
          if String.eqb l0 "exit" then mret (Some 0)
          else main_body line ;; main_loop rest
      | [] => main_body line ;; main_loop rest
      end
  end.

(** [signal(SIGINT, signalHandler)] installs the handler for the whole run;
    a delivery of the signal is a call of [signalHandler] on the state of
    that moment. *)
Definition main (input : list (list string)) : M (option Z) :=
  main_loop input.

End Shell.

(** The process as the shell starts: the three standard streams, an
    untouched [childPid]. *)
Definition boot (fs : gmap string file) : proc :=
  Proc fs (<[0 := FStd 0]> (<[1 := FStd 1]> (<[2 := FStd 2]> ∅))) 0 0 [] [] 0 0.

(** * Notions used in the statements *)

(** The classifier in the words of the specification: length one and the
    sole character among the redirect and pipe punctuation, or length two
    and the second character the output-redirect punctuation. *)
Definition operator_shape (token : string) : Prop :=
  (∃ c : ascii, token = String c EmptyString ∧ (c = "<" ∨ c = ">" ∨ c = "|")%char)
  ∨ (∃ c : ascii, token = String c (String ">"%char EmptyString)).

(** The number of tokens one pass of [parseArgs] collects from [rest]: the
    leading run of tokens that [isSpecial] rejects. *)
Fixpoint plain_prefix (rest : list string) : nat :=
  match rest with
  | [] => 0
  | tok :: rest' => if isSpecial tok then 0 else S (plain_prefix rest')
  end.

(** [k] increments of [lineIndex], one after the other. *)
Fixpoint advance (k : nat) (s : proc) : proc :=
  match k with
  | O => s
  | S k' => advance k' (store_lineIndex (S (p_lineIndex s)) s)
  end.

(** The stores [args[i] = t0], [args[i+1] = t1], ... for the tokens of [l]. *)
Fixpoint store_run (l : list string) (args : argmem) (i : nat) : argmem :=
  match l with
  | [] => args
  | t :: l' => store_run l' (<[i := Some t]> args) (S i)
  end.

(** Every cell of [args] that holds something lies inside an array of
    [MAX_ARGS] cells. *)
Definition within_array (MAX_ARGS : nat) (args : argmem) : Prop :=
  ∀ i : nat, is_Some (args !! i) → (i < MAX_ARGS)%nat.

(** The capacity rule of ArgumentCollector, read on one pass of [parseArgs]
    into a fresh array: when the pass returns to its caller (it did not fail
    and give up the line), it has stored nothing outside the [MAX_ARGS]
    cells. *)
Definition collector_respects_capacity (MAX_ARGS : nat) (line : list string)
    (s : proc) : Prop :=
  match parseArgs ∅ line s with
  | Ret args _ => within_array MAX_ARGS args
  | _ => True
  end.

(** The cursor and its history are the same in both states. *)
Definition same_cursor (s s' : proc) : Prop :=
  p_lineIndex s' = p_lineIndex s ∧ p_cursors s' = p_cursors s.

(** Newest first, every stored value is larger than all the older ones. *)
Definition monotone_history (h : list nat) : Prop :=
  StronglySorted (λ newer older : nat, (older < newer)%nat) h.

(** The cursor invariant of a line: the history ends in the current value,
    the cursor only ever grew, and no value it took exceeds the position of
    the sentinel. *)
Definition cursor_inv (line : list string) (s : proc) : Prop :=
  head (p_cursors s) = Some (p_lineIndex s)
  ∧ monotone_history (p_cursors s)
  ∧ Forall (λ c : nat, (c ≤ length line)%nat) (p_cursors s).

(** What a redirection does to the process that applies it to [filename]. *)
Definition redirection_outcome (filename : option string) (s : proc)
    (o : outcome unit) : Prop :=
  match o with
  | Ret _ s' => filename ≠ None ∧ same_cursor s s' ∧ p_out s' = p_out s
  | Exited c s' => c = 1 ∧ same_cursor s s'
  | _ => False
  end.

(** What processing the rest of a line may end in, in the process that
    runs it: it returned, or the image was replaced, or the process exited
    with one of the three statuses of the shell, and status 0 is the one
    that follows the report of a failed [pipe], or a NULL pointer went to
    the C library (the sentinel handed to [execvp] behind a trailing pipe
    operator); in each case the cursor invariant holds at the end. *)
Definition pipeline_outcome (line : list string) (o : outcome unit) : Prop :=
  match o with
  | Ret _ s' | Replaced _ _ s' => cursor_inv line s'
  | Exited c s' =>
      cursor_inv line s'
      ∧ (c = 0 ∨ c = 1 ∨ c = 2)
      ∧ (c = 0 → last (p_out s') = Some (EvPerror "Pipe_Error!"))
  | Fault f s' => f = NullDeref ∧ cursor_inv line s'
  | OutOfFuel => False
  end.

(** The array [args] holds the NULL-terminated vector [l]. *)
Definition holds_vector (args : argmem) (l : list string) : Prop :=
  (∀ (i : nat) (t : string), l !! i = Some t → args !! i = Some (Some t))
  ∧ args !! length l = Some None.

(** [open(name, O_RDONLY)] succeeds on this file system. *)
Definition openable (fs : gmap string file) (name : string) : Prop :=
  is_Some (open_effect fs (Some name) O_RDONLY 0).

(** The process after one round of the loop of [doRm]. *)
Definition rm_one (E : os) (name : string) (s : proc) : proc :=
  match doRm_step E name s with
  | Ret _ s' => s'
  | _ => s
  end.

(** The process after the rounds for [names], in order. *)
Fixpoint rm_all (E : os) (names : list string) (s : proc) : proc :=
  match names with
  | [] => s
  | name :: rest => rm_all E rest (rm_one E name s)
  end.

(** How a built-in command can end: it returns, or it hands NULL to the C
    library; the cursor is where it was. *)
Definition builtin_outcome {A} (s : proc) (o : outcome A) : Prop :=
  match o with
  | Ret _ s' => same_cursor s s'
  | Fault f s' => f = NullDeref ∧ same_cursor s s'
  | _ => False
  end.

(** How the handling of one line can end in a process, [pid] being the
    answer of the [fork] in [main]: undefined behaviour is a NULL pointer
    handed to the C library and nothing else; the image is replaced only in
    the forked process; an exit is the status 2 of a failed [fork], or an
    exit of the forked process with status 1, or with status 0 behind the
    report of a failed [pipe].  The cursor invariant holds at the end. *)
Definition line_outcome (line : list string) (pid : Z) (o : outcome unit) : Prop :=
  match o with
  | Ret _ s' => cursor_inv line s'
  | Replaced _ _ s' => cursor_inv line s' ∧ pid = 0
  | Exited c s' =>
      cursor_inv line s'
      ∧ ((c = 2 ∧ pid ≤ 0) ∨ (c = 1 ∧ pid = 0)
         ∨ (c = 0 ∧ pid = 0 ∧ last (p_out s') = Some (EvPerror "Pipe_Error!")))
  | Fault f s' => f = NullDeref ∧ cursor_inv line s'
  | OutOfFuel => False
  end.

(** The shell as a whole ends: [main], started on [input], calls [exit]. *)
Definition shell_terminates (E : os) (input : list (list string)) : Prop :=
  ∃ (c : Z) (s' : proc), main E input (boot ∅) = Exited c s'.

(** What no step of the handling of a line does, whatever else it does:
    it does not write [childPid], does not take a name off the file system,
    does not take back anything printed, the count of [fork] calls does
    not go down, and the history of the cursor only grows. *)
Definition frame_rel (s s' : proc) : Prop :=
  p_childPid s' = p_childPid s
  ∧ dom (p_fs s) ⊆ dom (p_fs s')
  ∧ p_out s `prefix_of` p_out s'
  ∧ (p_nfork s ≤ p_nfork s')%nat
  ∧ p_cursors s `suffix_of` p_cursors s'.

(** The computation [m] keeps [frame_rel], however it ends. *)
Definition keeps {A} (m : M A) : Prop :=
  ∀ s, match m s with
       | Ret _ s' | Exited _ s' | Replaced _ _ s' | Fault _ s' => frame_rel s s'
       | OutOfFuel => True
       end.

(** The process at the start of a round of [main]'s loop: a new
    [lineIndex], everything else as it was. *)
Definition line_start (s : proc) : proc :=
  Proc (p_fs s) (p_fds s) (p_childPid s) 0 [0%nat] (p_out s) (p_nfork s) (p_npipe s).

(** The process after [childPid = forkWrapper()] has stored [pid]. *)
Definition after_fork (pid : Z) (s : proc) : proc :=
  Proc (p_fs s) (p_fds s) pid (p_lineIndex s) (p_cursors s) (p_out s)
       (S (p_nfork s)) (p_npipe s).

(** The process after a failed [fork] was reported. *)
Definition fork_failed (s : proc) : proc :=
  Proc (p_fs s) (p_fds s) (p_childPid s) (p_lineIndex s) (p_cursors s)
       (p_out s ++ [EvPerror "fork"]) (S (p_nfork s)) (p_npipe s).

(** The shell after it has waited for the child [pid] and printed its
    status. *)
Definition after_wait (E : os) (pid : Z) (s : proc) : proc :=
  Proc (p_fs s) (p_fds s) pid (p_lineIndex s) (p_cursors s)
       (p_out s ++ [EvWait pid; EvChildExited pid (wait_status E pid)])
       (S (p_nfork s)) (p_npipe s).

(** The array [parseArgs] leaves when it has collected the tokens [l]. *)
Definition vector_of (l : list string) : argmem :=
  <[length l := None]> (store_run l ∅ 0%nat).

(** The process after it has printed [evs]. *)
Definition printed (evs : list event) (s : proc) : proc :=
  Proc (p_fs s) (p_fds s) (p_childPid s) (p_lineIndex s) (p_cursors s)
       (p_out s ++ evs) (p_nfork s) (p_npipe s).

(** [d_name[0] != '.'] *)
Definition visible (d_name : string) : bool :=
  negb (Ascii.eqb (char_at d_name 0) "."%char).

(** What [lsHelper] prints for a directory with these entries. *)
Definition ls_listing (entries : list string) : list event :=
  [EvPrintf nl] ++ map (λ d, EvPrintf (d +:+ nl)) (List.filter visible entries)
  ++ [EvPrintf nl].

Definition ls_error (dir : string) : string :=
  nl +:+ "Error ! Cannot open '" +:+ dir +:+ "' : Directory not found" +:+ nl +:+ nl.

(** What one round of the loop of [doLs] prints for the argument [dir];
    [header] tells whether [args[2]] is there. *)
Definition ls_block (fs : gmap string file) (header : bool) (dir : string)
    : list event :=
  match fs !! dir with
  | Some (File true _ (Dir entries)) =>
      (if header then [EvPrintf (dir +:+ " --->")] else []) ++ ls_listing entries
  | _ => [EvPrintf (ls_error dir)]
  end.

(** The redirection [continueProcessingLine] calls for an operator, in the
    order of its [strcmp] chain. *)
Definition redirection_of (E : os) (op : string)
    : option (option string → M unit) :=
  if String.eqb op ">>" then Some (doAppendRedirection E)
  else if String.eqb op "2>" then Some (doStderrRedirection E)
  else if String.eqb op "&>" then Some (doStdoutStderrRedirection E)
  else if String.eqb op ">" then Some (doStdoutRedirection E)
  else if String.eqb op "<" then Some (doStdinRedirection E)
  else None.

(** [open] for writing with O_CREAT and O_TRUNC goes through with [name]:
    the name is not there and the directory lets a file be created, or it
    is a regular file that may be written. *)
Definition writable_or_creatable (E : os) (fs : gmap string file)
    (name : string) : Prop :=
  (fs !! name = None ∧ creat_ok E name = true)
  ∨ ∃ r bytes, fs !! name = Some (File r true (Data bytes)).

(** [fs'] is [fs] with [name] there and empty, every other name as before. *)
Definition emptied (name : string) (fs fs' : gmap string file) : Prop :=
  ∃ f, fs' = <[name := f]> fs ∧ f_body f = Data "".

(** * Properties *)

#[local] Arguments Ascii.eqb : simpl never.
#[local] Arguments String.eqb : simpl never.

(** ** TokenClassifier *)

Lemma isSpecial_operator_shape (token : string) :
  isSpecial token = true ↔ operator_shape token.
Proof.
  unfold isSpecial, operator_shape, strlen, char_at. split.
  - destruct token as [|a [|b [|c rest]]]; simpl; try discriminate.
    + rewrite !orb_false_r. intros H. left. exists a. split; [done|].
      repeat (apply orb_prop in H as [H|H]);
        apply Ascii.eqb_eq in H; subst; auto.
    + rewrite orb_false_r. intros H. right. exists a.
      apply Ascii.eqb_eq in H. by subst.
  - intros [(c & -> & [-> | [-> | ->]]) | (c & ->)]; simpl; reflexivity.
Qed.

Lemma isSpecial_false_not_operator (token : string) :
  isSpecial token = false ↔ ¬ operator_shape token.
Proof.
  rewrite <- isSpecial_operator_shape. destruct (isSpecial token); naive_solver.
Qed.

(** ** ArgumentCollector *)

Lemma advance_lineIndex k s : p_lineIndex (advance k s) = (p_lineIndex s + k)%nat.
Proof.
  revert s. induction k as [|k IH]; intros s; simpl; [lia|].
  rewrite IH. simpl. lia.
Qed.

Lemma advance_cursors k s :
  p_cursors (advance k s) = (rev (seq (S (p_lineIndex s)) k) ++ p_cursors s)%list.
Proof.
  revert s. induction k as [|k IH]; intros s; [done|].
  cbn [advance seq rev]. rewrite IH. cbn [p_lineIndex p_cursors store_lineIndex].
  by rewrite <- app_assoc.
Qed.

Lemma advance_frame k s :
  p_fs (advance k s) = p_fs s ∧ p_fds (advance k s) = p_fds s
  ∧ p_childPid (advance k s) = p_childPid s ∧ p_out (advance k s) = p_out s
  ∧ p_nfork (advance k s) = p_nfork s ∧ p_npipe (advance k s) = p_npipe s.
Proof.
  revert s. induction k as [|k IH]; intros s; [done|].
  simpl. destruct (IH (store_lineIndex (S (p_lineIndex s)) s)) as (?&?&?&?&?&?).
  by repeat split.
Qed.

Lemma plain_prefix_le rest : (plain_prefix rest ≤ length rest)%nat.
Proof. induction rest as [|t r IH]; simpl; [lia|]. destruct (isSpecial t); simpl; lia. Qed.

Lemma plain_prefix_all rest :
  Forall (λ t, isSpecial t = false) rest → plain_prefix rest = length rest.
Proof. induction 1 as [|t r Ht _ IH]; simpl; [done|]. by rewrite Ht, IH. Qed.

(** The loop as a whole: it stores the run of plain tokens and advances the
    cursor by its length. *)
Lemma parseArgs_loop_eq rest args i s :
  parseArgs_loop rest args i s =
    (store_run (take (plain_prefix rest) rest) args i,
     (i + plain_prefix rest)%nat, advance (plain_prefix rest) s).
Proof.
  revert args i s. induction rest as [|t r IH]; intros args i s; simpl.
  - by rewrite Nat.add_0_r.
  - destruct (isSpecial t); simpl; [by rewrite Nat.add_0_r|].
    rewrite IH. by rewrite Nat.add_succ_r.
Qed.

Lemma store_run_lookup_lt l args i j :
  (j < i)%nat → store_run l args i !! j = args !! j.
Proof.
  revert args i. induction l as [|t l IH]; intros args i Hj; simpl; [done|].
  rewrite IH by lia. apply lookup_insert_ne. lia.
Qed.

Lemma store_run_lookup_ge l args i j :
  (i + length l ≤ j)%nat → store_run l args i !! j = args !! j.
Proof.
  revert args i. induction l as [|t l IH]; intros args i Hj; simpl in *; [done|].
  rewrite IH by lia. apply lookup_insert_ne. lia.
Qed.

Lemma store_run_lookup_in l args i j t :
  l !! j = Some t → store_run l args i !! (i + j)%nat = Some (Some t).
Proof.
  revert args i j. induction l as [|a l IH]; intros args i j Hj; [done|].
  destruct j as [|j]; simpl in *.
  - injection Hj as ->. rewrite Nat.add_0_r, store_run_lookup_lt by lia.
    apply lookup_insert_eq.
  - rewrite Nat.add_succ_r. apply (IH _ (S i) j Hj).
Qed.

Lemma dom_store_run l args i :
  dom (store_run l args i) = dom args ∪ set_seq i (length l).
Proof.
  revert args i. induction l as [|t l IH]; intros args i; simpl.
  - by rewrite (right_id_L ∅ (∪)).
  - rewrite IH, dom_insert_L. apply set_eq. intros x.
    rewrite !elem_of_union. tauto.
Qed.

Lemma argv_from_store_run l args i fuel :
  (length l < fuel)%nat →
  argv_from fuel (<[(i + length l)%nat := None]> (store_run l args i)) i = l.
Proof.
  revert args i fuel. induction l as [|t l IH]; intros args i fuel Hf.
  - destruct fuel; [lia|]. simpl. by rewrite Nat.add_0_r, lookup_insert_eq.
  - destruct fuel as [|fuel]; [simpl in Hf; lia|].
    cbn [argv_from length store_run].
    rewrite lookup_insert_ne by lia.
    rewrite store_run_lookup_lt by lia. rewrite lookup_insert_eq.
    f_equal. rewrite Nat.add_succ_r.
    apply (IH (<[i:=Some t]> args) (S i) fuel). simpl in Hf. lia.
Qed.

Lemma size_terminated_run l args i :
  (length l < size (<[(i + length l)%nat := None]> (store_run l args i)))%nat.
Proof.
  rewrite <- size_dom, dom_insert_L, dom_store_run.
  assert (Hsub : set_seq (C:=gset nat) i (S (length l))
                 ⊆ {[(i + length l)%nat]} ∪ (dom args ∪ set_seq i (length l))).
  { intros x. rewrite elem_of_set_seq, !elem_of_union, elem_of_singleton,
      elem_of_set_seq. lia. }
  apply subseteq_size in Hsub. rewrite size_set_seq in Hsub. lia.
Qed.

(** [parseArgs] never fails when the cursor is inside the line: it returns
    the array with the run of plain tokens stored from index 0 on and the
    terminator behind them. *)
Lemma parseArgs_eq args line s :
  (p_lineIndex s ≤ length line)%nat →
  let k := plain_prefix (drop (p_lineIndex s) line) in
  parseArgs args line s =
    Ret (<[k := None]> (store_run (take k (drop (p_lineIndex s) line)) args 0%nat))
        (advance k s).
Proof.
  intros Hc k. unfold parseArgs. destruct (decide _) as [_|]; [|lia].
  by rewrite parseArgs_loop_eq.
Qed.

(** A line on which [isSpecial] rejects every token is collected whole. *)
Lemma parseArgs_all_plain (args0 : argmem) (line : list string) (s : proc) :
  Forall (λ t, isSpecial t = false) line →
  p_lineIndex s = 0%nat →
  ∃ args s',
    parseArgs args0 line s = Ret args s'
    ∧ argv_of args = line
    ∧ (∀ i t, line !! i = Some t → args !! i = Some (Some t))
    ∧ args !! length line = Some None
    ∧ p_lineIndex s' = length line.
Proof.
  intros Hplain Hc.
  pose proof (plain_prefix_all line Hplain) as Hk.
  pose proof (parseArgs_eq args0 line s ltac:(lia)) as Heq.
  cbv zeta in Heq. rewrite Hc, drop_0, Hk, firstn_all in Heq.
  eexists _, _. split; [exact Heq|].
  repeat split.
  - unfold argv_of. apply (argv_from_store_run line args0 0%nat).
    apply (size_terminated_run line args0 0%nat).
  - intros i t Hi. rewrite lookup_insert_ne.
    + apply (store_run_lookup_in line args0 0%nat i t Hi).
    + apply lookup_lt_Some in Hi. lia.
  - apply lookup_insert_eq.
  - rewrite advance_lineIndex. lia.
Qed.

Lemma line_at_length (line : list string) : line_at line (length line) = Null.
Proof.
  unfold line_at. rewrite lookup_ge_None_2 by lia. by destruct (decide _).
Qed.

(** C9. For every token sequence without operator tokens (operators as the
    specification describes them: one character among the three
    punctuation characters, or two characters the second of which is the
    output-redirect character), one pass of [parseArgs] from the start of the
    line leaves an argument vector equal to the tokens in order, followed by
    the NULL terminator, and the cursor at end-of-line. *)
Theorem parseArgs_plain_line (args0 : argmem) (line : list string) (s : proc) :
  Forall (λ t, ¬ operator_shape t) line →
  p_lineIndex s = 0%nat →
  ∃ args s',
    parseArgs args0 line s = Ret args s'
    ∧ argv_of args = line
    ∧ (∀ i t, line !! i = Some t → args !! i = Some (Some t))
    ∧ args !! length line = Some None
    ∧ p_lineIndex s' = length line
    ∧ line_at line (p_lineIndex s') = Null.
Proof.
  intros Hplain Hc.
  assert (Hcode : Forall (λ t, isSpecial t = false) line).
  { eapply Forall_impl; [exact Hplain|].
    intros t. apply isSpecial_false_not_operator. }
  destruct (parseArgs_all_plain args0 line s Hcode Hc)
    as (args & s' & Heq & Hv & Hcells & Hnull & Hend).
  exists args, s'. repeat split; try done.
  rewrite Hend. apply line_at_length.
Qed.

Lemma parseArgs_plain_line_witness :
  Forall (λ t, ¬ operator_shape t) ["/bin/echo"; "hello"; "world"]
  ∧ p_lineIndex (boot ∅) = 0%nat
  ∧ ∃ args s',
      parseArgs ∅ ["/bin/echo"; "hello"; "world"] (boot ∅) = Ret args s'
      ∧ argv_of args = ["/bin/echo"; "hello"; "world"]
      ∧ (∀ i t, ["/bin/echo"; "hello"; "world"] !! i = Some t
                → args !! i = Some (Some t))
      ∧ args !! length ["/bin/echo"; "hello"; "world"] = Some None
      ∧ p_lineIndex s' = length ["/bin/echo"; "hello"; "world"]
      ∧ line_at ["/bin/echo"; "hello"; "world"] (p_lineIndex s') = Null.
Proof.
  assert (H : Forall (λ t, ¬ operator_shape t) ["/bin/echo"; "hello"; "world"]).
  { repeat constructor; apply isSpecial_false_not_operator; reflexivity. }
  split; [exact H|]. split; [reflexivity|].
  apply (parseArgs_plain_line ∅ ["/bin/echo"; "hello"; "world"] (boot ∅) H).
  reflexivity.
Defined.

(** The cells a pass of [parseArgs] has written in a fresh array are the
    indices up to the number of collected tokens. *)
Lemma parseArgs_written line s :
  (p_lineIndex s ≤ length line)%nat →
  ∃ args s',
    parseArgs ∅ line s = Ret args s'
    ∧ (p_lineIndex s ≤ p_lineIndex s' ≤ length line)%nat
    ∧ s' = advance (p_lineIndex s' - p_lineIndex s) s
    ∧ ∀ i : nat, is_Some (args !! i) ↔ (i ≤ p_lineIndex s' - p_lineIndex s)%nat.
Proof.
  intros Hc. pose proof (parseArgs_eq ∅ line s Hc) as Heq. cbv zeta in Heq.
  set (rest := drop (p_lineIndex s) line) in *.
  set (k := plain_prefix rest) in *.
  assert (Hk : (k ≤ length rest)%nat) by apply plain_prefix_le.
  assert (Hrest : length rest = (length line - p_lineIndex s)%nat)
    by (unfold rest; apply length_drop).
  eexists _, _. split; [exact Heq|].
  rewrite advance_lineIndex.
  replace (p_lineIndex s + k - p_lineIndex s)%nat with k by lia.
  split; [lia|]. split; [done|].
  intros i. rewrite <- elem_of_dom, dom_insert_L, dom_store_run, dom_empty_L.
  rewrite !elem_of_union, elem_of_singleton, elem_of_set_seq, length_take.
  split; [intros [->|[[]%not_elem_of_empty|?]]; lia|].
  intros Hi. destruct (decide (i = k)); [by left | right; right; lia].
Qed.

(** C7 (as amended). [parseArgs] has no failure path: from every cursor inside
    the line it returns to its caller, having written exactly the cells
    0..k of the array, k the number of tokens it collected (the terminator
    goes to cell k).  So whenever fewer than [MAX_ARGS] tokens are collected,
    no store lies outside the [MAX_ARGS] cells of the array. *)
Theorem parseArgs_total_within_capacity (MAX_ARGS : nat) (line : list string)
    (s : proc) :
  (p_lineIndex s ≤ length line)%nat →
  ∃ args s',
    parseArgs ∅ line s = Ret args s'
    ∧ (p_lineIndex s ≤ p_lineIndex s' ≤ length line)%nat
    ∧ (∀ i : nat, is_Some (args !! i) ↔ (i ≤ p_lineIndex s' - p_lineIndex s)%nat)
    ∧ ((p_lineIndex s' - p_lineIndex s < MAX_ARGS)%nat → within_array MAX_ARGS args).
Proof.
  intros Hc. destruct (parseArgs_written line s Hc) as (args & s' & Heq & Hb & _ & Hw).
  exists args, s'. repeat split; try done; try lia; try apply Hw.
  intros Hlt i Hi. apply Hw in Hi. lia.
Qed.

Lemma parseArgs_total_within_capacity_witness :
  (p_lineIndex (boot ∅) ≤ length ["/bin/ls"; "-l"; "|"; "/bin/wc"])%nat
  ∧ ∃ args s',
      parseArgs ∅ ["/bin/ls"; "-l"; "|"; "/bin/wc"] (boot ∅) = Ret args s'
      ∧ (p_lineIndex (boot ∅) ≤ p_lineIndex s'
         ≤ length ["/bin/ls"; "-l"; "|"; "/bin/wc"])%nat
      ∧ (∀ i : nat, is_Some (args !! i)
                    ↔ (i ≤ p_lineIndex s' - p_lineIndex (boot ∅))%nat)
      ∧ ((p_lineIndex s' - p_lineIndex (boot ∅) < 8)%nat → within_array 8 args).
Proof.
  split; [simpl; lia|].
  apply (parseArgs_total_within_capacity 8 ["/bin/ls"; "-l"; "|"; "/bin/wc"] (boot ∅)).
  simpl; lia.
Defined.

(** Whatever the capacity, a line of that many plain tokens makes
    [parseArgs] store the terminator one cell behind the array. *)
Lemma parseArgs_overflows (MAX_ARGS : nat) (s : proc) :
  p_lineIndex s = 0%nat →
  ¬ collector_respects_capacity MAX_ARGS (replicate MAX_ARGS "a") s.
Proof.
  intros Hc Hcap. unfold collector_respects_capacity in Hcap.
  destruct (parseArgs_all_plain ∅ (replicate MAX_ARGS "a") s)
    as (args & s' & Heq & _ & _ & Hnull & _); [|done|].
  { by apply Forall_replicate. }
  rewrite Heq in Hcap. rewrite length_replicate in Hnull.
  specialize (Hcap MAX_ARGS (ex_intro _ _ Hnull)). lia.
Qed.

(** C7, counterexample.  With an array of four cells and a line of four plain
    tokens, [parseArgs] does not give up the line: it returns, and has
    written cell 4. *)
Lemma parseArgs_capacity_counterexample :
  ¬ collector_respects_capacity 4 ["/bin/echo"; "a"; "b"; "c"] (boot ∅).
Proof.
  unfold collector_respects_capacity.
  destruct (parseArgs_all_plain ∅ ["/bin/echo"; "a"; "b"; "c"] (boot ∅))
    as (args & s' & Heq & _ & _ & Hnull & _); [|done|].
  { repeat constructor. }
  rewrite Heq. intros Hcap.
  specialize (Hcap 4%nat (ex_intro _ _ Hnull)). lia.
Qed.

(** ** Descriptors and redirections *)

Ltac unfold_M :=
  unfold mbind, M_bind, bind, mret, M_ret, ret, perror, printf, exit, _exit,
    emit, fflush in *.

Lemma lowest_free_ge n fd fds : fd ≤ lowest_free n fd fds.
Proof.
  revert fd. induction n as [|n IH]; intros fd; simpl; [lia|].
  destruct (fds !! fd); [|lia]. specialize (IH (fd + 1)). lia.
Qed.

Lemma fresh_fd_nonneg fds : 0 ≤ fresh_fd fds.
Proof. apply lowest_free_ge. Qed.

Lemma sys_open_cases (E : os) path flags mode s :
  (∃ p fs', path = Some p ∧ open_effect (p_fs s) path flags mode = Some fs'
            ∧ sys_open E path flags mode s =
                Ret (fresh_fd (p_fds s))
                    (set_fds (<[fresh_fd (p_fds s) := FFile p flags]> (p_fds s))
                             (set_fs fs' s)))
  ∨ ((path = None ∨ open_effect (p_fs s) path flags mode = None
      ∨ ∃ p, path = Some p ∧ p_fs s !! p = None ∧ creat_ok E p = false)
     ∧ sys_open E path flags mode s = Ret (-1) s).
Proof.
  unfold sys_open. destruct path as [p|]; [|right; auto].
  destruct (open_effect _ _ _ _) as [fs'|]; [|right; auto].
  destruct (p_fs s !! p) as [f|] eqn:Hp; [left; eauto|].
  destruct (creat_ok E p) eqn:Hc; [left; eauto|].
  right. split; [|done]. right. right. by exists p.
Qed.

(** Without O_CREAT the directory has no say. *)
Lemma sys_open_rdonly_cases (E : os) name s :
  (∃ p fs', Some name = Some p
            ∧ open_effect (p_fs s) (Some name) O_RDONLY 0 = Some fs'
            ∧ sys_open E (Some name) O_RDONLY 0 s =
                Ret (fresh_fd (p_fds s))
                    (set_fds (<[fresh_fd (p_fds s) := FFile p O_RDONLY]> (p_fds s))
                             (set_fs fs' s)))
  ∨ ((Some name = None ∨ open_effect (p_fs s) (Some name) O_RDONLY 0 = None)
     ∧ sys_open E (Some name) O_RDONLY 0 s = Ret (-1) s).
Proof.
  destruct (sys_open_cases E (Some name) O_RDONLY 0 s)
    as [Hok | ([[=] | [Ho | (p & [= <-] & Hnone & _)]] & Heq)]; [by left | |].
  - right. auto.
  - right. split; [|done]. right. unfold open_effect. by rewrite Hnone.
Qed.

(** [open] on a name the call may go through with: one that is there, or
    one the directory lets be created. *)
Lemma sys_open_ok (E : os) p flags mode fs' s :
  open_effect (p_fs s) (Some p) flags mode = Some fs' →
  (p_fs s !! p = None → creat_ok E p = true) →
  sys_open E (Some p) flags mode s =
    Ret (fresh_fd (p_fds s))
        (set_fds (<[fresh_fd (p_fds s) := FFile p flags]> (p_fds s)) (set_fs fs' s)).
Proof.
  intros Ho Hc. unfold sys_open. rewrite Ho.
  destruct (p_fs s !! p); [done|]. by rewrite Hc.
Qed.

Ltac redirection_proof :=
  let Hp := fresh "Hp" in let Ho := fresh "Ho" in let Heq := fresh "Heq" in
  intros filename s; unfold redirection_outcome; unfold_M;
  match goal with
  | |- context [sys_open ?E ?p ?f ?m s] =>
      destruct (sys_open_cases E p f m s)
        as [(q & fs' & Hp & Ho & Heq) | (_ & Heq)]; rewrite Heq; clear Heq
  end;
  [ pose proof (fresh_fd_nonneg (p_fds s));
    destruct (Z.eqb_spec (fresh_fd (p_fds s)) (-1)); [lia|];
    unfold sys_dup2, sys_close; cbn [p_fds set_fds set_fs];
    rewrite ?lookup_insert_eq; cbn;
    rewrite ?lookup_insert_ne by lia; rewrite ?lookup_insert_eq; cbn;
    subst filename; repeat split; done
  | cbn; repeat split; done ].

Lemma doAppendRedirection_outcome (E : os) filename s :
  redirection_outcome filename s (doAppendRedirection E filename s).
Proof. revert filename s. unfold doAppendRedirection. redirection_proof. Qed.

Lemma doStdoutRedirection_outcome (E : os) filename s :
  redirection_outcome filename s (doStdoutRedirection E filename s).
Proof. revert filename s. unfold doStdoutRedirection. redirection_proof. Qed.

Lemma doStderrRedirection_outcome (E : os) filename s :
  redirection_outcome filename s (doStderrRedirection E filename s).
Proof. revert filename s. unfold doStderrRedirection. redirection_proof. Qed.

Lemma lookup_insert_copy (fds : gmap Z fobj) (oldfd newfd : Z) (o : fobj) :
  fds !! oldfd = Some o → <[newfd := o]> fds !! oldfd = Some o.
Proof.
  intros H. destruct (decide (newfd = oldfd)) as [->|].
  - apply lookup_insert_eq.
  - by rewrite lookup_insert_ne.
Qed.

Lemma doStdoutStderrRedirection_outcome (E : os) filename s :
  redirection_outcome filename s (doStdoutStderrRedirection E filename s).
Proof.
  unfold doStdoutStderrRedirection, redirection_outcome. unfold_M.
  destruct (sys_open_cases E filename (Z.lor O_TRUNC (Z.lor O_WRONLY O_CREAT)) S_IRWXU s)
    as [(q & fs' & Hp & Ho & Heq) | (_ & Heq)]; rewrite Heq; clear Heq;
    [|cbn; repeat split; done].
  pose proof (fresh_fd_nonneg (p_fds s)).
  destruct (Z.eqb_spec (fresh_fd (p_fds s)) (-1)); [lia|].
  unfold sys_dup2, sys_close. cbn [p_fds set_fds set_fs].
  rewrite lookup_insert_eq. cbn.
  rewrite (lookup_insert_copy _ (fresh_fd (p_fds s)) 1 _) by apply lookup_insert_eq.
  cbn. subst filename. repeat split; done.
Qed.

Lemma doStdinRedirection_outcome (E : os) filename s :
  redirection_outcome filename s (doStdinRedirection E filename s).
Proof. revert filename s. unfold doStdinRedirection. redirection_proof. Qed.

(** ** The cursor *)

Lemma line_at_cases (line : list string) (i : nat) :
  (∃ t, (i < length line)%nat ∧ line !! i = Some t ∧ line_at line i = Tok t)
  ∨ (i = length line ∧ line_at line i = Null)
  ∨ ((length line < i)%nat ∧ line_at line i = Beyond).
Proof.
  unfold line_at. destruct (line !! i) as [t|] eqn:Hi.
  - left. exists t. split; [by eapply lookup_lt_Some | done].
  - apply lookup_ge_None in Hi. right.
    destruct (decide (i = length line)); [left | right]; split; (done || lia).
Qed.

(** The base case test [line[*lineIndex] == NULL] succeeds at the sentinel
    position and nowhere else. *)
Lemma line_at_Null_iff (line : list string) (i : nat) :
  line_at line i = Null ↔ i = length line.
Proof.
  destruct (line_at_cases line i) as [(t & ? & _ & H) | [[? H] | [? H]]];
    rewrite H; split; intros; (done || lia).
Qed.

Lemma cursor_inv_same line s s' :
  same_cursor s s' → cursor_inv line s → cursor_inv line s'.
Proof. intros [H1 H2] (?&?&?). unfold cursor_inv. rewrite H1, H2. done. Qed.

Lemma cursor_inv_store line s :
  cursor_inv line s → (p_lineIndex s < length line)%nat →
  cursor_inv line (store_lineIndex (S (p_lineIndex s)) s).
Proof.
  intros (Hh & Hm & Hb) Hlt. unfold cursor_inv. cbn.
  split; [done|]. split.
  - constructor; [done|].
    destruct (p_cursors s) as [|c h]; [constructor|].
    injection Hh as Hc. apply StronglySorted_inv in Hm as [_ Hm].
    constructor; [lia|]. eapply Forall_impl; [exact Hm|]. cbn. lia.
  - constructor; [lia | done].
Qed.

Lemma cursor_inv_advance line k s :
  cursor_inv line s → (p_lineIndex s + k ≤ length line)%nat →
  cursor_inv line (advance k s).
Proof.
  revert s. induction k as [|k IH]; intros s Hinv Hle; [done|].
  cbn [advance]. apply IH.
  - apply cursor_inv_store; [done | lia].
  - cbn. lia.
Qed.

Lemma cursor_inv_init line s :
  ∀ s', init_lineIndex s = Ret tt s' → cursor_inv line s' ∧ p_lineIndex s' = 0%nat.
Proof.
  intros s' [= <-]. unfold cursor_inv. cbn. repeat split.
  - repeat constructor.
  - repeat constructor. lia.
Qed.

(** ** The wrappers *)

Lemma pipeWrapper_cases E s :
  (pipe_ok E (p_npipe s) = true
   ∧ ∃ fds s', pipeWrapper E s = Ret fds s' ∧ same_cursor s s')
  ∨ (pipe_ok E (p_npipe s) = false
     ∧ ∃ s', pipeWrapper E s = Exited 0 s' ∧ same_cursor s s'
             ∧ p_out s' = (p_out s ++ [EvPerror "Pipe_Error!"])%list
             ∧ p_fs s' = p_fs s).
Proof.
  unfold pipeWrapper, sys_pipe. unfold_M.
  destruct (pipe_ok E (p_npipe s)); [left | right]; (split; [done|]);
    cbn; eexists; try eexists; repeat split; done.
Qed.

Lemma forkWrapper_cases E s :
  (0 ≤ fork_ret E (p_nfork s)
   ∧ ∃ s', forkWrapper E s = Ret (fork_ret E (p_nfork s)) s'
           ∧ same_cursor s s' ∧ p_out s' = p_out s ∧ p_npipe s' = p_npipe s
           ∧ p_fs s' = p_fs s ∧ p_fds s' = p_fds s)
  ∨ (fork_ret E (p_nfork s) < 0
     ∧ ∃ s', forkWrapper E s = Exited 2 s' ∧ same_cursor s s').
Proof.
  unfold forkWrapper, sys_fork. unfold_M.
  destruct (Z.ltb_spec (fork_ret E (p_nfork s)) 0); [right | left];
    (split; [done|]); eexists; repeat split; done.
Qed.

(** [dup2] and [close] return, whatever the table holds, and leave the
    cursor alone. *)
Lemma sys_dup2_returns oldfd newfd s :
  ∃ r s', sys_dup2 oldfd newfd s = Ret r s' ∧ same_cursor s s'
          ∧ p_out s' = p_out s.
Proof.
  unfold sys_dup2. destruct (p_fds s !! oldfd); eexists _, _; repeat split; done.
Qed.

Lemma sys_close_returns fd s :
  ∃ s', sys_close fd s = Ret tt s' ∧ same_cursor s s' ∧ p_out s' = p_out s.
Proof. eexists. repeat split; done. Qed.

Lemma sys_execvp_cases E file args s :
  (∃ prog, file = Some prog ∧ exec_ok E prog = true
           ∧ sys_execvp E file args s = Replaced prog (argv_of args) s)
  ∨ sys_execvp E file args s = Ret (-1) s
  ∨ (file = None ∧ sys_execvp E file args s = Fault NullDeref s).
Proof.
  unfold sys_execvp. destruct file as [prog|]; [|by right; right].
  destruct (exec_ok E prog) eqn:Hok; [left; eauto | by right; left].
Qed.

Lemma same_cursor_trans s1 s2 s3 :
  same_cursor s1 s2 → same_cursor s2 s3 → same_cursor s1 s3.
Proof. intros [? ?] [? ?]. split; congruence. Qed.

(** ** Sequencing *)

Lemma bind_Ret {A B} (m : M A) (k : A → M B) s a s' :
  m s = Ret a s' → (m ≫= k) s = k a s'.
Proof. unfold mbind, M_bind, bind. by intros ->. Qed.

Lemma bind_Exited {A B} (m : M A) (k : A → M B) s c s' :
  m s = Exited c s' → (m ≫= k) s = Exited c s'.
Proof. unfold mbind, M_bind, bind. by intros ->. Qed.

Lemma bind_Replaced {A B} (m : M A) (k : A → M B) s p v s' :
  m s = Replaced p v s' → (m ≫= k) s = Replaced p v s'.
Proof. unfold mbind, M_bind, bind. by intros ->. Qed.

Lemma bind_Fault {A B} (m : M A) (k : A → M B) s f s' :
  m s = Fault f s' → (m ≫= k) s = Fault f s'.
Proof. unfold mbind, M_bind, bind. by intros ->. Qed.

Lemma cursor_inv_le line s : cursor_inv line s → (p_lineIndex s ≤ length line)%nat.
Proof.
  intros (Hh & _ & Hb). destruct (p_cursors s) as [|c h]; [done|].
  injection Hh as <-. by apply Forall_inv in Hb.
Qed.

Lemma read_line_in line i s :
  (i ≤ length line)%nat →
  read_line line i s = Ret (line_at line i) s ∧ line_at line i ≠ Beyond.
Proof.
  intros Hi. unfold read_line.
  destruct (line_at_cases line i) as [(t & _ & _ & H) | [[_ H] | [? _]]];
    [rewrite H; done | rewrite H; done | lia].
Qed.

Lemma cur_token_in line s :
  (p_lineIndex s ≤ length line)%nat →
  cur_token line s = Ret (line_at line (p_lineIndex s)) s.
Proof. intros H. unfold cur_token. by apply read_line_in. Qed.

Lemma last_snoc_event (l : list event) (e : event) : last (l ++ [e]) = Some e.
Proof. apply last_snoc. Qed.

(** ** PipeStageLauncher and PipelineExecutor: how a run can end *)

Lemma doPipe_outcome E continue p1Args line s :
  cursor_inv line s → (2 ≤ p_lineIndex s)%nat →
  (∀ args s', cursor_inv line s' → (p_lineIndex s ≤ p_lineIndex s')%nat →
              pipeline_outcome line (continue args s')) →
  pipeline_outcome line (doPipe E continue p1Args line s).
Proof.
  intros Hinv Hc Hk. pose proof (cursor_inv_le _ _ Hinv) as Hle. unfold doPipe.
  destruct (pipeWrapper_cases E s)
    as [(_ & [r w] & s1 & Heq & Hs1) | (_ & s1 & Heq & Hs1 & Hout & _)].
  2:{ rewrite (bind_Exited _ _ _ _ _ Heq). cbn. split; [|split].
      - by eapply cursor_inv_same.
      - auto.
      - intros _. rewrite Hout. apply last_snoc_event. }
  rewrite (bind_Ret _ _ _ _ _ Heq). clear Heq.
  destruct (forkWrapper_cases E s1)
    as [(_ & s2 & Heq & Hs2 & _) | (_ & s2 & Heq & Hs2)].
  2:{ rewrite (bind_Exited _ _ _ _ _ Heq). cbn. split; [|split].
      - eapply cursor_inv_same; [|exact Hinv]. by eapply same_cursor_trans.
      - auto.
      - intros [=]. }
  rewrite (bind_Ret _ _ _ _ _ Heq). clear Heq.
  pose proof (same_cursor_trans _ _ _ Hs1 Hs2) as H02.
  destruct (fork_ret E _ =? 0).
  - (* the new process: the left-hand side *)
    destruct (sys_dup2_returns w 1 s2) as (r1 & s3 & Heq & Hs3 & _).
    rewrite (bind_Ret _ _ _ _ _ Heq). clear Heq.
    destruct (sys_close_returns r s3) as (s4 & Heq & Hs4 & _).
    rewrite (bind_Ret _ _ _ _ _ Heq). clear Heq.
    destruct (read_line_in line 0 s4 ltac:(lia)) as [Heq _].
    rewrite (bind_Ret _ _ _ _ _ Heq). clear Heq.
    pose proof (same_cursor_trans _ _ _ H02
                  (same_cursor_trans _ _ _ Hs3 Hs4)) as H04.
    destruct (sys_execvp_cases E (cell_ptr (line_at line 0)) p1Args s4)
      as [(prog & _ & _ & Heq) | [Heq | [_ Heq]]].
    + rewrite (bind_Replaced _ _ _ _ _ _ Heq). cbn. by eapply cursor_inv_same.
    + rewrite (bind_Ret _ _ _ _ _ Heq). cbn. by eapply cursor_inv_same.
    + rewrite (bind_Fault _ _ _ _ _ Heq). cbn. split; [done|].
      by eapply cursor_inv_same.
  - (* the process that goes on with the line *)
    destruct (sys_dup2_returns r 0 s2) as (r1 & s3 & Heq & Hs3 & _).
    rewrite (bind_Ret _ _ _ _ _ Heq). clear Heq.
    destruct (sys_close_returns w s3) as (s4 & Heq & Hs4 & _).
    rewrite (bind_Ret _ _ _ _ _ Heq). clear Heq.
    destruct (read_line_in line 2 s4 ltac:(lia)) as [Heq _].
    rewrite (bind_Ret _ _ _ _ _ Heq). clear Heq.
    pose proof (same_cursor_trans _ _ _ H02
                  (same_cursor_trans _ _ _ Hs3 Hs4)) as H04.
    pose proof (cursor_inv_same _ _ _ H04 Hinv) as Hinv4.
    destruct (sys_execvp_cases E (cell_ptr (line_at line 2)) p1Args s4)
      as [(prog & _ & _ & Heq) | [Heq | [_ Heq]]].
    + by rewrite (bind_Replaced _ _ _ _ _ _ Heq).
    + rewrite (bind_Ret _ _ _ _ _ Heq). clear Heq.
      destruct H04 as [Hidx _].
      destruct (parseArgs_written line s4 ltac:(lia))
        as (args & s5 & Heq & Hb & Hadv & _).
      rewrite (bind_Ret _ _ _ _ _ Heq). clear Heq.
      apply Hk; [|lia]. rewrite Hadv. apply cursor_inv_advance; [done | lia].
    + by rewrite (bind_Fault _ _ _ _ _ Heq).
Qed.

Lemma redirect_outcome apply line continue s :
  (∀ filename s0, redirection_outcome filename s0 (apply filename s0)) →
  cursor_inv line s → (p_lineIndex s < length line)%nat →
  (∀ s', cursor_inv line s' → p_lineIndex s' = S (S (p_lineIndex s)) →
         pipeline_outcome line (continue s')) →
  pipeline_outcome line (redirect apply line continue s).
Proof.
  intros Happly Hinv Hlt Hk. unfold redirect.
  rewrite (bind_Ret _ _ s tt (store_lineIndex (S (p_lineIndex s)) s)) by done.
  pose proof (cursor_inv_store _ _ Hinv Hlt) as Hinv1.
  set (s1 := store_lineIndex (S (p_lineIndex s)) s) in *.
  assert (Hs1 : p_lineIndex s1 = S (p_lineIndex s)) by done.
  rewrite (bind_Ret _ _ _ _ _ (cur_token_in line s1 ltac:(lia))).
  assert (Hname : ∀ filename, filename = cell_ptr (line_at line (p_lineIndex s1)) →
                    filename ≠ None → (p_lineIndex s1 < length line)%nat).
  { intros filename -> Hsome.
    destruct (line_at_cases line (p_lineIndex s1))
      as [(t & ? & _) | [[_ H] | [? _]]]; [done | by rewrite H in Hsome | lia]. }
  specialize (Hname _ eq_refl).
  generalize dependent (cell_ptr (line_at line (p_lineIndex s1))).
  intros filename Hname. specialize (Happly filename s1).
  destruct (apply filename s1) as [[] s2|c s2| | |] eqn:Heq; cbn in Happly; try done.
  - destruct Happly as (Hsome & Hs2 & _).
    rewrite (bind_Ret _ _ _ _ _ Heq). clear Heq.
    pose proof (cursor_inv_same _ _ _ Hs2 Hinv1) as Hinv2.
    destruct Hs2 as [Hidx _]. specialize (Hname Hsome).
    rewrite (bind_Ret _ _ s2 tt (store_lineIndex (S (p_lineIndex s2)) s2)) by done.
    apply Hk; [apply cursor_inv_store; [done | lia]|]. cbn. lia.
  - destruct Happly as (-> & Hs2).
    rewrite (bind_Exited _ _ _ _ _ Heq). cbn. split; [|split].
    + by eapply cursor_inv_same.
    + auto.
    + intros [=].
Qed.

Lemma continueProcessingLine_outcome E fuel line args s :
  cursor_inv line s → (1 ≤ p_lineIndex s)%nat →
  (length line < fuel + p_lineIndex s)%nat →
  pipeline_outcome line (continueProcessingLine E fuel line args s).
Proof.
  revert args s. induction fuel as [|fuel IH]; intros args s Hinv Hc Hfuel.
  { pose proof (cursor_inv_le _ _ Hinv). lia. }
  pose proof (cursor_inv_le _ _ Hinv) as Hle.
  cbn [continueProcessingLine].
  rewrite (bind_Ret _ _ _ _ _ (cur_token_in line s Hle)).
  destruct (line_at_cases line (p_lineIndex s))
    as [(t & Hlt & _ & Ht) | [[Hend Ht] | [? _]]]; [| |lia]; rewrite Ht.
  - assert (Hrec : ∀ s', cursor_inv line s' →
                         p_lineIndex s' = S (S (p_lineIndex s)) →
                         pipeline_outcome line
                           (continueProcessingLine E fuel line args s')).
    { intros s' Hinv' Hidx. apply IH; [done | lia | lia]. }
    repeat (case_match; [
      apply redirect_outcome;
        [ first [ apply doAppendRedirection_outcome
                | apply doStderrRedirection_outcome
                | apply doStdoutStderrRedirection_outcome
                | apply doStdoutRedirection_outcome
                | apply doStdinRedirection_outcome ]
        | done | done | exact Hrec ] |]).
    case_match; [|done].
    rewrite (bind_Ret _ _ s tt (store_lineIndex (S (p_lineIndex s)) s)) by done.
    apply doPipe_outcome.
    + by apply cursor_inv_store.
    + cbn. lia.
    + intros args' s' Hinv' Hidx. cbn in Hidx. apply IH; [done | lia | lia].
  - (* the base case *)
    destruct (read_line_in line 0 s ltac:(lia)) as [Heq _].
    rewrite (bind_Ret _ _ _ _ _ Heq). clear Heq.
    destruct (sys_execvp_cases E (cell_ptr (line_at line 0)) args s)
      as [(prog & _ & _ & Heq) | [Heq | [_ Heq]]].
    + by rewrite (bind_Replaced _ _ _ _ _ _ Heq).
    + rewrite (bind_Ret _ _ _ _ _ Heq). cbn. repeat split; [apply Hinv.. | auto |].
      intros [=].
    + by rewrite (bind_Fault _ _ _ _ _ Heq).
Qed.

(** ** The built-in rm *)

Lemma holds_vector_size args l : holds_vector args l → (length l < size args)%nat.
Proof.
  intros [Hcells Hnull]. rewrite <- size_dom.
  assert (Hsub : set_seq (C:=gset nat) 0 (S (length l)) ⊆ dom args).
  { intros i. rewrite elem_of_set_seq, elem_of_dom. intros [_ Hi].
    destruct (decide (i = length l)) as [->|]; [by rewrite Hnull|].
    destruct (lookup_lt_is_Some_2 l i ltac:(lia)) as [t Ht].
    by rewrite (Hcells i t Ht). }
  apply subseteq_size in Hsub. rewrite size_set_seq in Hsub. lia.
Qed.

Lemma open_effect_rdonly fs name fs' :
  open_effect fs (Some name) O_RDONLY 0 = Some fs' → fs' = fs ∧ is_Some (fs !! name).
Proof.
  unfold open_effect. destruct (fs !! name) as [f|]; [|discriminate].
  change (has_flag O_RDONLY O_TRUNC) with false.
  change (wants_write O_RDONLY) with false. cbn.
  destruct (implb _ _); [|discriminate].
  destruct (f_body f); intros [= <-]; eauto.
Qed.

Lemma openable_lookup fs1 fs2 name :
  fs1 !! name = fs2 !! name → openable fs1 name → openable fs2 name.
Proof.
  unfold openable, open_effect. intros <-.
  destruct (fs1 !! name) as [f|]; [|done].
  change (has_flag O_RDONLY O_TRUNC) with false.
  change (wants_write O_RDONLY) with false. cbn.
  destruct (implb _ _); [|done]. destruct (f_body f); eauto.
Qed.

Lemma doRm_step_eq (E : os) name s : doRm_step E name s = Ret tt (rm_one E name s).
Proof.
  unfold rm_one, doRm_step. unfold_M.
  destruct (sys_open_rdonly_cases E name s)
    as [(q & fs' & _ & _ & Heq) | (_ & Heq)]; rewrite Heq; [|done].
  pose proof (fresh_fd_nonneg (p_fds s)).
  destruct (Z.ltb_spec (fresh_fd (p_fds s)) 0); [lia|].
  unfold sys_unlink. cbn [p_fs set_fds set_fs].
  destruct (fs' !! name) as [[? ? []]|]; try destruct (unlink_ok E name);
    reflexivity.
Qed.

(** One round: a name that cannot be opened is reported and nothing is
    touched; a name that can be opened is the only one that may go. *)
Lemma rm_one_cases (E : os) name s :
  (¬ openable (p_fs s) name
   ∧ p_fs (rm_one E name s) = p_fs s
   ∧ p_out (rm_one E name s) = (p_out s ++ [EvPrintf (rm_not_found name)])%list
   ∧ same_cursor s (rm_one E name s))
  ∨ (openable (p_fs s) name
     ∧ (p_fs (rm_one E name s) = p_fs s ∨ p_fs (rm_one E name s) = delete name (p_fs s))
     ∧ p_out (rm_one E name s) = p_out s
     ∧ same_cursor s (rm_one E name s)).
Proof.
  unfold rm_one, doRm_step. unfold_M.
  destruct (sys_open_rdonly_cases E name s)
    as [(q & fs' & _ & Ho & Heq) | ([[=] | Ho] & Heq)]; rewrite Heq.
  - right. pose proof (fresh_fd_nonneg (p_fds s)).
    destruct (Z.ltb_spec (fresh_fd (p_fds s)) 0); [lia|].
    apply open_effect_rdonly in Ho as Ho'. destruct Ho' as [-> _].
    split; [unfold openable; rewrite Ho; eauto|].
    unfold sys_unlink. cbn [p_fs set_fds set_fs].
    destruct (p_fs s !! name) as [[? ? []]|]; try destruct (unlink_ok E name);
      cbn; repeat split; auto.
  - left. cbn. unfold openable. rewrite Ho. repeat split; try done.
Qed.

Lemma rm_all_spec (E : os) names s :
  (∀ p, p_fs (rm_all E names s) !! p = p_fs s !! p
        ∨ (p_fs (rm_all E names s) !! p = None ∧ p ∈ names ∧ openable (p_fs s) p))
  ∧ (∀ p, p ∈ names → ¬ openable (p_fs s) p →
          EvPrintf (rm_not_found p) ∈ p_out (rm_all E names s))
  ∧ (∀ e, e ∈ p_out s → e ∈ p_out (rm_all E names s))
  ∧ same_cursor s (rm_all E names s).
Proof.
  revert s. induction names as [|n ns IH]; intros s; cbn [rm_all].
  { repeat split; auto. intros p Hp. by apply elem_of_nil in Hp. }
  destruct (IH (rm_one E n s)) as (Hfs & Hmsg & Hout & Hcur).
  assert (Hone : ∀ p, p_fs (rm_one E n s) !! p = p_fs s !! p
                      ∨ (p = n ∧ p_fs (rm_one E n s) !! p = None
                         ∧ openable (p_fs s) p)).
  { intros p. destruct (rm_one_cases E n s)
      as [(_ & -> & _) | (Hop & [-> | ->] & _)]; auto.
    destruct (decide (p = n)) as [->|].
    - right. by rewrite lookup_delete_eq.
    - left. by rewrite lookup_delete_ne. }
  assert (Hout1 : ∀ e, e ∈ p_out s → e ∈ p_out (rm_one E n s)).
  { intros e He. destruct (rm_one_cases E n s)
      as [(_ & _ & -> & _) | (_ & _ & -> & _)]; [|done].
    apply elem_of_app. by left. }
  split; [|split; [|split]].
  - intros p. destruct (Hfs p) as [-> | (Hnone & Hin & Hop)].
    + destruct (Hone p) as [-> | (-> & Hnone & Hop)]; [by left|].
      right. repeat split; [done | by left | done].
    + right. repeat split; [done | by right |].
      destruct (Hone p) as [Heq | (_ & Hnone' & _)].
      * by apply (openable_lookup _ _ _ Heq).
      * destruct Hop as [fs' Hop]. apply open_effect_rdonly in Hop as [_ [f Hf]].
        congruence.
  - intros p Hin Hno. apply elem_of_cons in Hin as [-> | Hin].
    + apply Hout. destruct (rm_one_cases E n s)
        as [(_ & _ & -> & _) | (Hop & _)]; [|done].
      apply elem_of_app. right. by apply list_elem_of_singleton.
    + apply Hmsg; [done|]. intros Hop. apply Hno.
      destruct (Hone p) as [Heq | (_ & _ & ?)]; [|done].
      by apply (openable_lookup _ _ _ Heq).
  - intros e He. by apply Hout, Hout1.
  - eapply same_cursor_trans; [|exact Hcur].
    destruct (rm_one_cases E n s) as [(_ & _ & _ & ?) | (_ & _ & _ & ?)]; done.
Qed.

Lemma doRm_loop_eq (E : os) args l fuel i s :
  holds_vector args l → (i ≤ length l)%nat → (length l - i < fuel)%nat →
  doRm_loop E fuel args i s = Ret tt (rm_all E (drop i l) s).
Proof.
  intros [Hcells Hnull]. revert i s.
  induction fuel as [|fuel IH]; intros i s Hi Hfuel; [lia|].
  cbn [doRm_loop]. unfold arg_at. unfold mbind at 1, M_bind, bind.
  destruct (decide (i = length l)) as [->|Hne].
  - rewrite Hnull, drop_all. done.
  - destruct (lookup_lt_is_Some_2 l i ltac:(lia)) as [t Ht].
    rewrite (Hcells i t Ht). rewrite (drop_S l t i Ht). cbn [rm_all].
    rewrite (bind_Ret _ _ _ _ _ (doRm_step_eq E t s)).
    apply IH; lia.
Qed.

(** C10. The built-in rm, for every argument vector with head rm.  With no
    second argument the error message is printed and no file goes.
    Otherwise the command returns, and (a) a name is gone from the file
    system afterwards only if it is one of the arguments and could be opened
    read-only, (b) every argument that cannot be opened is reported with the
    diagnostic and is on the file system as before. *)
Theorem doRm_reports_or_unlinks (E : os) (args : argmem) (names : list string) (s : proc) :
  holds_vector args ("rm" :: names) →
  ∃ s',
    doRm E args s = Ret tt s'
    ∧ (names = [] →
       p_out s' = (p_out s ++ [EvPrintf rm_need_name])%list ∧ p_fs s' = p_fs s)
    ∧ (∀ p, p_fs s' !! p ≠ p_fs s !! p →
            p ∈ names ∧ openable (p_fs s) p ∧ p_fs s' !! p = None)
    ∧ (∀ p, p ∈ names → ¬ openable (p_fs s) p →
            EvPrintf (rm_not_found p) ∈ p_out s' ∧ p_fs s' !! p = p_fs s !! p).
Proof.
  intros Hv. pose proof Hv as [Hcells Hnull]. unfold doRm, arg_at.
  unfold mbind at 1, M_bind, bind.
  destruct names as [|n ns].
  - cbn in Hnull. rewrite Hnull. unfold_M. eexists. split; [done|].
    cbn. split; [done|]. split.
    + intros p Hp. by destruct Hp.
    + intros p Hp. by apply elem_of_nil in Hp.
  - rewrite (Hcells 1%nat n eq_refl).
    rewrite (doRm_loop_eq E args ("rm" :: n :: ns) (size args) 1 s Hv);
      [|cbn; lia|pose proof (holds_vector_size _ _ Hv); lia].
    cbn [drop skipn]. eexists. split; [done|].
    destruct (rm_all_spec E (n :: ns) s) as (Hfs & Hmsg & _ & _).
    split; [done|]. split.
    + intros p Hp. destruct (Hfs p) as [Heq | (? & ? & ?)]; done.
    + intros p Hin Hno. split; [by apply Hmsg|].
      destruct (Hfs p) as [Heq | (_ & _ & ?)]; done.
Qed.

Lemma doRm_reports_or_unlinks_witness :
  let E := Os (λ _, 0) (λ _, true) (λ _, true) (λ _, 0) (λ _, true) (λ _, true) in
  let args : argmem := <[2%nat := None]> (<[1%nat := Some "gone.txt"]>
                         (<[0%nat := Some "rm"]> ∅)) in
  holds_vector args ["rm"; "gone.txt"]
  ∧ ∃ s',
      doRm E args (boot ∅) = Ret tt s'
      ∧ (["gone.txt"] = [] →
         p_out s' = (p_out (boot ∅) ++ [EvPrintf rm_need_name])%list
         ∧ p_fs s' = p_fs (boot ∅))
      ∧ (∀ p, p_fs s' !! p ≠ p_fs (boot ∅) !! p →
              p ∈ ["gone.txt"] ∧ openable (p_fs (boot ∅)) p ∧ p_fs s' !! p = None)
      ∧ (∀ p, p ∈ ["gone.txt"] → ¬ openable (p_fs (boot ∅)) p →
              EvPrintf (rm_not_found p) ∈ p_out s'
              ∧ p_fs s' !! p = p_fs (boot ∅) !! p).
Proof.
  cbv zeta.
  assert (Hv : holds_vector (<[2%nat := None]> (<[1%nat := Some "gone.txt"]>
                               (<[0%nat := Some "rm"]> ∅))) ["rm"; "gone.txt"]).
  { split; [|reflexivity].
    intros [|[|[|i]]] t Ht; vm_compute in Ht; try discriminate;
      injection Ht as <-; reflexivity. }
  split; [exact Hv|].
  exact (doRm_reports_or_unlinks _ _ ["gone.txt"] (boot ∅) Hv).
Defined.

(** The array [parseArgs] fills holds a NULL-terminated vector: the
    collected tokens. *)
Lemma parseArgs_vector line s :
  (p_lineIndex s ≤ length line)%nat →
  ∃ args l,
    parseArgs ∅ line s = Ret args (advance (length l) s)
    ∧ holds_vector args l
    ∧ (p_lineIndex s + length l ≤ length line)%nat.
Proof.
  intros Hc. pose proof (parseArgs_eq ∅ line s Hc) as Heq. cbv zeta in Heq.
  set (rest := drop (p_lineIndex s) line) in *.
  set (k := plain_prefix rest) in *.
  assert (Hk : (k ≤ length rest)%nat) by apply plain_prefix_le.
  assert (Hrest : length rest = (length line - p_lineIndex s)%nat)
    by (unfold rest; apply length_drop).
  assert (Hlen : length (take k rest) = k) by (rewrite length_take; lia).
  eexists _, (take k rest). rewrite Hlen. split; [exact Heq|]. split; [|lia].
  split.
  - intros i t Hi. rewrite lookup_insert_ne.
    + apply (store_run_lookup_in _ ∅ 0%nat i t Hi).
    + apply lookup_lt_Some in Hi. lia.
  - rewrite Hlen. apply lookup_insert_eq.
Qed.

(** ** The built-in commands leave the cursor alone *)

Lemma print_entries_returns entries s :
  ∃ s', print_entries entries s = Ret tt s' ∧ same_cursor s s'.
Proof.
  revert s. induction entries as [|d rest IH]; intros s; cbn [print_entries].
  - by exists s.
  - unfold_M. destruct (Ascii.eqb _ _).
    + apply IH.
    + destruct (IH (Proc (p_fs s) (p_fds s) (p_childPid s) (p_lineIndex s)
                         (p_cursors s) (p_out s ++ [EvPrintf (d +:+ nl)])
                         (p_nfork s) (p_npipe s))) as (s' & Heq & Hs').
      exists s'. split; [exact Heq | exact Hs'].
Qed.

Lemma builtin_outcome_frame {A} s0 s (o : outcome A) :
  same_cursor s0 s → builtin_outcome s o → builtin_outcome s0 o.
Proof.
  intros H0. destruct o as [? s'|? s'|? ? s'|f s'|]; cbn; try done.
  - by apply same_cursor_trans.
  - intros [-> ?]. split; [done | by eapply same_cursor_trans].
Qed.

Lemma builtin_bind {A B} (m : M A) (k : A → M B) s :
  builtin_outcome s (m s) →
  (∀ a s', m s = Ret a s' → builtin_outcome s' (k a s')) →
  builtin_outcome s ((m ≫= k) s).
Proof.
  intros Hm Hk. unfold mbind, M_bind, bind.
  destruct (m s) as [a s'|? s'|? ? s'|f s'|] eqn:Heq; cbn in Hm; try done.
  eapply builtin_outcome_frame; [exact Hm | by apply Hk].
Qed.

Lemma builtin_emit e s : builtin_outcome s (emit e s).
Proof. by cbn. Qed.

Lemma builtin_ret {A} (a : A) s : builtin_outcome s ((mret a : M A) s).
Proof. by cbn. Qed.

Lemma builtin_arg_at args i c s :
  args !! i = Some c →
  arg_at args i s = Ret c s ∧ builtin_outcome s (arg_at args i s).
Proof. intros H. unfold arg_at. rewrite H. by cbn. Qed.

Lemma builtin_print_entries entries s :
  builtin_outcome s (print_entries entries s).
Proof.
  destruct (print_entries_returns entries s) as (s' & -> & Hs'). exact Hs'.
Qed.

Lemma lsHelper_outcome dp s : builtin_outcome s (lsHelper dp s).
Proof.
  unfold lsHelper. apply builtin_bind; [apply builtin_emit|].
  intros _ s1 _. destruct dp as [entries|]; [|by cbn].
  apply builtin_bind; [apply builtin_print_entries|].
  intros _ s2 _. apply builtin_emit.
Qed.

Lemma holds_vector_cell args l i :
  holds_vector args l → (i ≤ length l)%nat → ∃ c, args !! i = Some c.
Proof.
  intros [Hcells Hnull] Hi.
  destruct (decide (i = length l)) as [->|]; [eauto|].
  destruct (lookup_lt_is_Some_2 l i ltac:(lia)) as [t Ht].
  rewrite (Hcells i t Ht). eauto.
Qed.

Lemma doLs_loop_outcome args l fuel i s :
  holds_vector args l → (2 ≤ length l)%nat → (i ≤ length l)%nat →
  (length l - i < fuel)%nat →
  builtin_outcome s (doLs_loop fuel args i s).
Proof.
  intros Hv Hl. pose proof Hv as [Hcells Hnull]. revert i s.
  induction fuel as [|fuel IH]; intros i s Hi Hfuel; [lia|].
  cbn [doLs_loop].
  destruct (holds_vector_cell args l i Hv Hi) as [c Hc].
  apply builtin_bind; [by eapply builtin_arg_at|].
  intros a s1. rewrite (proj1 (builtin_arg_at args i c s Hc)). intros [= <- <-].
  destruct c as [dir|]; [|apply builtin_ret].
  assert (Hne : i ≠ length l).
  { intros ->. rewrite Hnull in Hc. discriminate. }
  apply builtin_bind.
  { unfold sys_opendir. by repeat case_match. }
  intros dp s1 _. apply builtin_bind; [|intros _ s2 _; apply IH; lia].
  destruct dp as [entries|]; [|apply builtin_emit].
  destruct (holds_vector_cell args l 2 Hv Hl) as [a2 Ha2].
  apply builtin_bind; [by eapply builtin_arg_at|].
  intros a2' s2 _. apply builtin_bind; [|intros _ s3 _; apply lsHelper_outcome].
  destruct a2'; [apply builtin_emit | apply builtin_ret].
Qed.

Lemma doLs_outcome args l s :
  holds_vector args l → (1 ≤ length l)%nat → builtin_outcome s (doLs args s).
Proof.
  intros Hv Hl. unfold doLs.
  destruct (holds_vector_cell args l 1 Hv Hl) as [c Hc].
  apply builtin_bind; [by eapply builtin_arg_at|].
  intros a s1. rewrite (proj1 (builtin_arg_at args 1 c s Hc)). intros [= <- <-].
  destruct c as [d|].
  - assert (Hl2 : (2 ≤ length l)%nat).
    { destruct (decide (1%nat = length l)) as [Heq|]; [|lia].
      destruct Hv as [_ Hnull]. rewrite <- Heq in Hnull. congruence. }
    eapply doLs_loop_outcome; [exact Hv | done | lia |].
    pose proof (holds_vector_size _ _ Hv). lia.
  - apply builtin_bind; [unfold sys_opendir; by repeat case_match|].
    intros dp s1 _. apply lsHelper_outcome.
Qed.

Lemma doRm_outcome (E : os) args l s :
  holds_vector args l → (1 ≤ length l)%nat → builtin_outcome s (doRm E args s).
Proof.
  intros Hv Hl. unfold doRm.
  destruct (holds_vector_cell args l 1 Hv Hl) as [c Hc].
  apply builtin_bind; [by eapply builtin_arg_at|].
  intros a s1. rewrite (proj1 (builtin_arg_at args 1 c s Hc)). intros [= <- <-].
  destruct c as [d|]; [|apply builtin_emit].
  rewrite (doRm_loop_eq E args l (size args) 1 s Hv Hl);
    [|pose proof (holds_vector_size _ _ Hv); lia].
  cbn. apply rm_all_spec.
Qed.

(** ** One line in [main] *)

Lemma builtin_line_outcome line pid s (o : outcome unit) :
  cursor_inv line s → builtin_outcome s o → line_outcome line pid o.
Proof.
  intros Hinv. destruct o as [? s'|? s'|? ? s'|f s'|]; cbn; try done.
  - intros Hs. by eapply cursor_inv_same.
  - intros [-> Hs]. split; [done | by eapply cursor_inv_same].
Qed.

Lemma pipeline_line_outcome line (o : outcome unit) :
  pipeline_outcome line o → line_outcome line 0 o.
Proof.
  destruct o as [? s'|c s'|? ? s'|f s'|]; cbn; try done.
  intros (Hinv & Hc & Hzero). split; [done|].
  destruct Hc as [-> | [-> | ->]].
  - right. right. auto.
  - right. left. auto.
  - left. split; [done | lia].
Qed.

Lemma main_body_outcome E line s :
  line_outcome line (fork_ret E (p_nfork s)) (main_body E line s).
Proof.
  unfold main_body.
  set (s0 := Proc (p_fs s) (p_fds s) (p_childPid s) 0 [0%nat]
                  (p_out s) (p_nfork s) (p_npipe s)).
  rewrite (bind_Ret _ _ s tt s0) by done.
  destruct (cursor_inv_init line s s0 eq_refl) as [Hinv0 Hidx0].
  rewrite (bind_Ret _ _ _ _ _ (cur_token_in line s0 ltac:(lia))).
  destruct (line_at_cases line (p_lineIndex s0))
    as [(t & Hlt & _ & Ht) | [[Hend Ht] | [? _]]]; [| |lia]; rewrite Ht;
    [|exact Hinv0].
  destruct (parseArgs_vector line s0 ltac:(lia)) as (args & l & Heq & Hv & Hb).
  rewrite (bind_Ret _ _ _ _ _ Heq). clear Heq.
  set (s1 := advance (length l) s0).
  assert (Hinv1 : cursor_inv line s1) by (by apply cursor_inv_advance).
  assert (Hidx1 : p_lineIndex s1 = length l).
  { unfold s1. rewrite advance_lineIndex. cbn. lia. }
  assert (Hnf : p_nfork s1 = p_nfork s).
  { unfold s1. by destruct (advance_frame (length l) s0) as (_&_&_&_&->&_). }
  destruct (holds_vector_cell args l 0 Hv ltac:(lia)) as [c Hc].
  rewrite (bind_Ret _ _ _ _ _ (proj1 (builtin_arg_at args 0 c s1 Hc))).
  destruct c as [a0|]; [|by cbn].
  assert (Hl : (1 ≤ length l)%nat).
  { destruct l; [|cbn; lia]. destruct Hv as [_ Hnull]. cbn in Hnull. congruence. }
  rewrite (bind_Ret _ _ s1 (String.eqb a0 "ls") s1) by done.
  destruct (String.eqb a0 "ls").
  { eapply builtin_line_outcome; [exact Hinv1|]. by eapply doLs_outcome. }
  rewrite (bind_Ret _ _ s1 (String.eqb a0 "rm") s1) by done.
  destruct (String.eqb a0 "rm").
  { eapply builtin_line_outcome; [exact Hinv1|]. by eapply doRm_outcome. }
  destruct (forkWrapper_cases E s1)
    as [(Hpid & s2 & Heq & Hs2 & _) | (Hpid & s2 & Heq & Hs2)];
    rewrite Hnf in *.
  2:{ rewrite (bind_Exited _ _ _ _ _ Heq). cbn. split.
      - by eapply cursor_inv_same.
      - left. split; [done | lia]. }
  rewrite (bind_Ret _ _ _ _ _ Heq). clear Heq.
  pose proof (cursor_inv_same _ _ _ Hs2 Hinv1) as Hinv2.
  destruct Hs2 as [Hidx2 _].
  match goal with |- context [set_childPid ?pid] =>
    rewrite (bind_Ret _ _ s2 tt
               (Proc (p_fs s2) (p_fds s2) pid (p_lineIndex s2) (p_cursors s2)
                     (p_out s2) (p_nfork s2) (p_npipe s2))) by done end.
  destruct (Z.eqb_spec (fork_ret E (p_nfork s)) 0) as [Hz|Hnz].
  - rewrite Hz. apply pipeline_line_outcome.
    apply continueProcessingLine_outcome; cbn; [exact Hinv2 | lia | lia].
  - cbn. exact Hinv2.
Qed.

(** The dispatch of [continueProcessingLine] has no last [else]: at a token
    that is none of the six operators it handles, it returns at once, with
    the cursor where it was.  After [parseArgs] this is the case of a token
    that [isSpecial] accepts and the dispatch does not know, 1> for one. *)
Lemma dispatch_falls_through E fuel line args s t :
  line !! p_lineIndex s = Some t →
  t ∉ [">>"; "2>"; "&>"; ">"; "<"; "|"] →
  continueProcessingLine E (S fuel) line args s = Ret tt s.
Proof.
  intros Ht Hnot. cbn [continueProcessingLine].
  pose proof (lookup_lt_Some _ _ _ Ht) as Hlt.
  rewrite (bind_Ret _ _ _ _ _ (cur_token_in line s ltac:(lia))).
  unfold line_at. rewrite Ht.
  assert (Hne : ∀ op, op ∈ [">>"; "2>"; "&>"; ">"; "<"; "|"] →
                      String.eqb t op = false).
  { intros op Hop. apply String.eqb_neq. by intros ->. }
  rewrite !Hne by repeat constructor. reflexivity.
Qed.

(** ** InterruptBridge *)

(** C4. For every signal number and every value of [childPid], the handler
    is the three-state machine: a positive id gets the same signal, sent to
    that id and to nothing else; a negative id is reported; with id 0 the
    handler does nothing. *)
Theorem signalHandler_three_states (signo : Z) (s : proc) :
  (0 < p_childPid s → signalHandler signo s = emit (EvKill (p_childPid s) signo) s)
  ∧ (p_childPid s < 0 → signalHandler signo s = emit (EvPerror "fork") s)
  ∧ (p_childPid s = 0 → signalHandler signo s = Ret tt s).
Proof.
  unfold signalHandler, sys_kill, perror.
  destruct (Z.ltb_spec 0 (p_childPid s)), (Z.ltb_spec (p_childPid s) 0);
    repeat split; intros; (done || lia).
Qed.

(** The handler adds at most one event, and changes nothing else. *)
Lemma signalHandler_one_event (signo : Z) (s : proc) :
  ∃ s', signalHandler signo s = Ret tt s'
        ∧ p_fs s' = p_fs s ∧ p_fds s' = p_fds s ∧ p_childPid s' = p_childPid s
        ∧ (p_out s' = p_out s
           ∨ p_out s' = (p_out s ++ [EvKill (p_childPid s) signo])%list
           ∨ p_out s' = (p_out s ++ [EvPerror "fork"])%list).
Proof.
  unfold signalHandler, sys_kill, perror, emit.
  repeat case_match; eexists; repeat split; auto.
Qed.

(** ** ProcessSupervisor and the failure of [pipe] *)

(** C6 (as amended). When [pipe] fails, [pipeWrapper] reports the failure
    and ends the process that called it with status 0.  In the handling of
    a line, an exit with status 0 happens in no other way, and only in the
    process that [main] forked for the line; the shell itself, to which
    [fork] answers with the id of that process, does not exit: it returns
    to its loop (or runs into a NULL pointer, for a line that starts with
    an operator). *)
Theorem pipe_failure_ends_the_forked_process (E : os) (line : list string)
    (s : proc) :
  pipe_ok E (p_npipe s) = false →
  (∃ s', pipeWrapper E s = Exited 0 s'
         ∧ p_out s' = (p_out s ++ [EvPerror "Pipe_Error!"])%list)
  ∧ (∀ s', main_body E line s = Exited 0 s' →
           fork_ret E (p_nfork s) = 0
           ∧ last (p_out s') = Some (EvPerror "Pipe_Error!"))
  ∧ (0 < fork_ret E (p_nfork s) →
     ∃ s', main_body E line s = Ret tt s' ∨ main_body E line s = Fault NullDeref s').
Proof.
  intros Hfail. split; [|split].
  - destruct (pipeWrapper_cases E s) as [[Hok _] | (_ & s' & Heq & _ & Hout & _)].
    + congruence.
    + by exists s'.
  - intros s' Heq. pose proof (main_body_outcome E line s) as Hrun.
    rewrite Heq in Hrun. cbn in Hrun.
    destruct Hrun as (_ & [[[=] _] | [[[=] _] | (_ & ? & ?)]]). done.
  - intros Hpid. pose proof (main_body_outcome E line s) as Hrun.
    destruct (main_body E line s) as [[] s'|c s'|? ? s'|f s'|]; cbn in Hrun.
    + exists s'. by left.
    + destruct Hrun as (_ & [[_ ?] | [[_ ?] | (_ & ? & _)]]); lia.
    + destruct Hrun as [_ ?]. lia.
    + destruct Hrun as [-> _]. exists s'. by right.
    + done.
Qed.

Lemma pipe_failure_ends_the_forked_process_witness :
  let E := Os (λ _, 0) (λ _, false) (λ _, true) (λ _, 0) (λ _, true) (λ _, true) in
  let line := ["/bin/ls"; "|"; "/bin/wc"] in
  pipe_ok E (p_npipe (boot ∅)) = false
  ∧ (∃ s', pipeWrapper E (boot ∅) = Exited 0 s'
           ∧ p_out s' = (p_out (boot ∅) ++ [EvPerror "Pipe_Error!"])%list)
  ∧ (∀ s', main_body E line (boot ∅) = Exited 0 s' →
           fork_ret E (p_nfork (boot ∅)) = 0
           ∧ last (p_out s') = Some (EvPerror "Pipe_Error!"))
  ∧ (0 < fork_ret E (p_nfork (boot ∅)) →
     ∃ s', main_body E line (boot ∅) = Ret tt s'
           ∨ main_body E line (boot ∅) = Fault NullDeref s').
Proof.
  cbv zeta. split; [reflexivity|].
  apply (pipe_failure_ends_the_forked_process
           (Os (λ _, 0) (λ _, false) (λ _, true) (λ _, 0) (λ _, true) (λ _, true))
           ["/bin/ls"; "|"; "/bin/wc"] (boot ∅)).
  reflexivity.
Defined.

(** C6, counterexample.  [pipe] fails every time.  In the process forked
    for the line the failure is reported and the process exits with status
    0; the shell, which got the id 100 from [fork], reaps it, handles the
    next line the same way and is back at its prompt: it has not ended. *)
Lemma pipe_failure_counterexample :
  let E_forked := Os (λ _, 0) (λ _, false) (λ _, true) (λ _, 0) (λ _, true) (λ _, true) in
  let E_shell := Os (λ _, 100) (λ _, false) (λ _, true) (λ _, 0) (λ _, true) (λ _, true) in
  let input := [["/bin/ls"; "|"; "/bin/wc"]; ["/bin/date"]] in
  (∃ s', main_body E_forked ["/bin/ls"; "|"; "/bin/wc"] (boot ∅) = Exited 0 s'
         ∧ p_out s' = [EvPerror "Pipe_Error!"])
  ∧ (∃ s', main E_shell input (boot ∅) = Ret None s'
           ∧ p_out s' = [EvPrompt; EvWait 100; EvChildExited 100 0;
                         EvPrompt; EvWait 100; EvChildExited 100 0; EvPrompt]
           ∧ p_npipe s' = 0%nat)
  ∧ ¬ shell_terminates E_shell input.
Proof.
  cbv zeta. split; [|split].
  - eexists. split; [vm_compute; reflexivity | reflexivity].
  - eexists. split; [vm_compute; reflexivity | split; reflexivity].
  - intros (c & s' & Heq). vm_compute in Heq. discriminate Heq.
Qed.

(** ** The active child after the wait *)

(** Nothing in the branch of [main] that waits for the child writes
    [childPid] again: whenever the shell got a child id from [fork] for a
    line that is not a built-in, it is back in its loop with that id still
    in [childPid]. *)
Lemma main_body_keeps_childPid E line s a0 :
  line !! 0%nat = Some a0 → isSpecial a0 = false →
  String.eqb a0 "ls" = false → String.eqb a0 "rm" = false →
  0 < fork_ret E (p_nfork s) →
  ∃ s', main_body E line s = Ret tt s'
        ∧ p_childPid s' = fork_ret E (p_nfork s)
        ∧ p_out s' = (p_out s ++ [EvWait (fork_ret E (p_nfork s));
                                  EvChildExited (fork_ret E (p_nfork s))
                                    (wait_status E (fork_ret E (p_nfork s)))])%list.
Proof.
  intros H0 Hplain Hls Hrm Hpid. destruct line as [|t rest]; [done|].
  injection H0 as ->. unfold main_body.
  set (s0 := Proc (p_fs s) (p_fds s) (p_childPid s) 0 [0%nat]
                  (p_out s) (p_nfork s) (p_npipe s)).
  rewrite (bind_Ret _ _ s tt s0) by done.
  rewrite (bind_Ret _ _ _ _ _ (cur_token_in (a0 :: rest) s0 ltac:(cbn; lia))).
  change (line_at (a0 :: rest) (p_lineIndex s0)) with (Tok a0). cbv iota.
  pose proof (parseArgs_eq ∅ (a0 :: rest) s0 ltac:(cbn; lia)) as Heq.
  cbv zeta in Heq. change (drop (p_lineIndex s0) (a0 :: rest)) with (a0 :: rest) in Heq.
  cbn [plain_prefix] in Heq. rewrite Hplain in Heq. cbn [take firstn store_run] in Heq.
  rewrite (bind_Ret _ _ _ _ _ Heq). clear Heq.
  set (k := plain_prefix rest).
  set (args := <[S k := None]> (store_run (take k rest) (<[0%nat := Some a0]> ∅) 1)).
  set (s1 := advance (S k) s0).
  assert (Hc : args !! 0%nat = Some (Some a0)).
  { unfold args. rewrite lookup_insert_ne by lia.
    rewrite store_run_lookup_lt by lia. apply lookup_insert_eq. }
  rewrite (bind_Ret _ _ _ _ _ (proj1 (builtin_arg_at args 0 _ s1 Hc))).
  rewrite (bind_Ret _ _ s1 (String.eqb a0 "ls") s1) by done. rewrite Hls.
  rewrite (bind_Ret _ _ s1 (String.eqb a0 "rm") s1) by done. rewrite Hrm.
  assert (Hout : p_out s1 = p_out s)
    by (unfold s1; by destruct (advance_frame (S k) s0) as (_ & _ & _ & -> & _)).
  assert (Hnf : p_nfork s1 = p_nfork s)
    by (unfold s1; by destruct (advance_frame (S k) s0) as (_ & _ & _ & _ & -> & _)).
  destruct (forkWrapper_cases E s1)
    as [(_ & s2 & Heq & _ & Hout2 & _) | (Hneg & _)]; rewrite Hnf in *; [|lia].
  rewrite (bind_Ret _ _ _ _ _ Heq). clear Heq.
  unfold set_childPid, get_childPid, sys_waitpid. unfold_M.
  destruct (Z.eqb_spec (fork_ret E (p_nfork s)) 0); [lia|].
  cbn. eexists. split; [done|]. split; [done|].
  cbn. by rewrite Hout2, Hout, <- app_assoc.
Qed.

(** C3, the code at the failing input.  The shell runs /bin/true; [fork]
    answers with the id 4242; the shell waits, the child is reaped, the
    shell is back in its loop with no child running.  [childPid] is still
    4242, and an interrupt that arrives now is forwarded to that id. *)
Theorem childPid_stale_after_reap :
  let E := Os (λ _, 4242) (λ _, true) (λ _, true) (λ _, 0) (λ _, true) (λ _, true) in
  ∃ s1,
    main_body E ["/bin/true"] (boot ∅) = Ret tt s1
    ∧ p_out s1 = [EvWait 4242; EvChildExited 4242 0]
    ∧ p_childPid s1 = 4242
    ∧ ∃ s2, signalHandler SIGINT s1 = Ret tt s2
            ∧ p_out s2 = [EvWait 4242; EvChildExited 4242 0; EvKill 4242 SIGINT].
Proof.
  cbv zeta. eexists. split; [vm_compute; reflexivity|].
  split; [reflexivity|]. split; [reflexivity|].
  eexists. split; [vm_compute; reflexivity | reflexivity].
Qed.

(** ** Append redirection *)

(** [doAppendRedirection] opens without O_CREAT. *)
Lemma append_flags_lack_O_CREAT : has_flag (Z.lor O_RDWR O_APPEND) O_CREAT = false.
Proof. reflexivity. Qed.

Lemma truncate_flags_have_O_CREAT :
  has_flag (Z.lor O_TRUNC (Z.lor O_WRONLY O_CREAT)) O_CREAT = true.
Proof. reflexivity. Qed.

(** For every name of a file that does not exist, append redirection
    reports, ends the process with status 1 and creates nothing. *)
Lemma doAppendRedirection_absent (E : os) (name : string) (s : proc) :
  p_fs s !! name = None →
  ∃ s', doAppendRedirection E (Some name) s = Exited 1 s'
        ∧ p_out s' = (p_out s ++ [EvPerror "Error opening file"])%list
        ∧ p_fs s' = p_fs s ∧ p_fds s' = p_fds s.
Proof.
  intros Habs. unfold doAppendRedirection. unfold_M.
  unfold sys_open, open_effect.
  rewrite Habs, append_flags_lack_O_CREAT. cbn.
  eexists. repeat split; done.
Qed.

(** The sibling for [>] creates the file, where the directory lets it. *)
Lemma doStdoutRedirection_absent (E : os) (name : string) (s : proc) :
  p_fs s !! name = None → creat_ok E name = true →
  ∃ s', doStdoutRedirection E (Some name) s = Ret tt s'
        ∧ p_fs s' !! name = Some (File true true (Data "")).
Proof.
  intros Habs Hdir. unfold doStdoutRedirection. unfold_M.
  unfold sys_open, open_effect.
  rewrite Habs, truncate_flags_have_O_CREAT, Hdir.
  pose proof (fresh_fd_nonneg (p_fds s)).
  destruct (Z.eqb_spec (fresh_fd (p_fds s)) (-1)); [lia|].
  unfold sys_dup2, sys_close. cbn [p_fds set_fds set_fs].
  rewrite lookup_insert_eq. cbn. eexists. split; [done|]. cbn.
  apply lookup_insert_eq.
Qed.

(** C5, the code at the failing input.  The file log.txt does not exist.
    Append redirection to it fails, whatever the directory would permit:
    the process reports, exits with status 1, and the file still does not
    exist.  The redirection for [>], on the same file system, creates the
    file wherever the directory lets a file be created. *)
Theorem append_redirection_does_not_create :
  (∀ E : os,
     ∃ s', doAppendRedirection E (Some "log.txt") (boot ∅) = Exited 1 s'
           ∧ p_out s' = [EvPerror "Error opening file"]
           ∧ p_fs s' !! "log.txt" = None)
  ∧ (∀ E : os, creat_ok E "log.txt" = true →
       ∃ s', doStdoutRedirection E (Some "log.txt") (boot ∅) = Ret tt s'
             ∧ p_fs s' !! "log.txt" = Some (File true true (Data ""))).
Proof.
  split.
  - intros E.
    destruct (doAppendRedirection_absent E "log.txt" (boot ∅) (lookup_empty _))
      as (s' & Heq & Hout & Hfs & _).
    exists s'. split; [exact Heq|]. split; [exact Hout|]. by rewrite Hfs.
  - intros E Hdir.
    exact (doStdoutRedirection_absent E "log.txt" (boot ∅) (lookup_empty _) Hdir).
Qed.

(** ** The exec calls of the pipeline *)

(** The base case: the program is [line[0]], the vector is [args]. *)
Lemma base_case_exec E fuel line args s prog :
  p_lineIndex s = length line → line !! 0%nat = Some prog →
  continueProcessingLine E (S fuel) line args s =
    if exec_ok E prog then Replaced prog (argv_of args) s
    else Exited 1 (Proc (p_fs s) (p_fds s) (p_childPid s) (p_lineIndex s)
                        (p_cursors s) (p_out s ++ [EvPerror "EXEC failed"])
                        (p_nfork s) (p_npipe s)).
Proof.
  intros Hend H0. cbn [continueProcessingLine].
  rewrite (bind_Ret _ _ _ _ _ (cur_token_in line s ltac:(lia))).
  rewrite Hend, line_at_length.
  assert (Hl0 : line_at line 0 = Tok prog) by (unfold line_at; by rewrite H0).
  destruct (read_line_in line 0 s ltac:(lia)) as [Heq _].
  rewrite (bind_Ret _ _ _ _ _ Heq), Hl0. clear Heq.
  unfold sys_execvp. unfold_M. cbn [cell_ptr].
  destruct (exec_ok E prog); [done|]. cbn. by rewrite Hend.
Qed.

(** The branch of [doPipe] that goes on with the line: when the token at
    index 2 names a program that can be started, the process becomes that
    program, with the vector of the left-hand side, and [continue] is never
    reached. *)
Lemma doPipe_parent_exec E continue p1Args line s prog :
  pipe_ok E (p_npipe s) = true → fork_ret E (p_nfork s) ≠ 0 →
  0 ≤ fork_ret E (p_nfork s) →
  line !! 2%nat = Some prog → exec_ok E prog = true →
  ∃ s', doPipe E continue p1Args line s = Replaced prog (argv_of p1Args) s'
        ∧ same_cursor s s'.
Proof.
  intros Hpipe Hne Hpos H2 Hok. unfold doPipe.
  destruct (pipeWrapper_cases E s)
    as [(_ & [r w] & s1 & Heq & Hs1) | (Hfail & _)]; [|congruence].
  rewrite (bind_Ret _ _ _ _ _ Heq).
  assert (Hnf : p_nfork s1 = p_nfork s).
  { revert Heq. unfold pipeWrapper, sys_pipe. unfold_M. rewrite Hpipe. cbn.
    by intros [= _ _ <-]. }
  clear Heq.
  destruct (forkWrapper_cases E s1)
    as [(_ & s2 & Heq & Hs2 & _) | (Hneg & _)]; rewrite Hnf in *; [|lia].
  rewrite (bind_Ret _ _ _ _ _ Heq). clear Heq.
  destruct (Z.eqb_spec (fork_ret E (p_nfork s)) 0); [done|].
  destruct (sys_dup2_returns r 0 s2) as (r1 & s3 & Heq & Hs3 & _).
  rewrite (bind_Ret _ _ _ _ _ Heq). clear Heq.
  destruct (sys_close_returns w s3) as (s4 & Heq & Hs4 & _).
  rewrite (bind_Ret _ _ _ _ _ Heq). clear Heq.
  assert (Hl2 : line_at line 2 = Tok prog) by (unfold line_at; by rewrite H2).
  unfold read_line at 1. unfold mbind at 1, M_bind, bind. rewrite Hl2.
  unfold sys_execvp, mbind, M_bind, bind. cbn [cell_ptr]. rewrite Hok.
  exists s4. split; [done|].
  eauto using same_cursor_trans.
Qed.

(** The new process of [doPipe]: its [execvp] is not checked; when the
    program of [line[0]] cannot be started, [doPipe] returns to its caller. *)
Lemma doPipe_child_exec_failure_returns E continue p1Args line s prog :
  pipe_ok E (p_npipe s) = true → fork_ret E (p_nfork s) = 0 →
  line !! 0%nat = Some prog → exec_ok E prog = false →
  ∃ s', doPipe E continue p1Args line s = Ret tt s' ∧ same_cursor s s'.
Proof.
  intros Hpipe Hz H0 Hok. unfold doPipe.
  destruct (pipeWrapper_cases E s)
    as [(_ & [r w] & s1 & Heq & Hs1) | (Hfail & _)]; [|congruence].
  rewrite (bind_Ret _ _ _ _ _ Heq).
  assert (Hnf : p_nfork s1 = p_nfork s).
  { revert Heq. unfold pipeWrapper, sys_pipe. unfold_M. rewrite Hpipe. cbn.
    by intros [= _ _ <-]. }
  clear Heq.
  destruct (forkWrapper_cases E s1)
    as [(_ & s2 & Heq & Hs2 & _) | (Hneg & _)]; rewrite Hnf in *; [|lia].
  rewrite (bind_Ret _ _ _ _ _ Heq). clear Heq. rewrite Hz. cbn [Z.eqb].
  destruct (sys_dup2_returns w 1 s2) as (r1 & s3 & Heq & Hs3 & _).
  rewrite (bind_Ret _ _ _ _ _ Heq). clear Heq.
  destruct (sys_close_returns r s3) as (s4 & Heq & Hs4 & _).
  rewrite (bind_Ret _ _ _ _ _ Heq). clear Heq.
  assert (Hl0 : line_at line 0 = Tok prog) by (unfold line_at; by rewrite H0).
  unfold read_line at 1. unfold mbind at 1, M_bind, bind. rewrite Hl0.
  unfold sys_execvp, mbind, M_bind, bind. cbn [cell_ptr]. rewrite Hok.
  exists s4. split; [done|].
  eauto using same_cursor_trans.
Qed.

(** C1, the code at the failing input.  The line is
    /bin/ls | /bin/wc -l, and /bin/wc can be started.  In the branch of
    [doPipe] that continues as the shell (here [fork] answers 77), standard
    input is bound to the read endpoint and the write endpoint is closed;
    then the process becomes /bin/wc with the argument vector of /bin/ls.
    The next stage's vector is never collected (the cursor stays behind
    the pipe operator, -l is lost), and the recursive call is not reached,
    whatever it would do.  The same from [main]: in the process forked for
    the line, the line ends as /bin/wc run with the vector of /bin/ls. *)
Theorem doPipe_parent_never_collects :
  let E := Os (λ _, 77) (λ _, true) (λ p, String.eqb p "/bin/wc") (λ _, 0)
              (λ _, true) (λ _, true) in
  let E_forked := Os (λ n, match n with O => 0 | _ => 77 end) (λ _, true)
                     (λ p, String.eqb p "/bin/wc") (λ _, 0) (λ _, true) (λ _, true) in
  let line := ["/bin/ls"; "|"; "/bin/wc"; "-l"] in
  let p1Args : argmem := <[1%nat := None]> (<[0%nat := Some "/bin/ls"]> ∅) in
  (∀ continue : argmem → M unit,
   ∃ s',
     doPipe E continue p1Args line (advance 2 (boot ∅))
       = Replaced "/bin/wc" ["/bin/ls"] s'
     ∧ p_fds s' !! 0 = Some (FPipeR 0)
     ∧ p_fds s' !! 4 = None
     ∧ p_lineIndex s' = 2%nat)
  ∧ (∃ s', main_body E_forked line (boot ∅) = Replaced "/bin/wc" ["/bin/ls"] s'
           ∧ p_lineIndex s' = 2%nat).
Proof.
  cbv zeta. split.
  - intros continue. eexists.
    split; [vm_compute; reflexivity|]. repeat split; reflexivity.
  - eexists. split; [vm_compute; reflexivity | reflexivity].
Qed.

(** C2, the code at the failing input.  The line is
    /bin/cat notes.txt | /bin/wc, in the process forked by [main]; the
    token at index 2 is the pipe operator, which names no program, so the
    branch of [doPipe] that goes on collects the vector [/bin/wc] and
    reaches the terminal case with it.  The image is replaced with
    /bin/cat, the program of [line[0]], not with /bin/wc, the head of the
    current argument vector. *)
Theorem terminal_case_execs_first_token :
  let E := Os (λ n, match n with O => 0 | _ => 77 end) (λ _, true)
              (λ p, String.prefix "/bin/" p) (λ _, 0) (λ _, true) (λ _, true) in
  let line := ["/bin/cat"; "notes.txt"; "|"; "/bin/wc"] in
  ∃ s',
    main_body E line (boot ∅) = Replaced "/bin/cat" ["/bin/wc"] s'
    ∧ p_lineIndex s' = length line
    ∧ hd_error ["/bin/wc"] ≠ Some "/bin/cat".
Proof.
  cbv zeta. eexists. split; [vm_compute; reflexivity|].
  split; [reflexivity | discriminate].
Qed.

(** * Further properties of the code *)

(** ** What the handling of a line never does *)

Lemma frame_rel_refl s : frame_rel s s.
Proof. by repeat split. Qed.

Lemma frame_rel_trans s1 s2 s3 : frame_rel s1 s2 → frame_rel s2 s3 → frame_rel s1 s3.
Proof.
  intros (?&?&?&?&?) (?&?&?&?&?). repeat split.
  - congruence.
  - by etrans.
  - by etrans.
  - lia.
  - by etrans.
Qed.

Lemma keeps_bind {A B} (m : M A) (k : A → M B) :
  keeps m → (∀ a, keeps (k a)) → keeps (m ≫= k).
Proof.
  intros Hm Hk s. unfold mbind, M_bind, bind. specialize (Hm s).
  destruct (m s) as [a s1| | | |]; try done.
  specialize (Hk a s1). destruct (k a s1); try done;
    by eapply frame_rel_trans.
Qed.

Lemma keeps_ret {A} (a : A) : keeps (mret a : M A).
Proof. intros s. apply frame_rel_refl. Qed.

Lemma keeps_emit e : keeps (emit e).
Proof. intros s. cbn. repeat split; try done. by apply prefix_app_r. Qed.

Lemma keeps_exit {A} c : keeps (_exit c : M A).
Proof. intros s. apply frame_rel_refl. Qed.

Lemma keeps_fault {A} f : keeps (λ s, Fault f s : outcome A).
Proof. intros s. apply frame_rel_refl. Qed.

Lemma open_effect_dom fs path flags mode fs' :
  open_effect fs path flags mode = Some fs' → dom fs ⊆ dom fs'.
Proof.
  unfold open_effect. destruct path as [p|]; [|done].
  destruct (fs !! p) as [f|] eqn:Hp.
  - destruct (_ && _); [|done].
    destruct (f_body f); repeat case_match; intros [= <-]; try done.
    rewrite dom_insert_L. set_solver.
  - case_match; [|done]. intros [= <-]. rewrite dom_insert_L. set_solver.
Qed.

Lemma keeps_sys_open (E : os) path flags mode : keeps (sys_open E path flags mode).
Proof.
  intros s. destruct (sys_open_cases E path flags mode s)
    as [(p & fs' & _ & Ho & ->) | (_ & ->)]; [|apply frame_rel_refl].
  repeat split; try done. cbn. by eapply open_effect_dom.
Qed.

Lemma keeps_sys_dup2 oldfd newfd : keeps (sys_dup2 oldfd newfd).
Proof. intros s. unfold sys_dup2. destruct (p_fds s !! oldfd); (cbn; by repeat split). Qed.

Lemma keeps_sys_close fd : keeps (sys_close fd).
Proof. intros s. (cbn; by repeat split). Qed.

Lemma keeps_incr_lineIndex : keeps incr_lineIndex.
Proof. intros s. cbn. repeat split; try done. by apply suffix_cons_r. Qed.

Lemma keeps_read_line line i : keeps (read_line line i).
Proof. intros s. unfold read_line. destruct (line_at line i); (cbn; by repeat split). Qed.

Lemma keeps_cur_token line : keeps (cur_token line).
Proof. intros s. apply keeps_read_line. Qed.

Lemma keeps_arg_at args i : keeps (arg_at args i).
Proof. intros s. unfold arg_at. destruct (args !! i); (cbn; by repeat split). Qed.

Lemma keeps_sys_opendir path : keeps (sys_opendir path).
Proof.
  intros s. unfold sys_opendir.
  destruct (p_fs s !! path) as [[[] ? []]|]; (cbn; by repeat split).
Qed.

Lemma keeps_sys_pipe E : keeps (sys_pipe E).
Proof.
  intros s. unfold sys_pipe.
  destruct (pipe_ok E (p_npipe s)); (cbn; by repeat split).
Qed.

Lemma keeps_sys_fork E : keeps (sys_fork E).
Proof.
  intros s. cbn. split; [done|]. split; [done|]. split; [done|].
  split; [cbn; lia | done].
Qed.

Lemma keeps_sys_execvp E file args : keeps (sys_execvp E file args).
Proof.
  intros s. unfold sys_execvp. destruct file as [prog|]; [|(cbn; by repeat split)].
  destruct (exec_ok E prog); (cbn; by repeat split).
Qed.

Lemma keeps_parseArgs args line : keeps (parseArgs args line).
Proof.
  intros s. unfold parseArgs. destruct (decide _); [|apply frame_rel_refl].
  rewrite parseArgs_loop_eq.
  destruct (advance_frame (plain_prefix (drop (p_lineIndex s) line)) s)
    as (Hfs & _ & Hpid & Hout & Hnf & _).
  repeat split; [done | by rewrite Hfs | by rewrite Hout | lia |].
  rewrite advance_cursors. by apply suffix_app_r.
Qed.

Create HintDb keeps.
#[local] Hint Resolve keeps_ret keeps_emit keeps_exit keeps_sys_open keeps_sys_dup2
  keeps_sys_close keeps_incr_lineIndex keeps_read_line keeps_cur_token
  keeps_arg_at keeps_sys_opendir keeps_sys_pipe keeps_sys_fork keeps_sys_execvp
  keeps_parseArgs : keeps.

(** One step of a proof that a sequence of calls keeps [frame_rel]. *)
Ltac keeps_step :=
  lazymatch goal with
  | |- keeps (_ ≫= _) => apply keeps_bind; [|intros]
  | |- keeps (if ?b then _ else _) => destruct b
  | |- keeps (match ?x with _ => _ end) => destruct x
  | |- keeps (fflush _) => apply keeps_ret
  | |- keeps (perror _) => apply keeps_emit
  | |- keeps (printf _) => apply keeps_emit
  | |- keeps (exit _) => apply keeps_exit
  | |- keeps (λ s, Fault _ s) => apply keeps_fault
  | |- _ => solve [auto with keeps]
  end.

Ltac keeps_tac := repeat keeps_step.

Lemma keeps_forkWrapper E : keeps (forkWrapper E).
Proof. unfold forkWrapper. keeps_tac. Qed.

Lemma keeps_pipeWrapper E : keeps (pipeWrapper E).
Proof. unfold pipeWrapper. keeps_tac. Qed.

Lemma keeps_doAppendRedirection (E : os) filename : keeps (doAppendRedirection E filename).
Proof. unfold doAppendRedirection. keeps_tac. Qed.

Lemma keeps_doStdoutRedirection (E : os) filename : keeps (doStdoutRedirection E filename).
Proof. unfold doStdoutRedirection. keeps_tac. Qed.

Lemma keeps_doStderrRedirection (E : os) filename : keeps (doStderrRedirection E filename).
Proof. unfold doStderrRedirection. keeps_tac. Qed.

Lemma keeps_doStdoutStderrRedirection (E : os) filename :
  keeps (doStdoutStderrRedirection E filename).
Proof. unfold doStdoutStderrRedirection. keeps_tac. Qed.

Lemma keeps_doStdinRedirection (E : os) filename : keeps (doStdinRedirection E filename).
Proof. unfold doStdinRedirection. keeps_tac. Qed.

#[local] Hint Resolve keeps_forkWrapper keeps_pipeWrapper
  keeps_doAppendRedirection keeps_doStdoutRedirection keeps_doStderrRedirection
  keeps_doStdoutStderrRedirection keeps_doStdinRedirection : keeps.

Lemma keeps_doPipe E continue p1Args line :
  (∀ args, keeps (continue args)) → keeps (doPipe E continue p1Args line).
Proof. intros Hk. unfold doPipe. keeps_tac. Qed.

Lemma keeps_redirect apply line continue :
  (∀ filename, keeps (apply filename)) → keeps continue →
  keeps (redirect apply line continue).
Proof. intros Ha Hk. unfold redirect. keeps_tac. Qed.

Lemma keeps_continueProcessingLine E fuel line args :
  keeps (continueProcessingLine E fuel line args).
Proof.
  revert args. induction fuel as [|fuel IH]; intros args; [by intros s|].
  cbn [continueProcessingLine].
  repeat first
    [ apply keeps_redirect; [auto with keeps | apply IH]
    | apply keeps_doPipe; apply IH
    | keeps_step ].
Qed.

Lemma keeps_print_entries entries : keeps (print_entries entries).
Proof. induction entries as [|d rest IH]; cbn [print_entries]; keeps_tac. Qed.

Lemma keeps_lsHelper dp : keeps (lsHelper dp).
Proof.
  pose proof keeps_print_entries. unfold lsHelper. keeps_tac.
Qed.

Lemma keeps_doLs_loop fuel args i : keeps (doLs_loop fuel args i).
Proof.
  pose proof keeps_lsHelper. revert i.
  induction fuel as [|fuel IH]; intros i; [by intros s|].
  cbn [doLs_loop]. keeps_tac.
Qed.

Lemma keeps_doLs args : keeps (doLs args).
Proof.
  pose proof keeps_lsHelper. pose proof keeps_doLs_loop. unfold doLs. keeps_tac.
Qed.

(** ** The round of [main] for one line, case by case *)

Lemma parseArgs_fresh line s :
  (p_lineIndex s ≤ length line)%nat →
  let l := take (plain_prefix (drop (p_lineIndex s) line)) (drop (p_lineIndex s) line) in
  parseArgs ∅ line s = Ret (vector_of l) (advance (length l) s).
Proof.
  intros Hc l. rewrite (parseArgs_eq ∅ line s Hc). cbv zeta. unfold vector_of.
  assert (Hlen : length l = plain_prefix (drop (p_lineIndex s) line)).
  { unfold l. rewrite length_take. pose proof (plain_prefix_le (drop (p_lineIndex s) line)). lia. }
  by rewrite Hlen.
Qed.

Lemma vector_of_holds l : holds_vector (vector_of l) l.
Proof.
  unfold vector_of. split.
  - intros i t Hi. rewrite lookup_insert_ne.
    + apply (store_run_lookup_in l ∅ 0%nat i t Hi).
    + apply lookup_lt_Some in Hi. lia.
  - apply lookup_insert_eq.
Qed.

Lemma argv_of_vector l : argv_of (vector_of l) = l.
Proof.
  unfold argv_of, vector_of. apply (argv_from_store_run l ∅ 0%nat).
  apply (size_terminated_run l ∅ 0%nat).
Qed.

(** What [main_body] does, read off its text: a blank line is skipped; a
    line that starts with an operator makes [strcmp] read NULL; the
    built-ins run in the process itself; any other line forks, and then the
    new process goes on with the line while the old one waits. *)
Lemma main_body_cases E line s :
  main_body E line s =
    match line with
    | [] => Ret tt (line_start s)
    | a0 :: _ =>
        if isSpecial a0 then Fault NullDeref (line_start s)
        else
          let l := take (plain_prefix line) line in
          let s1 := advance (length l) (line_start s) in
          if String.eqb a0 "ls" then doLs (vector_of l) s1
          else if String.eqb a0 "rm" then doRm E (vector_of l) s1
          else
            let pid := fork_ret E (p_nfork s) in
            if pid <? 0 then Exited 2 (fork_failed s1)
            else if pid =? 0 then
              continueProcessingLine E (S (length line)) line (vector_of l)
                                     (after_fork pid s1)
            else Ret tt (after_wait E pid s1)
    end.
Proof.
  unfold main_body. rewrite (bind_Ret _ _ s tt (line_start s)) by done.
  rewrite (bind_Ret _ _ _ _ _ (cur_token_in line (line_start s) ltac:(cbn; lia))).
  destruct line as [|a0 rest]; [done|].
  change (line_at (a0 :: rest) (p_lineIndex (line_start s))) with (Tok a0). cbv iota.
  pose proof (parseArgs_fresh (a0 :: rest) (line_start s) ltac:(cbn; lia)) as Heq.
  cbv zeta in Heq.
  change (drop (p_lineIndex (line_start s)) (a0 :: rest)) with (a0 :: rest) in Heq.
  rewrite (bind_Ret _ _ _ _ _ Heq). clear Heq. cbv zeta.
  set (l := take (plain_prefix (a0 :: rest)) (a0 :: rest)).
  set (s1 := advance (length l) (line_start s)).
  pose proof (vector_of_holds l) as [Hcells Hnull].
  cbn [plain_prefix] in l. destruct (isSpecial a0) eqn:Hsp.
  - cbn in l. subst l. cbn in Hnull.
    rewrite (bind_Ret _ _ _ _ _ (proj1 (builtin_arg_at _ 0 _ s1 Hnull))).
    done.
  - cbn [take firstn] in l.
    rewrite (bind_Ret _ _ _ _ _
               (proj1 (builtin_arg_at _ 0 _ s1 (Hcells 0%nat a0 eq_refl)))).
    rewrite (bind_Ret _ _ s1 (String.eqb a0 "ls") s1) by done.
    destruct (String.eqb a0 "ls"); [done|].
    rewrite (bind_Ret _ _ s1 (String.eqb a0 "rm") s1) by done.
    destruct (String.eqb a0 "rm"); [done|].
    assert (Hnf : p_nfork s1 = p_nfork s).
    { unfold s1. by destruct (advance_frame (length l) (line_start s))
        as (_ & _ & _ & _ & -> & _). }
    rewrite <- Hnf.
    unfold forkWrapper, sys_fork, set_childPid, get_childPid, sys_waitpid.
    unfold_M.
    destruct (fork_ret E (p_nfork s1) <? 0); [done|].
    destruct (fork_ret E (p_nfork s1) =? 0) eqn:Hz; [done|].
    unfold after_wait. cbn. by rewrite <- app_assoc.
Qed.

Lemma plain_prefix_app l t rest :
  Forall (λ t, isSpecial t = false) l → isSpecial t = true →
  plain_prefix (l ++ t :: rest) = length l.
Proof.
  intros Hl Ht. induction Hl as [|a l Ha _ IH]; cbn; [by rewrite Ht|].
  by rewrite Ha, IH.
Qed.

Lemma String_eqb_false a b : a ≠ b → String.eqb a b = false.
Proof. apply String.eqb_neq. Qed.

(** X1. A command without operators, in the process forked for it: the
    whole line is the argument vector, the program is its first token; when
    the program cannot be started the process reports EXEC failed and exits
    with status 1.  No file and no descriptor is touched on the way. *)
Theorem simple_command_in_forked_process (E : os) (prog : string)
    (rest : list string) (s : proc) :
  Forall (λ t, isSpecial t = false) (prog :: rest) →
  prog ≠ "ls" → prog ≠ "rm" → fork_ret E (p_nfork s) = 0 →
  ∃ s',
    p_fs s' = p_fs s ∧ p_fds s' = p_fds s ∧ p_childPid s' = 0
    ∧ if exec_ok E prog
      then main_body E (prog :: rest) s = Replaced prog (prog :: rest) s'
           ∧ p_out s' = p_out s
      else main_body E (prog :: rest) s = Exited 1 s'
           ∧ p_out s' = (p_out s ++ [EvPerror "EXEC failed"])%list.
Proof.
  intros Hplain Hls Hrm Hpid. rewrite main_body_cases.
  pose proof (Forall_inv Hplain) as Hsp. cbn beta in Hsp.
  rewrite Hsp, (String_eqb_false _ _ Hls), (String_eqb_false _ _ Hrm), Hpid.
  cbv zeta. cbn [Z.ltb Z.eqb Z.compare].
  rewrite (plain_prefix_all _ Hplain), firstn_all.
  set (s2 := after_fork 0 (advance (length (prog :: rest)) (line_start s))).
  assert (Hidx : p_lineIndex s2 = length (prog :: rest)).
  { unfold s2. cbn [after_fork p_lineIndex]. rewrite advance_lineIndex. cbn. lia. }
  destruct (advance_frame (length (prog :: rest)) (line_start s))
    as (Hfs & Hfds & _ & Hout & _ & _).
  rewrite (base_case_exec E _ _ _ s2 prog Hidx eq_refl), argv_of_vector.
  destruct (exec_ok E prog).
  - exists s2. unfold s2. cbn [after_fork p_fs p_fds p_childPid p_out].
    by rewrite Hfs, Hfds, Hout.
  - eexists (Proc _ _ _ _ _ _ _ _). split; [|split; [|split; [|split]]];
      [| | |reflexivity|]; unfold s2;
      cbn [after_fork p_fs p_fds p_childPid p_out];
      by rewrite ?Hfs, ?Hfds, ?Hout.
Qed.

Lemma simple_command_in_forked_process_witness :
  let E := Os (λ _, 0) (λ _, true) (λ p, String.eqb p "/bin/echo") (λ _, 0)
              (λ _, true) (λ _, true) in
  Forall (λ t, isSpecial t = false) ["/bin/echo"; "hi"]
  ∧ "/bin/echo" ≠ "ls" ∧ "/bin/echo" ≠ "rm"
  ∧ fork_ret E (p_nfork (boot ∅)) = 0
  ∧ ∃ s',
      p_fs s' = p_fs (boot ∅) ∧ p_fds s' = p_fds (boot ∅) ∧ p_childPid s' = 0
      ∧ if exec_ok E "/bin/echo"
        then main_body E ["/bin/echo"; "hi"] (boot ∅)
               = Replaced "/bin/echo" ["/bin/echo"; "hi"] s'
             ∧ p_out s' = p_out (boot ∅)
        else main_body E ["/bin/echo"; "hi"] (boot ∅) = Exited 1 s'
             ∧ p_out s' = (p_out (boot ∅) ++ [EvPerror "EXEC failed"])%list.
Proof.
  cbv zeta.
  assert (H1 : Forall (λ t, isSpecial t = false) ["/bin/echo"; "hi"])
    by (repeat constructor).
  assert (H2 : "/bin/echo" ≠ "ls") by discriminate.
  assert (H3 : "/bin/echo" ≠ "rm") by discriminate.
  split; [exact H1|]. split; [exact H2|]. split; [exact H3|].
  split; [reflexivity|].
  exact (simple_command_in_forked_process
           (Os (λ _, 0) (λ _, true) (λ p, String.eqb p "/bin/echo") (λ _, 0)
               (λ _, true) (λ _, true))
           "/bin/echo" ["hi"] (boot ∅) H1 H2 H3 eq_refl).
Defined.

(** X2. The shell's own side of a line that is no built-in: it forks
    once, waits for that child and prints its status, and does nothing
    else, whatever operators the line holds: no file is opened, no
    descriptor changes, no pipe is made. *)
Theorem shell_only_forks_and_waits (E : os) (a0 : string) (rest : list string)
    (s : proc) :
  isSpecial a0 = false → a0 ≠ "ls" → a0 ≠ "rm" →
  0 < fork_ret E (p_nfork s) →
  ∃ s',
    main_body E (a0 :: rest) s = Ret tt s'
    ∧ p_fs s' = p_fs s ∧ p_fds s' = p_fds s ∧ p_npipe s' = p_npipe s
    ∧ p_nfork s' = S (p_nfork s)
    ∧ p_out s' = (p_out s ++ [EvWait (fork_ret E (p_nfork s));
                              EvChildExited (fork_ret E (p_nfork s))
                                (wait_status E (fork_ret E (p_nfork s)))])%list.
Proof.
  intros Hsp Hls Hrm Hpid. rewrite main_body_cases.
  rewrite Hsp, (String_eqb_false _ _ Hls), (String_eqb_false _ _ Hrm).
  cbv zeta.
  destruct (Z.ltb_spec (fork_ret E (p_nfork s)) 0); [lia|].
  destruct (Z.eqb_spec (fork_ret E (p_nfork s)) 0); [lia|].
  eexists. split; [reflexivity|].
  match goal with |- context [advance ?k ?s0] =>
    destruct (advance_frame k s0) as (Hfs & Hfds & _ & Hout & Hnf & Hnp) end.
  unfold after_wait. cbn [p_fs p_fds p_npipe p_nfork p_out].
  by rewrite Hfs, Hfds, Hout, Hnf, Hnp.
Qed.

Lemma shell_only_forks_and_waits_witness :
  let E := Os (λ _, 31) (λ _, true) (λ _, true) (λ _, 0) (λ _, true) (λ _, true) in
  let rest := ["|"; "/bin/wc"; ">"; "out.txt"] in
  isSpecial "/bin/ls" = false ∧ "/bin/ls" ≠ "ls" ∧ "/bin/ls" ≠ "rm"
  ∧ 0 < fork_ret E (p_nfork (boot ∅))
  ∧ ∃ s',
      main_body E ("/bin/ls" :: rest) (boot ∅) = Ret tt s'
      ∧ p_fs s' = p_fs (boot ∅) ∧ p_fds s' = p_fds (boot ∅)
      ∧ p_npipe s' = p_npipe (boot ∅)
      ∧ p_nfork s' = S (p_nfork (boot ∅))
      ∧ p_out s' = (p_out (boot ∅)
                    ++ [EvWait (fork_ret E (p_nfork (boot ∅)));
                        EvChildExited (fork_ret E (p_nfork (boot ∅)))
                          (wait_status E (fork_ret E (p_nfork (boot ∅))))])%list.
Proof.
  cbv zeta.
  assert (H2 : "/bin/ls" ≠ "ls") by discriminate.
  assert (H3 : "/bin/ls" ≠ "rm") by discriminate.
  assert (H4 : 0 < fork_ret (Os (λ _, 31) (λ _, true) (λ _, true) (λ _, 0) (λ _, true) (λ _, true))
                     (p_nfork (boot ∅))) by (cbn; lia).
  split; [reflexivity|]. split; [exact H2|]. split; [exact H3|].
  split; [exact H4|].
  exact (shell_only_forks_and_waits
           (Os (λ _, 31) (λ _, true) (λ _, true) (λ _, 0) (λ _, true) (λ _, true))
           "/bin/ls" ["|"; "/bin/wc"; ">"; "out.txt"] (boot ∅) eq_refl H2 H3 H4).
Defined.

(** X3. A line that starts with an operator token: [parseArgs] collects
    nothing and stores NULL in [args[0]], and [main] hands that NULL to
    [strcmp].  This happens in the shell itself, before any [fork], and
    nothing has been printed or opened. *)
Theorem leading_operator_null_strcmp (E : os) (t : string) (rest : list string)
    (s : proc) :
  isSpecial t = true →
  ∃ s',
    main_body E (t :: rest) s = Fault NullDeref s'
    ∧ p_nfork s' = p_nfork s ∧ p_out s' = p_out s ∧ p_fs s' = p_fs s
    ∧ p_lineIndex s' = 0%nat.
Proof.
  intros Hsp. rewrite main_body_cases, Hsp. by exists (line_start s).
Qed.

Lemma leading_operator_null_strcmp_witness :
  isSpecial ">" = true
  ∧ ∃ s',
      main_body (Os (λ _, 0) (λ _, true) (λ _, true) (λ _, 0) (λ _, true) (λ _, true))
                [">"; "out.txt"] (boot ∅) = Fault NullDeref s'
      ∧ p_nfork s' = p_nfork (boot ∅) ∧ p_out s' = p_out (boot ∅)
      ∧ p_fs s' = p_fs (boot ∅) ∧ p_lineIndex s' = 0%nat.
Proof.
  split; [reflexivity|].
  exact (leading_operator_null_strcmp
           (Os (λ _, 0) (λ _, true) (λ _, true) (λ _, 0) (λ _, true) (λ _, true))
           ">" ["out.txt"] (boot ∅) eq_refl).
Defined.

(** X4. When [fork] fails in [main], it is the shell itself that ends:
    [forkWrapper] reports and calls [_exit(2)]; the assignment to
    [childPid] is never reached, and nothing is waited for. *)
Theorem fork_failure_ends_the_shell (E : os) (a0 : string) (rest : list string)
    (s : proc) :
  isSpecial a0 = false → a0 ≠ "ls" → a0 ≠ "rm" →
  fork_ret E (p_nfork s) < 0 →
  ∃ s',
    main_body E (a0 :: rest) s = Exited 2 s'
    ∧ p_out s' = (p_out s ++ [EvPerror "fork"])%list
    ∧ p_childPid s' = p_childPid s
    ∧ p_fs s' = p_fs s.
Proof.
  intros Hsp Hls Hrm Hpid. rewrite main_body_cases.
  rewrite Hsp, (String_eqb_false _ _ Hls), (String_eqb_false _ _ Hrm).
  cbv zeta. destruct (Z.ltb_spec (fork_ret E (p_nfork s)) 0); [|lia].
  eexists. split; [reflexivity|].
  match goal with |- context [advance ?k ?s0] =>
    destruct (advance_frame k s0) as (Hfs & _ & Hcp & Hout & _ & _) end.
  unfold fork_failed. cbn [p_fs p_childPid p_out].
  by rewrite Hfs, Hcp, Hout.
Qed.

Lemma fork_failure_ends_the_shell_witness :
  let E := Os (λ _, -1) (λ _, true) (λ _, true) (λ _, 0) (λ _, true) (λ _, true) in
  isSpecial "/bin/date" = false ∧ "/bin/date" ≠ "ls" ∧ "/bin/date" ≠ "rm"
  ∧ fork_ret E (p_nfork (boot ∅)) < 0
  ∧ ∃ s',
      main_body E ["/bin/date"] (boot ∅) = Exited 2 s'
      ∧ p_out s' = (p_out (boot ∅) ++ [EvPerror "fork"])%list
      ∧ p_childPid s' = p_childPid (boot ∅)
      ∧ p_fs s' = p_fs (boot ∅).
Proof.
  cbv zeta.
  assert (H2 : "/bin/date" ≠ "ls") by discriminate.
  assert (H3 : "/bin/date" ≠ "rm") by discriminate.
  assert (H4 : fork_ret (Os (λ _, -1) (λ _, true) (λ _, true) (λ _, 0) (λ _, true) (λ _, true))
                 (p_nfork (boot ∅)) < 0) by (cbn; lia).
  split; [reflexivity|]. split; [exact H2|]. split; [exact H3|].
  split; [exact H4|].
  exact (fork_failure_ends_the_shell
           (Os (λ _, -1) (λ _, true) (λ _, true) (λ _, 0) (λ _, true) (λ _, true))
           "/bin/date" [] (boot ∅) eq_refl H2 H3 H4).
Defined.

(** X5. The built-ins see only the tokens in front of the first operator:
    for a line whose first token is ls or rm, the operator and everything
    behind it change nothing at all; the round of [main] ends exactly as for
    the line cut off in front of the operator. *)
Theorem builtin_ignores_operators (E : os) (a0 : string)
    (plain : list string) (t : string) (rest : list string) (s : proc) :
  a0 = "ls" ∨ a0 = "rm" →
  Forall (λ t, isSpecial t = false) plain → isSpecial t = true →
  main_body E (a0 :: plain ++ t :: rest) s = main_body E (a0 :: plain) s.
Proof.
  intros Ha0 Hplain Ht.
  assert (Hall : Forall (λ t, isSpecial t = false) (a0 :: plain)).
  { constructor; [by destruct Ha0 as [-> | ->]|done]. }
  rewrite !main_body_cases. cbv zeta.
  rewrite (Forall_inv Hall).
  change (a0 :: plain ++ t :: rest)%list with ((a0 :: plain) ++ t :: rest)%list.
  rewrite (plain_prefix_app _ t rest Hall Ht), (plain_prefix_all _ Hall).
  rewrite take_app_length, firstn_all.
  destruct Ha0 as [-> | ->]; reflexivity.
Qed.

Lemma builtin_ignores_operators_witness :
  let E := Os (λ _, 0) (λ _, true) (λ _, true) (λ _, 0) (λ _, true) (λ _, true) in
  ("rm" = "ls" ∨ "rm" = "rm")
  ∧ Forall (λ t, isSpecial t = false) ["a.txt"]
  ∧ isSpecial ">" = true
  ∧ main_body E ("rm" :: ["a.txt"] ++ ">" :: ["log"]) (boot ∅)
    = main_body E ("rm" :: ["a.txt"]) (boot ∅).
Proof.
  cbv zeta.
  assert (H1 : "rm" = "ls" ∨ "rm" = "rm") by (by right).
  assert (H2 : Forall (λ t, isSpecial t = false) ["a.txt"]) by (repeat constructor).
  split; [exact H1|]. split; [exact H2|]. split; [reflexivity|].
  exact (builtin_ignores_operators
           (Os (λ _, 0) (λ _, true) (λ _, true) (λ _, 0) (λ _, true) (λ _, true))
           "rm" ["a.txt"] ">" ["log"] (boot ∅) H1 H2 eq_refl).
Defined.

(** X6. A token that [isSpecial] accepts and the dispatch of
    [continueProcessingLine] does not know (1> for one) ends the handling
    of the line without a word: the forked process starts no program,
    prints nothing and does not exit; it returns into the loop of [main],
    with the cursor still on that token. *)
Theorem unknown_operator_returns_to_main (E : os) (a0 : string)
    (plain : list string) (t : string) (rest : list string) (s : proc) :
  Forall (λ t, isSpecial t = false) (a0 :: plain) →
  a0 ≠ "ls" → a0 ≠ "rm" →
  isSpecial t = true → t ∉ [">>"; "2>"; "&>"; ">"; "<"; "|"] →
  fork_ret E (p_nfork s) = 0 →
  ∃ s',
    main_body E ((a0 :: plain) ++ t :: rest) s = Ret tt s'
    ∧ p_lineIndex s' = length (a0 :: plain)
    ∧ p_out s' = p_out s ∧ p_fs s' = p_fs s ∧ p_fds s' = p_fds s
    ∧ p_childPid s' = 0.
Proof.
  intros Hall Hls Hrm Ht Hnot Hpid.
  rewrite main_body_cases. cbn [app]. cbv zeta.
  rewrite (Forall_inv Hall), (String_eqb_false _ _ Hls), (String_eqb_false _ _ Hrm).
  rewrite Hpid. cbn [Z.ltb Z.eqb Z.compare].
  change (a0 :: plain ++ t :: rest)%list with ((a0 :: plain) ++ t :: rest)%list.
  rewrite (plain_prefix_app _ t rest Hall Ht), take_app_length.
  set (s2 := after_fork 0 (advance (length (a0 :: plain)) (line_start s))).
  assert (Hidx : p_lineIndex s2 = length (a0 :: plain)).
  { unfold s2. cbn [after_fork p_lineIndex]. rewrite advance_lineIndex. cbn. lia. }
  rewrite (dispatch_falls_through E _ _ _ s2 t); [| |exact Hnot].
  2:{ rewrite Hidx. by rewrite lookup_app_r, Nat.sub_diag. }
  exists s2. split; [done|]. split; [done|].
  destruct (advance_frame (length (a0 :: plain)) (line_start s))
    as (Hfs & Hfds & _ & Hout & _ & _).
  unfold s2. cbn [after_fork p_fs p_fds p_childPid p_out].
  by rewrite Hfs, Hfds, Hout.
Qed.

Lemma unknown_operator_returns_to_main_witness :
  let E := Os (λ _, 0) (λ _, true) (λ _, true) (λ _, 0) (λ _, true) (λ _, true) in
  Forall (λ t, isSpecial t = false) ["/bin/echo"; "hi"]
  ∧ "/bin/echo" ≠ "ls" ∧ "/bin/echo" ≠ "rm"
  ∧ isSpecial "1>" = true ∧ ("1>" ∉ [">>"; "2>"; "&>"; ">"; "<"; "|"])
  ∧ fork_ret E (p_nfork (boot ∅)) = 0
  ∧ ∃ s',
      main_body E (["/bin/echo"; "hi"] ++ "1>" :: ["out.txt"]) (boot ∅) = Ret tt s'
      ∧ p_lineIndex s' = length ["/bin/echo"; "hi"]
      ∧ p_out s' = p_out (boot ∅) ∧ p_fs s' = p_fs (boot ∅)
      ∧ p_fds s' = p_fds (boot ∅) ∧ p_childPid s' = 0.
Proof.
  cbv zeta.
  assert (H1 : Forall (λ t, isSpecial t = false) ["/bin/echo"; "hi"])
    by (repeat constructor).
  assert (H2 : "/bin/echo" ≠ "ls") by discriminate.
  assert (H3 : "/bin/echo" ≠ "rm") by discriminate.
  assert (H5 : "1>" ∉ [">>"; "2>"; "&>"; ">"; "<"; "|"]).
  { intros H. repeat (apply elem_of_cons in H as [H|H]; [discriminate H|]).
    by apply elem_of_nil in H. }
  split; [exact H1|]. split; [exact H2|]. split; [exact H3|].
  split; [reflexivity|]. split; [exact H5|]. split; [reflexivity|].
  exact (unknown_operator_returns_to_main
           (Os (λ _, 0) (λ _, true) (λ _, true) (λ _, 0) (λ _, true) (λ _, true))
           "/bin/echo" ["hi"] "1>" ["out.txt"] (boot ∅) H1 H2 H3 eq_refl H5 eq_refl).
Defined.

(** ** Descriptors: the lowest free one *)

Lemma lowest_free_free (fds : gmap Z fobj) (n : nat) (fd : Z) (X : gset Z) :
  (∀ k, fd ≤ k → is_Some (fds !! k) → k ∈ X) → (size X ≤ n)%nat →
  fds !! lowest_free n fd fds = None.
Proof.
  revert fd X. induction n as [|n IH]; intros fd X Hin Hsz; cbn [lowest_free].
  - destruct (fds !! fd) eqn:Hfd; [|done].
    assert (fd ∈ X) by (apply Hin; [lia | by rewrite Hfd]).
    assert (size X ≠ 0%nat); [|lia].
    apply size_non_empty_iff. intros HX. rewrite HX in H.
    by apply not_elem_of_empty in H.
  - destruct (fds !! fd) eqn:Hfd; [|done].
    assert (Hfd' : fd ∈ X) by (apply Hin; [lia | by rewrite Hfd]).
    apply (IH (fd + 1) (X ∖ {[fd]})).
    + intros k Hk Hsome. apply elem_of_difference. split; [apply Hin; [lia|done]|].
      rewrite not_elem_of_singleton. lia.
    + rewrite size_difference by (by apply singleton_subseteq_l).
      rewrite size_singleton. lia.
Qed.

(** [open] and [pipe] hand out a descriptor that is not in use. *)
Lemma fresh_fd_free (fds : gmap Z fobj) : fds !! fresh_fd fds = None.
Proof.
  unfold fresh_fd. apply (lowest_free_free fds _ 0 (dom fds)).
  - intros k _ Hk. by apply elem_of_dom.
  - by rewrite size_dom.
Qed.

(** ** Redirections that succeed *)

(** The sequence open, dup2 onto [target], close, when [open] succeeds and
    [target] is an open descriptor: [open] hands out a descriptor [fd] that
    was free and differs from [target]; after the close the table is the
    old one with [target] naming the file. *)
Lemma open_dup2_close (E : os) (name : string) (flags mode target : Z)
    (fs' : gmap string file) (s : proc) :
  open_effect (p_fs s) (Some name) flags mode = Some fs' →
  (p_fs s !! name = None → creat_ok E name = true) →
  is_Some (p_fds s !! target) →
  ∃ fd,
    sys_open E (Some name) flags mode s =
      Ret fd (set_fds (<[fd := FFile name flags]> (p_fds s)) (set_fs fs' s))
    ∧ (fd =? -1) = false
    ∧ p_fds s !! fd = None ∧ fd ≠ target
    ∧ delete fd (<[target := FFile name flags]> (<[fd := FFile name flags]> (p_fds s)))
      = <[target := FFile name flags]> (p_fds s).
Proof.
  intros Ho Hdir [o Ht].
  pose proof (fresh_fd_free (p_fds s)) as Hfree.
  pose proof (fresh_fd_nonneg (p_fds s)) as Hpos.
  assert (Hne : fresh_fd (p_fds s) ≠ target) by congruence.
  exists (fresh_fd (p_fds s)).
  split; [by apply sys_open_ok|]. split; [apply Z.eqb_neq; lia|].
  split; [done|]. split; [done|].
  rewrite delete_insert_ne by done. by rewrite delete_insert_id.
Qed.

(** What [open] with the flags of [>], [2>] and [&>] makes of a name it
    may go through with. *)
Lemma truncating_open (E : os) (fs : gmap string file) (name : string) :
  writable_or_creatable E fs name →
  ∃ fs', open_effect fs (Some name) (Z.lor O_TRUNC (Z.lor O_WRONLY O_CREAT)) S_IRWXU = Some fs'
         ∧ emptied name fs fs'
         ∧ (fs !! name = None → creat_ok E name = true).
Proof.
  unfold open_effect. intros [[Hnone Hdir] | (r & bytes & Hf)].
  - rewrite Hnone. eexists. split; [reflexivity|]. split; [|done].
    eexists. split; [reflexivity | done].
  - rewrite Hf. eexists. split; [reflexivity|]. split; [|congruence].
    eexists. split; [reflexivity | done].
Qed.

Lemma doStdoutRedirection_success (E : os) (name : string) (fs' : gmap string file) (s : proc) :
  open_effect (p_fs s) (Some name) (Z.lor O_TRUNC (Z.lor O_WRONLY O_CREAT)) S_IRWXU
    = Some fs' →
  (p_fs s !! name = None → creat_ok E name = true) →
  is_Some (p_fds s !! 1) →
  doStdoutRedirection E (Some name) s =
    Ret tt (set_fds (<[1 := FFile name (Z.lor O_TRUNC (Z.lor O_WRONLY O_CREAT))]> (p_fds s))
                    (set_fs fs' s)).
Proof.
  intros Ho Hdir H1.
  destruct (open_dup2_close E name _ _ 1 fs' s Ho Hdir H1)
    as (fd & Heq & Hfd & _ & _ & Hdel).
  unfold doStdoutRedirection. rewrite (bind_Ret _ _ _ _ _ Heq), Hfd.
  unfold sys_dup2, sys_close. unfold_M. cbn [p_fds set_fds set_fs].
  rewrite lookup_insert_eq. cbn [Z.eqb]. cbn [p_fds set_fds set_fs p_fs].
  unfold set_fds, set_fs. cbn. by rewrite Hdel.
Qed.








(** X10. Input redirection never writes: however [doStdinRedirection]
    ends, the file system is what it was.  It returns only for a name that
    [open] accepts read-only; for NULL, a missing file or a file that may
    not be read it prints the one message and ends the process with status
    1. *)
Theorem stdin_redirection_never_writes (E : os) (filename : option string) (s : proc) :
  match doStdinRedirection E filename s with
  | Ret _ s' =>
      p_fs s' = p_fs s ∧ p_out s' = p_out s
      ∧ ∃ name, filename = Some name ∧ openable (p_fs s) name
  | Exited c s' =>
      c = 1 ∧ p_fs s' = p_fs s ∧ p_fds s' = p_fds s
      ∧ p_out s' = (p_out s ++ [EvPerror "Error opening file"])%list
      ∧ (∀ name, filename = Some name → ¬ openable (p_fs s) name)
  | _ => False
  end.
Proof.
  unfold doStdinRedirection. unfold_M.
  destruct (sys_open_cases E filename O_RDONLY 0 s)
    as [(name & fs' & -> & Ho & Heq) | (Hno & Heq)]; rewrite Heq.
  - pose proof (fresh_fd_nonneg (p_fds s)).
    destruct (Z.eqb_spec (fresh_fd (p_fds s)) (-1)); [lia|].
    unfold sys_dup2, sys_close. cbn [p_fds set_fds set_fs].
    rewrite lookup_insert_eq. cbn.
    apply open_effect_rdonly in Ho as Ho'. destruct Ho' as [-> _].
    repeat split. exists name. split; [done|]. unfold openable. by rewrite Ho.
  - cbn. repeat split. intros name -> [fs' Hop].
    destruct Hno as [[=] | [Hno | (p & [= <-] & Hnone & _)]].
    + congruence.
    + unfold open_effect in Hop. by rewrite Hnone in Hop.
Qed.

Lemma fresh_fd_is_1 (fds : gmap Z fobj) :
  is_Some (fds !! 0) → fds !! 1 = None → fresh_fd fds = 1.
Proof.
  intros [o H0] H1. unfold fresh_fd.
  destruct (size fds) as [|n] eqn:Hsz.
  - apply map_size_empty_inv in Hsz. subst fds. by rewrite lookup_empty in H0.
  - cbn [lowest_free]. rewrite H0. change (0 + 1) with 1.
    destruct n; cbn [lowest_free]; [done | by rewrite H1].
Qed.

(** X11. The redirection closes the descriptor it got from [open] without
    looking at its number.  When standard output is closed and standard
    input is open, [open] hands out descriptor 1 itself; [dup2(1, 1)]
    changes nothing, and the [close] that follows closes descriptor 1: for
    a name [open] goes through with (a writable regular file, or a name
    that may be created) the file has been created or emptied, but standard
    output is closed as before and the descriptor table is unchanged. *)
Theorem redirection_onto_closed_stdout (E : os) (name : string) (s : proc) :
  writable_or_creatable E (p_fs s) name →
  is_Some (p_fds s !! 0) → p_fds s !! 1 = None →
  ∃ s',
    doStdoutRedirection E (Some name) s = Ret tt s'
    ∧ emptied name (p_fs s) (p_fs s')
    ∧ p_fds s' = p_fds s
    ∧ p_fds s' !! 1 = None.
Proof.
  intros Hfile H0 H1.
  destruct (truncating_open E _ _ Hfile) as (fs' & Ho & Hfs & Hdir).
  unfold doStdoutRedirection.
  rewrite (bind_Ret _ _ _ _ _ (sys_open_ok E name _ _ fs' s Ho Hdir)).
  rewrite (fresh_fd_is_1 _ H0 H1). cbn [Z.eqb].
  unfold sys_dup2, sys_close. unfold_M. cbn [p_fds set_fds set_fs].
  rewrite lookup_insert_eq. cbn [Z.eqb].
  eexists. split; [reflexivity|]. cbn.
  rewrite insert_insert_eq, delete_insert_id by done. done.
Qed.

Lemma redirection_onto_closed_stdout_witness :
  let E := Os (λ _, 0) (λ _, true) (λ _, true) (λ _, 0) (λ _, true) (λ _, true) in
  let s := set_fds (<[0 := FStd 0]> ∅) (boot ∅) in
  writable_or_creatable E (p_fs s) "out.txt"
  ∧ is_Some (p_fds s !! 0) ∧ p_fds s !! 1 = None
  ∧ ∃ s',
      doStdoutRedirection E (Some "out.txt") s = Ret tt s'
      ∧ emptied "out.txt" (p_fs s) (p_fs s')
      ∧ p_fds s' = p_fds s
      ∧ p_fds s' !! 1 = None.
Proof.
  cbv zeta.
  assert (H0 : writable_or_creatable (Os (λ _, 0) (λ _, true) (λ _, true) (λ _, 0)
                                         (λ _, true) (λ _, true))
                 (p_fs (set_fds (<[0 := FStd 0]> ∅) (boot ∅))) "out.txt")
    by (left; split; [apply lookup_empty | reflexivity]).
  assert (H1 : is_Some (p_fds (set_fds (<[0 := FStd 0]> ∅) (boot ∅)) !! 0))
    by (by eexists).
  assert (H2 : p_fds (set_fds (<[0 := FStd 0]> ∅) (boot ∅)) !! 1 = None)
    by reflexivity.
  split; [exact H0|]. split; [exact H1|]. split; [exact H2|].
  exact (redirection_onto_closed_stdout _ "out.txt" _ H0 H1 H2).
Defined.

(** ** More about the built-in rm *)

Lemma rm_one_fds (E : os) name s : p_fds (rm_one E name s) = p_fds s.
Proof.
  unfold rm_one, doRm_step. unfold_M.
  destruct (sys_open_rdonly_cases E name s)
    as [(q & fs' & _ & _ & Heq) | (_ & Heq)]; rewrite Heq; [|done].
  pose proof (fresh_fd_nonneg (p_fds s)).
  destruct (Z.ltb_spec (fresh_fd (p_fds s)) 0); [lia|].
  unfold sys_unlink. cbn [p_fs set_fds set_fs].
  destruct (fs' !! name) as [[? ? []]|]; try destruct (unlink_ok E name); cbn;
    by rewrite delete_insert_id by apply fresh_fd_free.
Qed.

Lemma rm_one_childPid (E : os) name s : p_childPid (rm_one E name s) = p_childPid s.
Proof.
  unfold rm_one, doRm_step. unfold_M.
  destruct (sys_open_rdonly_cases E name s)
    as [(q & fs' & _ & _ & Heq) | (_ & Heq)]; rewrite Heq; [|done].
  destruct (_ <? 0); [done|].
  unfold sys_unlink. cbn [p_fs set_fds set_fs].
  by destruct (fs' !! name) as [[? ? []]|]; try destruct (unlink_ok E name).
Qed.

(** A round for a regular file that may be read: the file goes when the
    directory lets it go; when [unlink] is refused the round changes
    nothing at all, and says nothing. *)
Lemma rm_one_regular (E : os) name s w bytes :
  p_fs s !! name = Some (File true w (Data bytes)) →
  rm_one E name s = if unlink_ok E name then set_fs (delete name (p_fs s)) s else s.
Proof.
  intros Hfile.
  assert (Ho : open_effect (p_fs s) (Some name) O_RDONLY 0 = Some (p_fs s)).
  { unfold open_effect. rewrite Hfile. reflexivity. }
  unfold rm_one, doRm_step. unfold_M.
  destruct (sys_open_rdonly_cases E name s)
    as [(q & fs' & _ & Ho' & Heq) | ([[=] | Hno] & _)]; [|congruence].
  rewrite Heq. assert (fs' = p_fs s) as -> by congruence.
  pose proof (fresh_fd_nonneg (p_fds s)).
  destruct (Z.ltb_spec (fresh_fd (p_fds s)) 0); [lia|].
  unfold sys_unlink, sys_close. cbn [p_fs p_fds set_fds set_fs]. rewrite Hfile.
  destruct (unlink_ok E name); cbn [p_fs p_fds set_fds set_fs];
    rewrite delete_insert_id by apply fresh_fd_free; [done|].
  by destruct s.
Qed.

(** What a round can do to the entry of [p]: nothing, unless [p] is the
    name of the round and [unlink] is let through. *)
Lemma rm_one_lookup (E : os) name s p :
  p_fs (rm_one E name s) !! p = p_fs s !! p
  ∨ (p = name ∧ unlink_ok E name = true ∧ p_fs (rm_one E name s) !! p = None).
Proof.
  unfold rm_one, doRm_step. unfold_M.
  destruct (sys_open_rdonly_cases E name s)
    as [(q & fs' & _ & Ho & Heq) | (_ & Heq)]; rewrite Heq; [|by left].
  apply open_effect_rdonly in Ho as [-> _].
  destruct (_ <? 0); [by left|].
  unfold sys_unlink. cbn [p_fs set_fds set_fs].
  destruct (p_fs s !! name) as [[? ? []]|] eqn:Hname; try (by left).
  destruct (unlink_ok E name) eqn:Hok; [|by left]. cbn.
  destruct (decide (p = name)) as [->|Hne].
  - right. by rewrite lookup_delete_eq.
  - left. by rewrite lookup_delete_ne.
Qed.

Lemma rm_all_fds (E : os) names s : p_fds (rm_all E names s) = p_fds s.
Proof.
  revert s. induction names as [|n ns IH]; intros s; [done|].
  cbn [rm_all]. by rewrite IH, rm_one_fds.
Qed.

Lemma rm_all_removes (E : os) names s p w bytes :
  p ∈ names → p_fs s !! p = Some (File true w (Data bytes)) →
  unlink_ok E p = true →
  p_fs (rm_all E names s) !! p = None.
Proof.
  revert s. induction names as [|n ns IH]; intros s Hin Hfile Hok.
  { by apply elem_of_nil in Hin. }
  cbn [rm_all].
  destruct (decide (p = n)) as [->|Hne].
  - destruct (rm_all_spec E ns (rm_one E n s)) as (Hfs & _).
    assert (Hgone : p_fs (rm_one E n s) !! n = None).
    { rewrite (rm_one_regular E n s w bytes Hfile), Hok.
      apply lookup_delete_eq. }
    destruct (Hfs n) as [-> | (? & _)]; done.
  - apply elem_of_cons in Hin as [?|Hin]; [done|].
    apply IH; [done| |done].
    destruct (rm_one_lookup E n s p) as [-> | (? & _)]; done.
Qed.

Lemma rm_all_keeps_refused (E : os) names s p :
  unlink_ok E p = false → p_fs (rm_all E names s) !! p = p_fs s !! p.
Proof.
  intros Hno. revert s. induction names as [|n ns IH]; intros s; [done|].
  cbn [rm_all]. rewrite IH.
  destruct (rm_one_lookup E n s p) as [-> | (-> & Hok & _)]; [done | congruence].
Qed.

Lemma rm_all_refused (E : os) names s :
  (∀ p, p ∈ names →
        unlink_ok E p = false
        ∧ ∃ w bytes, p_fs s !! p = Some (File true w (Data bytes))) →
  rm_all E names s = s.
Proof.
  induction names as [|n ns IH]; intros Hall; [done|].
  cbn [rm_all].
  destruct (Hall n ltac:(by left)) as (Hno & w & bytes & Hfile).
  rewrite (rm_one_regular E n s w bytes Hfile), Hno.
  apply IH. intros p Hp. apply Hall. by right.
Qed.

(** X12. The built-in rm, the other way round from what it reports.  An
    argument that names a regular file which may be read is opened; the
    result of the [unlink] that follows is not looked at.  So when [doRm]
    returns, such a file is gone where the directory let it go, and it is
    still there, without a word, where [unlink] was refused: when that
    holds for every argument the process is exactly as it was.  In every
    case [doRm] leaves no descriptor behind: the descriptor table is what
    it was, also after the rounds that failed. *)
Theorem doRm_unlinks_unchecked (E : os) (args : argmem) (names : list string)
    (s : proc) :
  holds_vector args ("rm" :: names) →
  ∃ s',
    doRm E args s = Ret tt s'
    ∧ (∀ p w bytes, p ∈ names → p_fs s !! p = Some (File true w (Data bytes)) →
                    unlink_ok E p = true → p_fs s' !! p = None)
    ∧ (∀ p, unlink_ok E p = false → p_fs s' !! p = p_fs s !! p)
    ∧ (names ≠ [] →
       (∀ p, p ∈ names →
             unlink_ok E p = false
             ∧ ∃ w bytes, p_fs s !! p = Some (File true w (Data bytes))) →
       s' = s)
    ∧ p_fds s' = p_fds s
    ∧ p_childPid s' = p_childPid s.
Proof.
  intros Hv. pose proof Hv as [Hcells Hnull]. unfold doRm, arg_at.
  unfold mbind at 1, M_bind, bind.
  destruct names as [|n ns].
  - cbn in Hnull. rewrite Hnull. unfold_M. eexists. split; [done|].
    cbn. split; [|done]. intros p w bytes Hp. by apply elem_of_nil in Hp.
  - rewrite (Hcells 1%nat n eq_refl).
    rewrite (doRm_loop_eq E args ("rm" :: n :: ns) (size args) 1 s Hv);
      [|cbn; lia|pose proof (holds_vector_size _ _ Hv); lia].
    cbn [drop skipn]. eexists. split; [done|].
    split; [|split; [|split; [|split]]].
    + intros p w bytes Hin Hfile Hok. by eapply rm_all_removes.
    + intros p Hno. by apply rm_all_keeps_refused.
    + intros _ Hall. by apply rm_all_refused.
    + apply rm_all_fds.
    + clear. revert s. induction (n :: ns) as [|m ms IH]; intros s; [done|].
      cbn [rm_all]. by rewrite IH, rm_one_childPid.
Qed.

Lemma doRm_unlinks_unchecked_witness :
  let E := Os (λ _, 0) (λ _, true) (λ _, true) (λ _, 0) (λ _, true)
              (λ p, String.eqb p "a.txt") in
  let args : argmem := <[3%nat := None]> (<[2%nat := Some "ro/b.txt"]>
                         (<[1%nat := Some "a.txt"]> (<[0%nat := Some "rm"]> ∅))) in
  let s := boot (<["ro/b.txt" := File true true (Data "y")]>
                   (<["a.txt" := File true false (Data "x")]> ∅)) in
  holds_vector args ["rm"; "a.txt"; "ro/b.txt"]
  ∧ ∃ s',
      doRm E args s = Ret tt s'
      ∧ (∀ p w bytes, p ∈ ["a.txt"; "ro/b.txt"] →
                      p_fs s !! p = Some (File true w (Data bytes)) →
                      unlink_ok E p = true → p_fs s' !! p = None)
      ∧ (∀ p, unlink_ok E p = false → p_fs s' !! p = p_fs s !! p)
      ∧ (["a.txt"; "ro/b.txt"] ≠ [] →
         (∀ p, p ∈ ["a.txt"; "ro/b.txt"] →
               unlink_ok E p = false
               ∧ ∃ w bytes, p_fs s !! p = Some (File true w (Data bytes))) →
         s' = s)
      ∧ p_fds s' = p_fds s
      ∧ p_childPid s' = p_childPid s.
Proof.
  cbv zeta.
  assert (Hv : holds_vector (<[3%nat := None]> (<[2%nat := Some "ro/b.txt"]>
                               (<[1%nat := Some "a.txt"]> (<[0%nat := Some "rm"]> ∅))))
                            ["rm"; "a.txt"; "ro/b.txt"]).
  { split; [|reflexivity].
    intros [|[|[|[|i]]]] t Ht; vm_compute in Ht; try discriminate;
      injection Ht as <-; reflexivity. }
  split; [exact Hv|].
  exact (doRm_unlinks_unchecked _ _ ["a.txt"; "ro/b.txt"] _ Hv).
Defined.

(** ** The built-in ls *)

Lemma printed_nil s : printed [] s = s.
Proof. destruct s. unfold printed. cbn. by rewrite app_nil_r. Qed.

Lemma printed_app evs1 evs2 s : printed evs2 (printed evs1 s) = printed (evs1 ++ evs2) s.
Proof. unfold printed. cbn. by rewrite app_assoc. Qed.

Lemma emit_printed e s : emit e s = Ret tt (printed [e] s).
Proof. reflexivity. Qed.

Lemma print_entries_eq entries s :
  print_entries entries s =
    Ret tt (printed (map (λ d, EvPrintf (d +:+ nl)) (List.filter visible entries)) s).
Proof.
  revert s. induction entries as [|d rest IH]; intros s; cbn [print_entries].
  - cbn. by rewrite printed_nil.
  - cbn [List.filter]. unfold visible at 1.
    destruct (Ascii.eqb (char_at d 0) "."%char); cbn [negb].
    + rewrite (bind_Ret _ _ s tt s) by done. apply IH.
    + unfold printf. rewrite (bind_Ret _ _ _ _ _ (emit_printed _ s)), IH.
      cbn [map]. by rewrite printed_app.
Qed.

Lemma lsHelper_eq entries s :
  lsHelper (Some entries) s = Ret tt (printed (ls_listing entries) s).
Proof.
  unfold lsHelper, printf.
  rewrite (bind_Ret _ _ _ _ _ (emit_printed _ s)).
  rewrite (bind_Ret _ _ _ _ _ (print_entries_eq entries _)).
  rewrite emit_printed, !printed_app. unfold ls_listing.
  by rewrite <- ?app_assoc.
Qed.

(** X13. [lsHelper] on an open directory prints a newline, then the
    entries in the order [readdir] delivers them, each on its own line,
    leaving out exactly the entries whose name starts with a dot, then
    another newline; it changes nothing else. *)
Theorem lsHelper_prints_visible_entries (entries : list string) (s : proc) :
  ∃ s',
    lsHelper (Some entries) s = Ret tt s'
    ∧ p_out s' = (p_out s ++ [EvPrintf nl]
                  ++ map (λ d, EvPrintf (d +:+ nl))
                         (List.filter (λ d, negb (Ascii.eqb (char_at d 0) "."%char))
                                      entries)
                  ++ [EvPrintf nl])%list
    ∧ p_fs s' = p_fs s ∧ p_fds s' = p_fds s ∧ p_childPid s' = p_childPid s.
Proof.
  exists (printed (ls_listing entries) s). split; [apply lsHelper_eq|].
  repeat split.
Qed.

Lemma sys_opendir_eq dir s :
  sys_opendir dir s =
    Ret (match p_fs s !! dir with
         | Some (File true _ (Dir entries)) => Some entries
         | _ => None
         end) s.
Proof. unfold sys_opendir. by destruct (p_fs s !! dir) as [[[] ? []]|]. Qed.

Lemma arg_at_eq args i c s : args !! i = Some c → arg_at args i s = Ret c s.
Proof. unfold arg_at. by intros ->. Qed.

(** One round of the loop of [doLs], and the rounds that follow. *)
Lemma doLs_loop_eq args l fuel i s :
  holds_vector args l → (2 ≤ length l)%nat → (i ≤ length l)%nat →
  (length l - i < fuel)%nat →
  doLs_loop fuel args i s =
    Ret tt (printed (flat_map (ls_block (p_fs s) (bool_decide (3 ≤ length l)%nat))
                              (drop i l)) s).
Proof.
  intros Hv Hl. pose proof Hv as [Hcells Hnull]. revert i s.
  induction fuel as [|fuel IH]; intros i s Hi Hfuel; [lia|].
  cbn [doLs_loop].
  destruct (decide (i = length l)) as [->|Hne].
  { rewrite (bind_Ret _ _ _ _ _ (arg_at_eq _ _ _ s Hnull)), drop_all.
    cbn. by rewrite printed_nil. }
  destruct (lookup_lt_is_Some_2 l i ltac:(lia)) as [dir Hdir].
  rewrite (bind_Ret _ _ _ _ _ (arg_at_eq _ _ _ s (Hcells i dir Hdir))).
  rewrite (drop_S l dir i Hdir). cbn [flat_map].
  assert (Ha2 : args !! 2%nat = Some (if bool_decide (3 ≤ length l)%nat
                                      then l !! 2%nat else None)).
  { case_bool_decide as H3.
    - destruct (lookup_lt_is_Some_2 l 2 ltac:(lia)) as [t2 Ht2].
      by rewrite Ht2, (Hcells 2%nat t2 Ht2).
    - assert (length l = 2%nat) as <- by lia. done. }
  assert (Hrest : ∀ evs,
             doLs_loop fuel args (S i) (printed evs s) =
               Ret tt (printed (evs ++ flat_map (ls_block (p_fs s)
                                   (bool_decide (3 ≤ length l)%nat))
                                   (drop (S i) l)) s)).
  { intros evs. rewrite IH by lia. by rewrite printed_app. }
  rewrite (bind_Ret _ _ _ _ _ (sys_opendir_eq dir s)).
  unfold ls_block.
  destruct (p_fs s !! dir) as [[[] ? [bytes|entries]]|];
    try (unfold printf; rewrite (bind_Ret _ _ _ _ _ (emit_printed _ s));
         apply Hrest).
  assert (Hbody : (arg_at args 2
                   ≫= λ a2 : option string,
                        (if a2 is Some _ then printf (dir +:+ " --->") else mret ())
                        ≫= λ _ : (), lsHelper (Some entries)) s
                  = Ret tt (printed ((if bool_decide (3 ≤ length l)%nat
                                      then [EvPrintf (dir +:+ " --->")] else [])
                                     ++ ls_listing entries) s)).
  { rewrite (bind_Ret _ _ _ _ _ (arg_at_eq _ _ _ s Ha2)).
    case_bool_decide as H3.
    - destruct (lookup_lt_is_Some_2 l 2 ltac:(lia)) as [t2 ->].
      unfold printf. rewrite (bind_Ret _ _ _ _ _ (emit_printed _ s)).
      by rewrite lsHelper_eq, printed_app.
    - rewrite (bind_Ret _ _ s tt s) by done.
      by rewrite lsHelper_eq. }
  rewrite (bind_Ret _ _ _ _ _ Hbody). apply Hrest.
Qed.

Lemma doLs_names_eq args cmd names s :
  holds_vector args (cmd :: names) → names ≠ [] →
  doLs args s =
    Ret tt (printed (flat_map (ls_block (p_fs s) (bool_decide (2 ≤ length names)%nat))
                              names) s).
Proof.
  intros Hv Hne. pose proof Hv as [Hcells _].
  destruct names as [|d names]; [done|].
  unfold doLs.
  rewrite (bind_Ret _ _ _ _ _ (arg_at_eq _ _ _ s (Hcells 1%nat d eq_refl))).
  pose proof (holds_vector_size _ _ Hv) as Hsize.
  rewrite (doLs_loop_eq args (cmd :: d :: names) (size args) 1 s Hv)
    by (cbn [length] in *; lia).
  cbn [drop length].
  by rewrite (bool_decide_ext (3 ≤ S (S (length names)))%nat
                              (2 ≤ S (length names))%nat) by lia.
Qed.

(** X14. [doLs] with directory names handles them from left to right and
    returns: for a name that [opendir] accepts it prints the listing
    (hidden entries left out), preceded by the header [name --->] exactly
    when at least two names were given; for a name that [opendir] refuses
    it prints the error message and goes on with the next name.  Nothing
    but the output changes. *)
Theorem doLs_lists_each_argument (args : argmem) (cmd : string)
    (names : list string) (s : proc) :
  holds_vector args (cmd :: names) → names ≠ [] →
  ∃ s',
    doLs args s = Ret tt s'
    ∧ p_out s' = (p_out s
                  ++ flat_map (ls_block (p_fs s) (bool_decide (2 ≤ length names)%nat))
                              names)%list
    ∧ p_fs s' = p_fs s ∧ p_fds s' = p_fds s ∧ p_childPid s' = p_childPid s.
Proof.
  intros Hv Hne. eexists. split; [exact (doLs_names_eq _ _ _ s Hv Hne)|].
  repeat split.
Qed.

Lemma doLs_lists_each_argument_witness :
  let args : argmem := <[3%nat := None]> (<[2%nat := Some "nowhere"]>
                         (<[1%nat := Some "src"]> (<[0%nat := Some "ls"]> ∅))) in
  let s := boot (<["src" := File true true (Dir ["."; ".."; "shell.c"; ".git"])]> ∅) in
  (holds_vector args ["ls"; "src"; "nowhere"] ∧ ["src"; "nowhere"] ≠ [])
  ∧ ∃ s',
      doLs args s = Ret tt s'
      ∧ p_out s' = (p_out s
                    ++ flat_map (ls_block (p_fs s)
                                   (bool_decide (2 ≤ length ["src"; "nowhere"])%nat))
                                ["src"; "nowhere"])%list
      ∧ p_fs s' = p_fs s ∧ p_fds s' = p_fds s ∧ p_childPid s' = p_childPid s.
Proof.
  cbv zeta.
  assert (Hv : holds_vector (<[3%nat := None]> (<[2%nat := Some "nowhere"]>
                               (<[1%nat := Some "src"]> (<[0%nat := Some "ls"]> ∅))))
                            ["ls"; "src"; "nowhere"]).
  { split; [|reflexivity].
    intros [|[|[|[|i]]]] t Ht; vm_compute in Ht; try discriminate;
      injection Ht as <-; reflexivity. }
  assert (Hne : ["src"; "nowhere"] ≠ []) by discriminate.
  split; [exact (conj Hv Hne)|].
  exact (doLs_lists_each_argument _ "ls" ["src"; "nowhere"] _ Hv Hne).
Defined.

(** X15. The default branch of [doLs] does not look at what [opendir]
    returned: when the current directory cannot be opened, [ls] without a
    name hands the null stream to [readdir] after [lsHelper] has printed
    its first newline, whereas [ls ./], on the same file system, goes
    through the checked branch, prints the error message and returns. *)
Theorem doLs_default_directory_unchecked (args args' : argmem) (cmd : string)
    (s : proc) :
  holds_vector args [cmd] → holds_vector args' [cmd; "./"] →
  sys_opendir "./" s = Ret None s →
  doLs args s = Fault NullDeref (printed [EvPrintf nl] s)
  ∧ doLs args' s = Ret tt (printed [EvPrintf (ls_error "./")] s).
Proof.
  intros Hv Hv' Hdir. split.
  - destruct Hv as [_ Hnull]. unfold doLs.
    rewrite (bind_Ret _ _ _ _ _ (arg_at_eq _ _ _ s Hnull)).
    rewrite (bind_Ret _ _ _ _ _ Hdir).
    unfold lsHelper, printf.
    by rewrite (bind_Ret _ _ _ _ _ (emit_printed _ s)).
  - rewrite (doLs_names_eq _ _ _ s Hv') by done.
    cbn [flat_map]. unfold ls_block.
    rewrite sys_opendir_eq in Hdir.
    destruct (p_fs s !! "./") as [[[] ? [bytes|entries]]|]; try done.
Qed.

Lemma doLs_default_directory_unchecked_witness :
  let args : argmem := <[1%nat := None]> (<[0%nat := Some "ls"]> ∅) in
  let args' : argmem := <[2%nat := None]> (<[1%nat := Some "./"]>
                          (<[0%nat := Some "ls"]> ∅)) in
  let s := boot ∅ in
  (holds_vector args ["ls"] ∧ holds_vector args' ["ls"; "./"]
   ∧ sys_opendir "./" s = Ret None s)
  ∧ doLs args s = Fault NullDeref (printed [EvPrintf nl] s)
  ∧ doLs args' s = Ret tt (printed [EvPrintf (ls_error "./")] s).
Proof.
  cbv zeta.
  assert (Hv : holds_vector (<[1%nat := None]> (<[0%nat := Some "ls"]> ∅)) ["ls"]).
  { split; [|reflexivity].
    intros [|[|i]] t Ht; vm_compute in Ht; try discriminate;
      injection Ht as <-; reflexivity. }
  assert (Hv' : holds_vector (<[2%nat := None]> (<[1%nat := Some "./"]>
                                (<[0%nat := Some "ls"]> ∅))) ["ls"; "./"]).
  { split; [|reflexivity].
    intros [|[|[|i]]] t Ht; vm_compute in Ht; try discriminate;
      injection Ht as <-; reflexivity. }
  assert (Hdir : sys_opendir "./" (boot ∅) = Ret None (boot ∅)) by reflexivity.
  split; [exact (conj Hv (conj Hv' Hdir))|].
  exact (doLs_default_directory_unchecked _ _ "ls" _ Hv Hv' Hdir).
Defined.

(** ** The classifier and the dispatch *)

(** X16. The six operators [continueProcessingLine] compares with are all
    accepted by [isSpecial], so [parseArgs] stops in front of each of them;
    but [isSpecial] accepts more than the dispatch knows: the tokens it
    accepts and the dispatch passes over are exactly the two-character
    tokens that end in > and start with a character other than >, 2
    and &. *)
Theorem isSpecial_wider_than_dispatch (t : string) :
  (t ∈ [">>"; "2>"; "&>"; ">"; "<"; "|"] → isSpecial t = true)
  ∧ (isSpecial t = true ∧ t ∉ [">>"; "2>"; "&>"; ">"; "<"; "|"]
     ↔ ∃ c : ascii, t = String c ">" ∧ c ≠ ">"%char ∧ c ≠ "2"%char ∧ c ≠ "&"%char).
Proof.
  split; [|split].
  - intros Hin. repeat (apply elem_of_cons in Hin as [->|Hin]; [reflexivity|]).
    by apply elem_of_nil in Hin.
  - intros [Hsp Hnot]. apply isSpecial_operator_shape in Hsp.
    destruct Hsp as [(c & -> & Hc) | (c & ->)].
    + exfalso. apply Hnot.
      destruct Hc as [-> | [-> | ->]]; repeat constructor.
    + exists c. split; [done|].
      repeat split; intros ->; apply Hnot; repeat constructor.
  - intros (c & -> & H1 & H2 & H3). split.
    + apply isSpecial_operator_shape. right. by exists c.
    + intros Hin.
      repeat (apply elem_of_cons in Hin as [Heq|Hin];
              [first [discriminate Heq | injection Heq as ->; done]|]).
      by apply elem_of_nil in Hin.
Qed.

(** ** [parseArgs] from any cursor *)

(** X17. One pass of [parseArgs] from a cursor inside the line: it returns
    with the cursor on the end of the line or on the first token that
    [isSpecial] accepts; the cells 0..k-1 hold the k tokens passed over, in
    order, none of them special; cell k holds NULL; every cell behind the
    terminator keeps what it held before the call; nothing but the cursor
    and the array changes. *)
Theorem parseArgs_stops_at_operator (args0 : argmem) (line : list string)
    (s : proc) :
  (p_lineIndex s ≤ length line)%nat →
  ∃ (args : argmem) (s' : proc) (k : nat),
    parseArgs args0 line s = Ret args s'
    ∧ p_lineIndex s' = (p_lineIndex s + k)%nat
    ∧ (p_lineIndex s' ≤ length line)%nat
    ∧ (∀ t, line !! p_lineIndex s' = Some t → isSpecial t = true)
    ∧ (∀ j, (j < k)%nat →
            ∃ t, line !! (p_lineIndex s + j)%nat = Some t
                 ∧ isSpecial t = false ∧ args !! j = Some (Some t))
    ∧ args !! k = Some None
    ∧ (∀ j, (k < j)%nat → args !! j = args0 !! j)
    ∧ p_fs s' = p_fs s ∧ p_fds s' = p_fds s ∧ p_out s' = p_out s
    ∧ p_childPid s' = p_childPid s.
Proof.
  intros Hc. pose proof (parseArgs_eq args0 line s Hc) as Heq. cbv zeta in Heq.
  set (rest := drop (p_lineIndex s) line) in *.
  set (k := plain_prefix rest) in *.
  assert (Hk : (k ≤ length rest)%nat) by apply plain_prefix_le.
  assert (Hrest : length rest = (length line - p_lineIndex s)%nat)
    by (unfold rest; apply length_drop).
  assert (Hsplit : ∀ r, Forall (λ t, isSpecial t = false) (take (plain_prefix r) r)
                        ∧ ∀ t, r !! plain_prefix r = Some t → isSpecial t = true).
  { induction r as [|a r [IH1 IH2]]; cbn [plain_prefix].
    - split; [constructor|]. intros t Ht. done.
    - destruct (isSpecial a) eqn:Ha.
      + split; [constructor|]. intros t [= <-]. done.
      + split; [by constructor|]. exact IH2. }
  destruct (Hsplit rest) as [Hplain Hstop]. fold k in Hplain, Hstop.
  destruct (advance_frame k s) as (Hfs & Hfds & Hpid & Hout & _ & _).
  eexists _, _, k. split; [exact Heq|].
  rewrite advance_lineIndex.
  split; [done|]. split; [lia|]. split.
  { intros t Ht. apply Hstop. unfold rest. by rewrite lookup_drop. }
  split.
  { intros j Hj.
    destruct (lookup_lt_is_Some_2 rest j ltac:(lia)) as [t Ht].
    exists t. split; [unfold rest in Ht; by rewrite lookup_drop in Ht|].
    assert (Htk : take k rest !! j = Some t) by (by rewrite lookup_take_lt).
    split.
    - by apply (proj1 (Forall_lookup _ _) Hplain j t).
    - rewrite lookup_insert_ne by lia.
      exact (store_run_lookup_in (take k rest) args0 0 j t Htk). }
  split; [apply lookup_insert_eq|].
  split; [|by repeat split].
  intros j Hj. rewrite lookup_insert_ne by lia.
  apply store_run_lookup_ge. rewrite length_take. lia.
Qed.

Lemma parseArgs_stops_at_operator_witness :
  let line := ["cat"; "a"; ">"; "b"] in
  let s := boot ∅ in
  (p_lineIndex s ≤ length line)%nat
  ∧ ∃ (args : argmem) (s' : proc) (k : nat),
      parseArgs ∅ line s = Ret args s'
      ∧ p_lineIndex s' = (p_lineIndex s + k)%nat
      ∧ (p_lineIndex s' ≤ length line)%nat
      ∧ (∀ t, line !! p_lineIndex s' = Some t → isSpecial t = true)
      ∧ (∀ j, (j < k)%nat →
              ∃ t, line !! (p_lineIndex s + j)%nat = Some t
                   ∧ isSpecial t = false ∧ args !! j = Some (Some t))
      ∧ args !! k = Some None
      ∧ (∀ j, (k < j)%nat → args !! j = (∅ : argmem) !! j)
      ∧ p_fs s' = p_fs s ∧ p_fds s' = p_fds s ∧ p_out s' = p_out s
      ∧ p_childPid s' = p_childPid s.
Proof.
  cbv zeta.
  assert (Hc : (p_lineIndex (boot ∅) ≤ length ["cat"; "a"; ">"; "b"])%nat)
    by (cbn; lia).
  split; [exact Hc|].
  exact (parseArgs_stops_at_operator ∅ ["cat"; "a"; ">"; "b"] (boot ∅) Hc).
Defined.

(** ** The loop of [main] *)

Lemma main_loop_exit E pre more post s s1 :
  main_loop E pre s = Ret None s1 →
  main_loop E (pre ++ ("exit" :: more) :: post) s = Ret (Some 0) s1.
Proof.
  revert s. induction pre as [|line pre IH]; intros s; cbn [main_loop app].
  - unfold promptAndRead, getpid_prompt.
    rewrite !(bind_Ret _ _ _ _ _ (emit_printed _ s)).
    cbn. by intros [= <-].
  - unfold promptAndRead, getpid_prompt.
    rewrite !(bind_Ret _ _ _ _ _ (emit_printed _ s)).
    assert (Hgo : ∀ s0,
               (main_body E line ≫= λ _, main_loop E pre) s0 = Ret None s1 →
               (main_body E line
                ≫= λ _, main_loop E (pre ++ ("exit" :: more) :: post)) s0
               = Ret (Some 0) s1).
    { intros s0. unfold mbind, M_bind, bind.
      destruct (main_body E line s0) as [[] s2| | | |]; try discriminate.
      apply IH. }
    destruct line as [|l0 l]; [apply Hgo|].
    destruct (String.eqb l0 "exit"); [discriminate|apply Hgo].
Qed.

(** X18. The loop of [main] ends at the first line whose first token is
    exit: when the shell has worked through the lines [pre] and is back at
    its prompt, a following line that starts with exit makes [main] return
    0 in the very state of that prompt; what else stands on that line, and
    every line after it, plays no part. *)
Theorem main_returns_at_exit (E : os) (pre : list (list string))
    (more : list string) (post : list (list string)) (s s1 : proc) :
  main E pre s = Ret None s1 →
  main E (pre ++ ("exit" :: more) :: post) s = Ret (Some 0) s1.
Proof. apply main_loop_exit. Qed.

Lemma main_returns_at_exit_witness :
  let E := Os (λ _, 7) (λ _, true) (λ _, true) (λ _, 0) (λ _, true) (λ _, true) in
  ∃ s1,
    main E [[]; ["rm"]] (boot ∅) = Ret None s1
    ∧ main E ([[]; ["rm"]] ++ ["exit"; "now"] :: [["rm"; "a.txt"]]) (boot ∅)
      = Ret (Some 0) s1.
Proof.
  cbv zeta. eexists.
  assert (H : main (Os (λ _, 7) (λ _, true) (λ _, true) (λ _, 0)
                       (λ _, true) (λ _, true)) [[]; ["rm"]] (boot ∅)
              = Ret None _) by (vm_compute; reflexivity).
  split; [exact H|].
  exact (main_returns_at_exit _ [[]; ["rm"]] ["now"] [["rm"; "a.txt"]] _ _ H).
Defined.

Lemma rm_all_childPid (E : os) names s : p_childPid (rm_all E names s) = p_childPid s.
Proof.
  revert s. induction names as [|n ns IH]; intros s; [done|].
  cbn [rm_all]. by rewrite IH, rm_one_childPid.
Qed.

(** What a round of [main] can do to [childPid] and to the names of the
    file system, however it ends. *)
Lemma main_body_frame E line s :
  match main_body E line s with
  | Ret _ s' | Exited _ s' | Replaced _ _ s' | Fault _ s' =>
      (p_childPid s' = p_childPid s ∨ 0 ≤ p_childPid s')
      ∧ (∀ p, is_Some (p_fs s !! p) → p_fs s' !! p = None →
              ∃ rest, line = "rm" :: rest ∧ p ∈ rest)
  | OutOfFuel => True
  end.
Proof.
  assert (Hgone : ∀ (fs fs' : gmap string file) p,
             dom fs ⊆ dom fs' → is_Some (fs !! p) → fs' !! p = None → False).
  { intros fs fs' p Hsub Hin Hout. apply elem_of_dom in Hin. apply Hsub in Hin.
    apply elem_of_dom in Hin. rewrite Hout in Hin. by destruct Hin. }
  rewrite main_body_cases. destruct line as [|a0 rest].
  { split; [by left|]. intros p [f Hf] Hn. cbn in Hn. congruence. }
  destruct (isSpecial a0) eqn:Hsp.
  { split; [by left|]. intros p [f Hf] Hn. cbn in Hn. congruence. }
  cbv zeta.
  set (l := take (plain_prefix (a0 :: rest)) (a0 :: rest)).
  set (s1 := advance (length l) (line_start s)).
  destruct (advance_frame (length l) (line_start s))
    as (Hfs & _ & Hpid & _ & _ & _).
  fold s1 in Hfs, Hpid. cbn [line_start p_fs p_childPid] in Hfs, Hpid.
  destruct (String.eqb a0 "ls") eqn:Hls.
  { pose proof (keeps_doLs (vector_of l) s1) as Hk.
    destruct (doLs (vector_of l) s1) as [? s'|? s'|? ? s'|? s'|]; [| | | |done];
      destruct Hk as (Hc & Hdom & _); rewrite Hfs in Hdom;
      (split; [left; congruence|]); intros p Hin Hout;
      destruct (Hgone _ _ p Hdom Hin Hout). }
  destruct (String.eqb a0 "rm") eqn:Hrm.
  { apply String.eqb_eq in Hrm as ->.
    assert (Hl : l = "rm" :: take (plain_prefix rest) rest).
    { unfold l. cbn [plain_prefix]. by rewrite Hsp. }
    pose proof (vector_of_holds l) as Hv. pose proof Hv as [Hcells Hnull].
    unfold doRm.
    destruct (take (plain_prefix rest) rest) as [|n ns] eqn:Hnames.
    - assert (Hlen : length l = 1%nat) by (by rewrite Hl).
      rewrite Hlen in Hnull.
      rewrite (bind_Ret _ _ _ _ _ (arg_at_eq _ _ _ s1 Hnull)).
      unfold printf. rewrite emit_printed. cbn [printed p_fs p_childPid].
      rewrite Hfs, Hpid. split; [by left|].
      intros p [f Hf] Hn. congruence.
    - assert (H1 : vector_of l !! 1%nat = Some (Some n))
        by (apply Hcells; by rewrite Hl).
      rewrite (bind_Ret _ _ _ _ _ (arg_at_eq _ _ _ s1 H1)).
      pose proof (holds_vector_size _ _ Hv) as Hsize.
      rewrite (doRm_loop_eq E (vector_of l) l (size (vector_of l)) 1 s1 Hv)
        by (rewrite ?Hl in *; cbn [length] in *; lia).
      rewrite rm_all_childPid, Hpid. split; [by left|].
      intros p [f Hf] Hn.
      destruct (rm_all_spec E (drop 1 l) s1) as (Hlook & _).
      destruct (Hlook p) as [Hsame | (_ & Hin & _)].
      + rewrite Hsame, Hfs in Hn. congruence.
      + exists rest. split; [done|].
        rewrite Hl in Hin. cbn [drop] in Hin. rewrite <- Hnames in Hin.
        rewrite <- (take_drop (plain_prefix rest) rest).
        apply elem_of_app. by left. }
  set (pid := fork_ret E (p_nfork s)).
  destruct (pid <? 0) eqn:Hneg.
  { cbn [fork_failed p_fs p_childPid]. rewrite Hfs, Hpid. split; [by left|].
    intros p [f Hf] Hn. congruence. }
  destruct (pid =? 0) eqn:Hz.
  - apply Z.eqb_eq in Hz.
    pose proof (keeps_continueProcessingLine E (S (length (a0 :: rest)))
                  (a0 :: rest) (vector_of l) (after_fork pid s1)) as Hk.
    destruct (continueProcessingLine _ _ _ _ _) as [? s'|? s'|? ? s'|? s'|];
      [| | | |done];
      destruct Hk as (Hc & Hdom & _);
      cbn [after_fork p_fs p_childPid] in Hc, Hdom; rewrite Hfs in Hdom;
      (split; [right; lia|]); intros p Hin Hout;
      destruct (Hgone _ _ p Hdom Hin Hout).
  - apply Z.ltb_ge in Hneg. cbn [after_wait p_fs p_childPid]. rewrite Hfs.
    split; [by right|]. intros p [f Hf] Hn. congruence.
Qed.

(** X19. [childPid] is never negative: through any number of lines, and
    however the run of [main] ends (back at the prompt, at exit, in a
    replaced image, in an exit of the process or in a fault), the variable
    holds 0 or the id of a forked child.  A failed [fork] ends the process
    inside [forkWrapper], before the assignment.  So the branch of
    [signalHandler] for a negative [childPid] is never taken from a state
    [main] reaches. *)
Theorem childPid_never_negative (E : os) (input : list (list string))
    (s : proc) :
  0 ≤ p_childPid s →
  match main E input s with
  | Ret _ s' | Exited _ s' | Replaced _ _ s' | Fault _ s' =>
      0 ≤ p_childPid s'
      ∧ ∀ signo, signalHandler signo s' ≠ perror "fork" s'
  | OutOfFuel => False
  end.
Proof.
  assert (Hhandler : ∀ signo s', 0 ≤ p_childPid s' →
                       signalHandler signo s' ≠ perror "fork" s').
  { intros signo s' Hs'. unfold signalHandler, perror, sys_kill, emit.
    destruct (0 <? p_childPid s') eqn:Hpos; [|].
    - intros [= Heq]. apply app_inv_head in Heq. discriminate.
    - destruct (p_childPid s' <? 0) eqn:Hneg; [apply Z.ltb_lt in Hneg; lia|].
      cbn. intros [= Heq]. apply (f_equal p_out) in Heq. cbn [p_out] in Heq.
      apply (f_equal (@length event)) in Heq. rewrite length_app in Heq.
      cbn in Heq. lia. }
  unfold main. revert s.
  induction input as [|line rest IH]; intros s Hs; cbn [main_loop].
  { cbn. split; [done|]. intros signo. by apply Hhandler. }
  unfold promptAndRead, getpid_prompt.
  rewrite (bind_Ret _ _ _ _ _ (emit_printed _ s)).
  assert (Hgo : match (main_body E line ≫= λ _, main_loop E rest)
                        (printed [EvPrompt] s) with
                | Ret _ s' | Exited _ s' | Replaced _ _ s' | Fault _ s' =>
                    0 ≤ p_childPid s'
                    ∧ ∀ signo, signalHandler signo s' ≠ perror "fork" s'
                | OutOfFuel => False
                end).
  { unfold mbind, M_bind, bind.
    pose proof (main_body_frame E line (printed [EvPrompt] s)) as Hf.
    pose proof (main_body_outcome E line (printed [EvPrompt] s)) as Hfuel.
    cbn [printed p_childPid] in Hf.
    destruct (main_body E line (printed [EvPrompt] s))
      as [[] s2|c s2|prog v s2|f s2|]; [| | | |destruct Hfuel];
      destruct Hf as [Hpid _];
      assert (Hs2 : 0 ≤ p_childPid s2) by (destruct Hpid; lia);
      [apply IH; exact Hs2| | |];
      (split; [exact Hs2|intros signo; by apply Hhandler]). }
  destruct line as [|l0 l]; [exact Hgo|].
  destruct (String.eqb l0 "exit"); [|exact Hgo].
  cbn. split; [done|]. intros signo. by apply Hhandler.
Qed.

Lemma childPid_never_negative_witness :
  let E := Os (λ _, 7) (λ _, true) (λ _, true) (λ _, 0) (λ _, true) (λ _, true) in
  0 ≤ p_childPid (boot ∅)
  ∧ match main E [["/bin/true"]; []; ["ls"; "src"]] (boot ∅) with
    | Ret _ s' | Exited _ s' | Replaced _ _ s' | Fault _ s' =>
        0 ≤ p_childPid s'
        ∧ ∀ signo, signalHandler signo s' ≠ perror "fork" s'
    | OutOfFuel => False
    end.
Proof.
  cbv zeta.
  assert (H : 0 ≤ p_childPid (boot ∅)) by (unfold boot; cbn [p_childPid]; lia).
  split; [exact H|].
  exact (childPid_never_negative (Os (λ _, 7) (λ _, true) (λ _, true) (λ _, 0)
                                     (λ _, true) (λ _, true))
           [["/bin/true"]; []; ["ls"; "src"]] (boot ∅) H).
Defined.

(** X20. The handling of a line takes a name off the file system only in
    [doRm]: however the round of [main] for a line ends, in the shell or in
    the process forked for the line, a name that was there before and is
    gone afterwards is an argument of a line whose first token is rm.  No
    redirection, no pipe and no listing removes a file.  The round always
    comes to an end. *)
Theorem only_rm_removes_names (E : os) (line : list string) (s : proc) :
  match main_body E line s with
  | Ret _ s' | Exited _ s' | Replaced _ _ s' | Fault _ s' =>
      ∀ p, is_Some (p_fs s !! p) → p_fs s' !! p = None →
           ∃ rest, line = "rm" :: rest ∧ p ∈ rest
  | OutOfFuel => False
  end.
Proof.
  pose proof (main_body_frame E line s) as Hf.
  pose proof (main_body_outcome E line s) as Hfuel.
  destruct (main_body E line s) as [[] s2|c s2|prog v s2|f s2|];
    [| | | |destruct Hfuel]; exact (proj2 Hf).
Qed.

(** ** The two ends of a pipe *)

(** The descriptors [pipe] hands out when 0 and 1 are open: both are free,
    above 1, and different. *)
Lemma pipe_descriptors (fds : gmap Z fobj) (o : fobj) :
  is_Some (fds !! 0) → is_Some (fds !! 1) →
  let r := fresh_fd fds in
  let w := fresh_fd (<[r := o]> fds) in
  fds !! r = None ∧ fds !! w = None ∧ 1 < r ∧ 1 < w ∧ r ≠ w.
Proof.
  intros [o0 H0] [o1 H1] r w.
  pose proof (fresh_fd_free fds) as Hr. fold r in Hr.
  pose proof (fresh_fd_free (<[r := o]> fds)) as Hw. fold w in Hw.
  pose proof (fresh_fd_nonneg fds) as Hr0. fold r in Hr0.
  pose proof (fresh_fd_nonneg (<[r := o]> fds)) as Hw0. fold w in Hw0.
  assert (r ≠ 0) by (intros Heq; rewrite Heq in Hr; congruence).
  assert (r ≠ 1) by (intros Heq; rewrite Heq in Hr; congruence).
  assert (Hrw : r ≠ w).
  { intros Heq. rewrite <- Heq in Hw. by rewrite lookup_insert_eq in Hw. }
  rewrite lookup_insert_ne in Hw by done.
  assert (w ≠ 0) by (intros Heq; rewrite Heq in Hw; congruence).
  assert (w ≠ 1) by (intros Heq; rewrite Heq in Hw; congruence).
  repeat split; try done; lia.
Qed.

(** X21. The process [doPipe] forks for the left-hand side, when [pipe]
    succeeded and descriptors 0 and 1 were open: standard output is the
    write end of the new pipe, standard input is what it was, and no
    descriptor of the process is the read end any more; the descriptor
    [pipefd[1]] itself is not closed and stays open beside descriptor 1.
    In that state the program of [line[0]] is started with the vector of
    the left-hand side; when it cannot be started, [execvp] returns, its
    result is not looked at, and [doPipe] returns to its caller with
    standard output still bound to the pipe. *)
Theorem doPipe_writer_side (E : os) (continue : argmem → M unit)
    (p1Args : argmem) (line : list string) (s : proc) (prog : string) :
  pipe_ok E (p_npipe s) = true → fork_ret E (p_nfork s) = 0 →
  line !! 0%nat = Some prog →
  is_Some (p_fds s !! 0) → is_Some (p_fds s !! 1) →
  (∀ fd, p_fds s !! fd ≠ Some (FPipeR (p_npipe s))) →
  ∃ s',
    doPipe E continue p1Args line s =
      (if exec_ok E prog then Replaced prog (argv_of p1Args) s' else Ret tt s')
    ∧ p_fds s' !! 1 = Some (FPipeW (p_npipe s))
    ∧ p_fds s' !! 0 = p_fds s !! 0
    ∧ (∀ fd, p_fds s' !! fd ≠ Some (FPipeR (p_npipe s)))
    ∧ (∃ w, 1 < w ∧ p_fds s' !! w = Some (FPipeW (p_npipe s)))
    ∧ p_fs s' = p_fs s ∧ p_out s' = p_out s ∧ same_cursor s s'.
Proof.
  intros Hpipe Hz H0 Hfd0 Hfd1 Hnew.
  set (n := p_npipe s) in *.
  set (r := fresh_fd (p_fds s)).
  set (w := fresh_fd (<[r := FPipeR n]> (p_fds s))).
  destruct (pipe_descriptors (p_fds s) (FPipeR n) Hfd0 Hfd1)
    as (Hr & Hw & Hr1 & Hw1 & Hrw).
  fold r in Hr, Hw, Hr1, Hw1, Hrw. fold w in Hw, Hw1, Hrw.
  exists (Proc (p_fs s)
               (delete r (<[1 := FPipeW n]>
                            (<[w := FPipeW n]> (<[r := FPipeR n]> (p_fds s)))))
               (p_childPid s) (p_lineIndex s) (p_cursors s) (p_out s)
               (S (p_nfork s)) (S n)).
  split.
  { unfold doPipe, pipeWrapper, sys_pipe, forkWrapper, sys_fork, sys_dup2,
      sys_close, read_line, sys_execvp, set_fds.
    unfold_M. fold n. rewrite Hpipe.
    cbn [p_fs p_fds p_childPid p_lineIndex p_cursors p_out p_nfork p_npipe
         Z.ltb Z.compare].
    fold r. fold w. rewrite Hz. cbn [Z.ltb Z.eqb Z.compare].
    cbn [p_fs p_fds p_childPid p_lineIndex p_cursors p_out p_nfork p_npipe].
    rewrite lookup_insert_eq.
    cbn [p_fs p_fds p_childPid p_lineIndex p_cursors p_out p_nfork p_npipe].
    unfold line_at. rewrite H0. cbn [cell_ptr].
    by destruct (exec_ok E prog). }
  cbn [p_fs p_fds p_out].
  split.
  { rewrite lookup_delete_ne by lia. apply lookup_insert_eq. }
  split.
  { rewrite lookup_delete_ne by lia. by rewrite !lookup_insert_ne by lia. }
  split.
  { intros fd. destruct (decide (fd = r)) as [->|Hfr].
    { by rewrite lookup_delete_eq. }
    rewrite lookup_delete_ne by done.
    destruct (decide (fd = 1)) as [->|Hf1]; [by rewrite lookup_insert_eq|].
    rewrite lookup_insert_ne by done.
    destruct (decide (fd = w)) as [->|Hfw]; [by rewrite lookup_insert_eq|].
    rewrite !lookup_insert_ne by done. apply Hnew. }
  split.
  { exists w. split; [done|].
    rewrite lookup_delete_ne by done. rewrite lookup_insert_ne by lia.
    apply lookup_insert_eq. }
  by repeat split.
Qed.

Lemma doPipe_writer_side_witness :
  let E := Os (λ _, 0) (λ _, true) (λ p, String.eqb p "/bin/ls") (λ _, 0) (λ _, true) (λ _, true) in
  let line := ["/bin/ls"; "|"; "/bin/wc"] in
  let p1Args : argmem := <[1%nat := None]> (<[0%nat := Some "/bin/ls"]> ∅) in
  let s := advance 2 (boot ∅) in
  (pipe_ok E (p_npipe s) = true ∧ fork_ret E (p_nfork s) = 0
   ∧ line !! 0%nat = Some "/bin/ls"
   ∧ is_Some (p_fds s !! 0) ∧ is_Some (p_fds s !! 1)
   ∧ (∀ fd, p_fds s !! fd ≠ Some (FPipeR (p_npipe s))))
  ∧ ∃ s',
      doPipe E (λ _, mret tt) p1Args line s =
        (if exec_ok E "/bin/ls" then Replaced "/bin/ls" (argv_of p1Args) s'
         else Ret tt s')
      ∧ p_fds s' !! 1 = Some (FPipeW (p_npipe s))
      ∧ p_fds s' !! 0 = p_fds s !! 0
      ∧ (∀ fd, p_fds s' !! fd ≠ Some (FPipeR (p_npipe s)))
      ∧ (∃ w, 1 < w ∧ p_fds s' !! w = Some (FPipeW (p_npipe s)))
      ∧ p_fs s' = p_fs s ∧ p_out s' = p_out s ∧ same_cursor s s'.
Proof.
  cbv zeta.
  assert (H0 : is_Some (p_fds (advance 2 (boot ∅)) !! 0)) by (eexists; reflexivity).
  assert (H1 : is_Some (p_fds (advance 2 (boot ∅)) !! 1)) by (eexists; reflexivity).
  assert (Hnew : ∀ fd, p_fds (advance 2 (boot ∅)) !! fd
                       ≠ Some (FPipeR (p_npipe (advance 2 (boot ∅))))).
  { intros fd. change (p_fds (advance 2 (boot ∅))) with (p_fds (boot ∅)).
    unfold boot. cbn [p_fds].
    destruct (decide (fd = 0)) as [->|?]; [by rewrite lookup_insert_eq|].
    rewrite lookup_insert_ne by done.
    destruct (decide (fd = 1)) as [->|?]; [by rewrite lookup_insert_eq|].
    rewrite lookup_insert_ne by done.
    destruct (decide (fd = 2)) as [->|?]; [by rewrite lookup_insert_eq|].
    rewrite lookup_insert_ne by done. by rewrite lookup_empty. }
  split; [exact (conj eq_refl (conj eq_refl (conj eq_refl (conj H0 (conj H1 Hnew)))))|].
  exact (doPipe_writer_side
           (Os (λ _, 0) (λ _, true) (λ p, String.eqb p "/bin/ls") (λ _, 0) (λ _, true) (λ _, true))
           (λ _, mret tt) _ ["/bin/ls"; "|"; "/bin/wc"] (advance 2 (boot ∅))
           "/bin/ls" eq_refl eq_refl eq_refl H0 H1 Hnew).
Defined.

(** X22. The process that goes on behind a pipe operator, when [pipe]
    succeeded, descriptors 0 and 1 were open and the token at index 2 names
    a program that can be started: at the moment the image is replaced,
    standard input is the read end of the new pipe, standard output is what
    it was, and no descriptor of the process is the write end, so the
    reader sees the end of the stream when the writer is done; the
    descriptor [pipefd[0]] itself is not closed and stays open beside
    descriptor 0. *)
Theorem doPipe_reader_side (E : os) (continue : argmem → M unit)
    (p1Args : argmem) (line : list string) (s : proc) (prog : string) :
  pipe_ok E (p_npipe s) = true → 0 < fork_ret E (p_nfork s) →
  line !! 2%nat = Some prog → exec_ok E prog = true →
  is_Some (p_fds s !! 0) → is_Some (p_fds s !! 1) →
  (∀ fd, p_fds s !! fd ≠ Some (FPipeW (p_npipe s))) →
  ∃ s',
    doPipe E continue p1Args line s = Replaced prog (argv_of p1Args) s'
    ∧ p_fds s' !! 0 = Some (FPipeR (p_npipe s))
    ∧ p_fds s' !! 1 = p_fds s !! 1
    ∧ (∀ fd, p_fds s' !! fd ≠ Some (FPipeW (p_npipe s)))
    ∧ (∃ r, 1 < r ∧ p_fds s' !! r = Some (FPipeR (p_npipe s)))
    ∧ p_fs s' = p_fs s ∧ p_out s' = p_out s ∧ same_cursor s s'.
Proof.
  intros Hpipe Hpos H2 Hok Hfd0 Hfd1 Hnew.
  set (n := p_npipe s) in *.
  set (r := fresh_fd (p_fds s)).
  set (w := fresh_fd (<[r := FPipeR n]> (p_fds s))).
  destruct (pipe_descriptors (p_fds s) (FPipeR n) Hfd0 Hfd1)
    as (Hr & Hw & Hr1 & Hw1 & Hrw).
  fold r in Hr, Hw, Hr1, Hw1, Hrw. fold w in Hw, Hw1, Hrw.
  exists (Proc (p_fs s)
               (delete w (<[0 := FPipeR n]>
                            (<[w := FPipeW n]> (<[r := FPipeR n]> (p_fds s)))))
               (p_childPid s) (p_lineIndex s) (p_cursors s) (p_out s)
               (S (p_nfork s)) (S n)).
  split.
  { unfold doPipe, pipeWrapper, sys_pipe, forkWrapper, sys_fork, sys_dup2,
      sys_close, read_line, sys_execvp, set_fds.
    unfold_M. fold n. rewrite Hpipe.
    cbn [p_fs p_fds p_childPid p_lineIndex p_cursors p_out p_nfork p_npipe
         Z.ltb Z.compare].
    fold r. fold w.
    destruct (Z.ltb_spec (fork_ret E (p_nfork s)) 0) as [|_]; [lia|].
    destruct (Z.eqb_spec (fork_ret E (p_nfork s)) 0) as [|_]; [lia|].
    cbn [p_fs p_fds p_childPid p_lineIndex p_cursors p_out p_nfork p_npipe].
    rewrite lookup_insert_ne by done. rewrite lookup_insert_eq.
    cbn [p_fs p_fds p_childPid p_lineIndex p_cursors p_out p_nfork p_npipe].
    unfold line_at. rewrite H2. cbn [cell_ptr].
    by rewrite Hok. }
  cbn [p_fs p_fds p_out].
  split.
  { rewrite lookup_delete_ne by lia. apply lookup_insert_eq. }
  split.
  { rewrite lookup_delete_ne by lia. by rewrite !lookup_insert_ne by lia. }
  split.
  { intros fd. destruct (decide (fd = w)) as [->|Hfw].
    { by rewrite lookup_delete_eq. }
    rewrite lookup_delete_ne by done.
    destruct (decide (fd = 0)) as [->|Hf0]; [by rewrite lookup_insert_eq|].
    rewrite lookup_insert_ne by done.
    rewrite lookup_insert_ne by done.
    destruct (decide (fd = r)) as [->|Hfr]; [by rewrite lookup_insert_eq|].
    rewrite lookup_insert_ne by done. apply Hnew. }
  split.
  { exists r. split; [done|].
    rewrite lookup_delete_ne by done. rewrite lookup_insert_ne by lia.
    rewrite lookup_insert_ne by done. apply lookup_insert_eq. }
  by repeat split.
Qed.

Lemma doPipe_reader_side_witness :
  let E := Os (λ _, 77) (λ _, true) (λ p, String.eqb p "/bin/wc") (λ _, 0)
              (λ _, true) (λ _, true) in
  let line := ["/bin/ls"; "|"; "/bin/wc"] in
  let p1Args : argmem := <[1%nat := None]> (<[0%nat := Some "/bin/ls"]> ∅) in
  let s := advance 2 (boot ∅) in
  (pipe_ok E (p_npipe s) = true ∧ 0 < fork_ret E (p_nfork s)
   ∧ line !! 2%nat = Some "/bin/wc" ∧ exec_ok E "/bin/wc" = true
   ∧ is_Some (p_fds s !! 0) ∧ is_Some (p_fds s !! 1)
   ∧ (∀ fd, p_fds s !! fd ≠ Some (FPipeW (p_npipe s))))
  ∧ ∃ s',
      doPipe E (λ _, mret tt) p1Args line s
        = Replaced "/bin/wc" (argv_of p1Args) s'
      ∧ p_fds s' !! 0 = Some (FPipeR (p_npipe s))
      ∧ p_fds s' !! 1 = p_fds s !! 1
      ∧ (∀ fd, p_fds s' !! fd ≠ Some (FPipeW (p_npipe s)))
      ∧ (∃ r, 1 < r ∧ p_fds s' !! r = Some (FPipeR (p_npipe s)))
      ∧ p_fs s' = p_fs s ∧ p_out s' = p_out s ∧ same_cursor s s'.
Proof.
  cbv zeta.
  assert (H0 : is_Some (p_fds (advance 2 (boot ∅)) !! 0)) by (eexists; reflexivity).
  assert (H1 : is_Some (p_fds (advance 2 (boot ∅)) !! 1)) by (eexists; reflexivity).
  assert (Hnew : ∀ fd, p_fds (advance 2 (boot ∅)) !! fd
                       ≠ Some (FPipeW (p_npipe (advance 2 (boot ∅))))).
  { intros fd. change (p_fds (advance 2 (boot ∅))) with (p_fds (boot ∅)).
    unfold boot. cbn [p_fds].
    destruct (decide (fd = 0)) as [->|?]; [by rewrite lookup_insert_eq|].
    rewrite lookup_insert_ne by done.
    destruct (decide (fd = 1)) as [->|?]; [by rewrite lookup_insert_eq|].
    rewrite lookup_insert_ne by done.
    destruct (decide (fd = 2)) as [->|?]; [by rewrite lookup_insert_eq|].
    rewrite lookup_insert_ne by done. by rewrite lookup_empty. }
  assert (Hpos : 0 < 77) by lia.
  split; [exact (conj eq_refl (conj Hpos (conj eq_refl (conj eq_refl
                   (conj H0 (conj H1 Hnew))))))|].
  exact (doPipe_reader_side
           (Os (λ _, 77) (λ _, true) (λ p, String.eqb p "/bin/wc") (λ _, 0) (λ _, true) (λ _, true))
           (λ _, mret tt) _ ["/bin/ls"; "|"; "/bin/wc"] (advance 2 (boot ∅))
           "/bin/wc" eq_refl Hpos eq_refl eq_refl H0 H1 Hnew).
Defined.

(** ** Redirections, alone and on a line *)

Lemma doStderrRedirection_success (E : os) (name : string) (fs' : gmap string file) (s : proc) :
  open_effect (p_fs s) (Some name) (Z.lor O_TRUNC (Z.lor O_WRONLY O_CREAT)) S_IRWXU
    = Some fs' →
  (p_fs s !! name = None → creat_ok E name = true) →
  is_Some (p_fds s !! 2) →
  doStderrRedirection E (Some name) s =
    Ret tt (set_fds (<[2 := FFile name (Z.lor O_TRUNC (Z.lor O_WRONLY O_CREAT))]> (p_fds s))
                    (set_fs fs' s)).
Proof.
  intros Ho Hdir H2.
  destruct (open_dup2_close E name _ _ 2 fs' s Ho Hdir H2)
    as (fd & Heq & Hfd & _ & _ & Hdel).
  unfold doStderrRedirection. rewrite (bind_Ret _ _ _ _ _ Heq), Hfd.
  unfold sys_dup2, sys_close. unfold_M. cbn [p_fds set_fds set_fs].
  rewrite lookup_insert_eq. cbn [Z.eqb]. cbn [p_fds set_fds set_fs p_fs].
  unfold set_fds, set_fs. cbn. by rewrite Hdel.
Qed.

(** X23. Redirection with [2>] onto an open standard error, for a name
    that is a writable regular file, or that is not there while the
    directory lets a file be created: the call returns, the file exists
    afterwards and is empty, standard error names the file, standard input
    and standard output are the streams they were, and no descriptor is
    left over. *)
Theorem stderr_redirection_leaves_stdout (E : os) (name : string) (s : proc) :
  writable_or_creatable E (p_fs s) name →
  is_Some (p_fds s !! 2) →
  ∃ s',
    doStderrRedirection E (Some name) s = Ret tt s'
    ∧ emptied name (p_fs s) (p_fs s')
    ∧ p_fds s' = <[2 := FFile name (Z.lor O_TRUNC (Z.lor O_WRONLY O_CREAT))]> (p_fds s)
    ∧ p_fds s' !! 0 = p_fds s !! 0 ∧ p_fds s' !! 1 = p_fds s !! 1
    ∧ p_out s' = p_out s.
Proof.
  intros Hfile H2. destruct (truncating_open E _ _ Hfile) as (fs' & Ho & Hfs & Hdir).
  eexists. split; [by apply doStderrRedirection_success|].
  cbn [p_fs p_fds p_out set_fds set_fs].
  repeat split; try done; by rewrite lookup_insert_ne.
Qed.

Lemma stderr_redirection_leaves_stdout_witness :
  let E := Os (λ _, 0) (λ _, true) (λ _, true) (λ _, 0) (λ _, true) (λ _, true) in
  writable_or_creatable E (p_fs (boot ∅)) "err.txt"
  ∧ is_Some (p_fds (boot ∅) !! 2)
  ∧ ∃ s',
      doStderrRedirection E (Some "err.txt") (boot ∅) = Ret tt s'
      ∧ emptied "err.txt" (p_fs (boot ∅)) (p_fs s')
      ∧ p_fds s' = <[2 := FFile "err.txt" (Z.lor O_TRUNC (Z.lor O_WRONLY O_CREAT))]>
                     (p_fds (boot ∅))
      ∧ p_fds s' !! 0 = p_fds (boot ∅) !! 0 ∧ p_fds s' !! 1 = p_fds (boot ∅) !! 1
      ∧ p_out s' = p_out (boot ∅).
Proof.
  cbv zeta.
  assert (H1 : writable_or_creatable (Os (λ _, 0) (λ _, true) (λ _, true) (λ _, 0)
                                         (λ _, true) (λ _, true)) (p_fs (boot ∅)) "err.txt")
    by (left; split; [apply lookup_empty | reflexivity]).
  assert (H2 : is_Some (p_fds (boot ∅) !! 2)) by (by eexists).
  split; [exact H1|]. split; [exact H2|].
  exact (stderr_redirection_leaves_stdout _ "err.txt" (boot ∅) H1 H2).
Defined.

Lemma refused_open (fs : gmap string file) (name : string) (f : file) (flags mode : Z) :
  fs !! name = Some f → wants_write flags = true →
  (f_write f = false ∨ ∃ entries, f_body f = Dir entries) →
  open_effect fs (Some name) flags mode = None.
Proof.
  intros Hf Hw Hno. unfold open_effect. rewrite Hf, Hw.
  destruct Hno as [-> | [entries ->]].
  - cbn. by rewrite andb_false_r.
  - by destruct (_ && _).
Qed.

(** X24. The four redirections that open for writing ([>>], [>], [2>]
    and [&>]), on a name that exists and is a directory or grants no write
    access: [open] fails, the process prints the message of [perror] and
    exits with status 1; no descriptor and no file has changed. *)
Theorem write_redirection_refused (E : os) (name : string) (f : file)
    (s : proc) :
  p_fs s !! name = Some f →
  (f_write f = false ∨ ∃ entries, f_body f = Dir entries) →
  ∀ redirection,
    redirection ∈ [doAppendRedirection E; doStdoutRedirection E;
                   doStderrRedirection E; doStdoutStderrRedirection E] →
    redirection (Some name) s = Exited 1 (printed [EvPerror "Error opening file"] s).
Proof.
  intros Hf Hno redirection Hin.
  assert (Hopen : ∀ flags, wants_write flags = true →
                    sys_open E (Some name) flags S_IRWXU s = Ret (-1) s).
  { intros flags Hw. unfold sys_open.
    by rewrite (refused_open _ _ _ flags S_IRWXU Hf Hw Hno). }
  assert (Happend : wants_write (Z.lor O_RDWR O_APPEND) = true) by reflexivity.
  assert (Htrunc : wants_write (Z.lor O_TRUNC (Z.lor O_WRONLY O_CREAT)) = true)
    by reflexivity.
  apply elem_of_cons in Hin as [->|Hin].
  { unfold doAppendRedirection.
    by rewrite (bind_Ret _ _ _ _ _ (Hopen _ Happend)). }
  apply elem_of_cons in Hin as [->|Hin].
  { unfold doStdoutRedirection.
    by rewrite (bind_Ret _ _ _ _ _ (Hopen _ Htrunc)). }
  apply elem_of_cons in Hin as [->|Hin].
  { unfold doStderrRedirection.
    by rewrite (bind_Ret _ _ _ _ _ (Hopen _ Htrunc)). }
  apply elem_of_cons in Hin as [->|Hin].
  { unfold doStdoutStderrRedirection.
    by rewrite (bind_Ret _ _ _ _ _ (Hopen _ Htrunc)). }
  by apply elem_of_nil in Hin.
Qed.

Lemma write_redirection_refused_witness :
  let E := Os (λ _, 0) (λ _, true) (λ _, true) (λ _, 0) (λ _, true) (λ _, true) in
  let s := boot (<["src" := File true true (Dir ["shell.c"])]> ∅) in
  (p_fs s !! "src" = Some (File true true (Dir ["shell.c"]))
   ∧ (f_write (File true true (Dir ["shell.c"])) = false
      ∨ ∃ entries, f_body (File true true (Dir ["shell.c"])) = Dir entries))
  ∧ ∀ redirection,
      redirection ∈ [doAppendRedirection E; doStdoutRedirection E;
                     doStderrRedirection E; doStdoutStderrRedirection E] →
      redirection (Some "src") s
        = Exited 1 (printed [EvPerror "Error opening file"] s).
Proof.
  cbv zeta.
  assert (H1 : p_fs (boot (<["src" := File true true (Dir ["shell.c"])]> ∅)) !! "src"
               = Some (File true true (Dir ["shell.c"]))) by reflexivity.
  assert (H2 : f_write (File true true (Dir ["shell.c"])) = false
               ∨ ∃ entries, f_body (File true true (Dir ["shell.c"])) = Dir entries)
    by (right; by eexists).
  split; [exact (conj H1 H2)|].
  exact (write_redirection_refused _ "src" _ _ H1 H2).
Defined.

(** One redirection branch of [continueProcessingLine]: the operator and
    the token behind it are passed over, whatever that token is, and the
    recursion goes on in the state the redirection left. *)
Lemma redirect_step E fuel line args s op f s1 :
  line !! p_lineIndex s = Some op → redirection_of E op = Some f →
  f (cell_ptr (line_at line (S (p_lineIndex s))))
    (store_lineIndex (S (p_lineIndex s)) s) = Ret tt s1 →
  continueProcessingLine E (S fuel) line args s =
    continueProcessingLine E fuel line args (store_lineIndex (S (p_lineIndex s1)) s1).
Proof.
  intros Hop Hf Hret. pose proof (lookup_lt_Some _ _ _ Hop) as Hlt.
  assert (Hstep : ∀ (g : option string → M unit) (k : M unit),
             g (cell_ptr (line_at line (S (p_lineIndex s))))
               (store_lineIndex (S (p_lineIndex s)) s) = Ret tt s1 →
             redirect g line k s = k (store_lineIndex (S (p_lineIndex s1)) s1)).
  { intros g k Hg. unfold redirect, incr_lineIndex.
    rewrite (bind_Ret _ _ s tt (store_lineIndex (S (p_lineIndex s)) s)) by done.
    rewrite (bind_Ret _ _ _ _ _
               (cur_token_in line (store_lineIndex (S (p_lineIndex s)) s)
                  ltac:(cbn; lia))).
    cbn [store_lineIndex p_lineIndex].
    rewrite (bind_Ret _ _ _ _ _ Hg).
    by rewrite (bind_Ret _ _ s1 tt (store_lineIndex (S (p_lineIndex s1)) s1)). }
  cbn [continueProcessingLine].
  rewrite (bind_Ret _ _ _ _ _ (cur_token_in line s ltac:(lia))).
  assert (Htok : line_at line (p_lineIndex s) = Tok op)
    by (unfold line_at; by rewrite Hop).
  rewrite Htok. unfold redirection_of in Hf.
  repeat (destruct (String.eqb op _);
          [injection Hf as <-; by apply Hstep|]).
  discriminate.
Qed.

(** X25. A command with one output redirection, [prog args > name] or
    [prog args 2> name], in the process forked for it, [name] being a
    writable regular file or a name that may be created, and the stream
    being open: the file is created or emptied and bound to the stream
    first, and the cursor reaches the end of the line; then, when the
    program of the first token can be started, the image is replaced with
    it, the tokens in front of the operator being its vector.  For [>],
    with standard error the stream the process started with: when the
    program cannot be started the process exits with status 1 behind the
    message of [perror], and the file has been emptied all the same.  The
    token behind the operator is taken as the name without a look at it. *)
Theorem redirected_command_in_forked_process (E : os) (prog : string)
    (plain : list string) (op : string) (target : Z) (name : string) (s : proc) :
  Forall (λ t, isSpecial t = false) (prog :: plain) →
  prog ≠ "ls" → prog ≠ "rm" → fork_ret E (p_nfork s) = 0 →
  (op = ">" ∧ target = 1 ∨ op = "2>" ∧ target = 2) →
  writable_or_creatable E (p_fs s) name →
  is_Some (p_fds s !! target) →
  ∃ s',
    p_fds s' = <[target := FFile name (Z.lor O_TRUNC (Z.lor O_WRONLY O_CREAT))]> (p_fds s)
    ∧ emptied name (p_fs s) (p_fs s')
    ∧ p_lineIndex s' = length ((prog :: plain) ++ [op; name])
    ∧ p_out s' = p_out s
    ∧ (exec_ok E prog = true →
       main_body E ((prog :: plain) ++ [op; name]) s
         = Replaced prog (prog :: plain) s')
    ∧ (exec_ok E prog = false → op = ">" → p_fds s !! 2 = Some (FStd 2) →
       main_body E ((prog :: plain) ++ [op; name]) s
         = Exited 1 (printed [EvPerror "EXEC failed"] s')).
Proof.
  intros Hall Hls Hrm Hpid Hop Hfile Hfd.
  assert (Hsp : isSpecial op = true) by (by destruct Hop as [[-> _]|[-> _]]).
  destruct (truncating_open E _ _ Hfile) as (fs' & Ho & Hemp & Hdir).
  rewrite main_body_cases. cbn [app]. cbv zeta.
  rewrite (Forall_inv Hall), (String_eqb_false _ _ Hls), (String_eqb_false _ _ Hrm).
  rewrite Hpid. cbn [Z.ltb Z.eqb Z.compare].
  change (prog :: plain ++ [op; name])%list with ((prog :: plain) ++ [op; name])%list.
  rewrite (plain_prefix_app _ op [name] Hall Hsp), take_app_length.
  set (l := prog :: plain). set (line := (l ++ [op; name])%list).
  set (s2 := after_fork 0 (advance (length l) (line_start s))).
  assert (Hidx : p_lineIndex s2 = length l).
  { unfold s2. cbn [after_fork p_lineIndex]. rewrite advance_lineIndex. cbn. lia. }
  destruct (advance_frame (length l) (line_start s))
    as (Hfs & Hfds & _ & Hout & _ & _).
  assert (Hfs2 : p_fs s2 = p_fs s) by (unfold s2; cbn [after_fork p_fs]; by rewrite Hfs).
  assert (Hfds2 : p_fds s2 = p_fds s)
    by (unfold s2; cbn [after_fork p_fds]; by rewrite Hfds).
  assert (Hout2 : p_out s2 = p_out s)
    by (unfold s2; cbn [after_fork p_out]; by rewrite Hout).
  assert (Hlen : length line = S (S (length l))).
  { unfold line. rewrite length_app. cbn [length]. lia. }
  assert (Hat : line !! p_lineIndex s2 = Some op).
  { rewrite Hidx. unfold line. by rewrite lookup_app_r, Nat.sub_diag. }
  assert (Hname : line_at line (S (p_lineIndex s2)) = Tok name).
  { rewrite Hidx. unfold line_at, line.
    rewrite lookup_app_r by lia.
    replace (S (length l) - length l)%nat with 1%nat by lia. done. }
  set (s3 := store_lineIndex (S (p_lineIndex s2)) s2).
  set (flags := (Z.lor O_TRUNC (Z.lor O_WRONLY O_CREAT))) in *.
  set (s4 := set_fds (<[target := FFile name flags]> (p_fds s3)) (set_fs fs' s3)).
  assert (Hfs3 : p_fs s3 = p_fs s) by (unfold s3; cbn [store_lineIndex p_fs]; done).
  assert (Hfds3 : p_fds s3 = p_fds s) by (unfold s3; cbn [store_lineIndex p_fds]; done).
  assert (Hret : ∃ f, redirection_of E op = Some f
                      ∧ f (cell_ptr (line_at line (S (p_lineIndex s2)))) s3
                        = Ret tt s4).
  { rewrite Hname. cbn [cell_ptr].
    destruct Hop as [[-> ->]|[-> ->]].
    - exists (doStdoutRedirection E). split; [reflexivity|].
      apply doStdoutRedirection_success; by rewrite ?Hfs3, ?Hfds3.
    - exists (doStderrRedirection E). split; [reflexivity|].
      apply doStderrRedirection_success; by rewrite ?Hfs3, ?Hfds3. }
  destruct Hret as (f & Hf & Hret).
  rewrite (redirect_step E (length line) line (vector_of l) s2 op f s4 Hat Hf Hret).
  set (s5 := store_lineIndex (S (p_lineIndex s4)) s4).
  assert (Hend : p_lineIndex s5 = length line).
  { unfold s5, s4, s3. cbn [store_lineIndex set_fds set_fs p_lineIndex].
    rewrite Hidx, Hlen. done. }
  assert (Hgo : continueProcessingLine E (length line) line (vector_of l) s5 =
                if exec_ok E prog then Replaced prog l s5
                else Exited 1 (printed [EvPerror "EXEC failed"] s5)).
  { rewrite Hlen at 1.
    rewrite (base_case_exec E _ line (vector_of l) s5 prog Hend eq_refl).
    by rewrite argv_of_vector. }
  rewrite Hgo. exists s5.
  split; [|split; [|split; [|split; [|split]]]].
  - unfold s5, s4. cbn [store_lineIndex set_fds set_fs p_fds]. by rewrite Hfds3.
  - unfold s5, s4. cbn [store_lineIndex set_fds set_fs p_fs]. exact Hemp.
  - by rewrite Hend.
  - unfold s5, s4, s3. cbn [store_lineIndex set_fds set_fs p_out]. exact Hout2.
  - by intros ->.
  - by intros -> _ _.
Qed.

Lemma redirected_command_in_forked_process_witness :
  let E := Os (λ _, 0) (λ _, true) (λ p, String.eqb p "/bin/cc") (λ _, 0)
              (λ _, true) (λ _, true) in
  (Forall (λ t, isSpecial t = false) ["/bin/cc"; "shell.c"]
   ∧ "/bin/cc" ≠ "ls" ∧ "/bin/cc" ≠ "rm"
   ∧ fork_ret E (p_nfork (boot ∅)) = 0
   ∧ ("2>" = ">" ∧ 2 = 1 ∨ "2>" = "2>" ∧ 2 = 2)
   ∧ writable_or_creatable E (p_fs (boot ∅)) "errors"
   ∧ is_Some (p_fds (boot ∅) !! 2))
  ∧ ∃ s',
      p_fds s' = <[2 := FFile "errors" (Z.lor O_TRUNC (Z.lor O_WRONLY O_CREAT))]> (p_fds (boot ∅))
      ∧ emptied "errors" (p_fs (boot ∅)) (p_fs s')
      ∧ p_lineIndex s' = length (["/bin/cc"; "shell.c"] ++ ["2>"; "errors"])
      ∧ p_out s' = p_out (boot ∅)
      ∧ (exec_ok E "/bin/cc" = true →
         main_body E (["/bin/cc"; "shell.c"] ++ ["2>"; "errors"]) (boot ∅)
           = Replaced "/bin/cc" ["/bin/cc"; "shell.c"] s')
      ∧ (exec_ok E "/bin/cc" = false → "2>" = ">" →
         p_fds (boot ∅) !! 2 = Some (FStd 2) →
         main_body E (["/bin/cc"; "shell.c"] ++ ["2>"; "errors"]) (boot ∅)
           = Exited 1 (printed [EvPerror "EXEC failed"] s')).
Proof.
  cbv zeta.
  assert (H1 : Forall (λ t, isSpecial t = false) ["/bin/cc"; "shell.c"])
    by (repeat constructor).
  assert (H2 : "/bin/cc" ≠ "ls") by discriminate.
  assert (H3 : "/bin/cc" ≠ "rm") by discriminate.
  assert (H5 : "2>" = ">" ∧ 2 = 1 ∨ "2>" = "2>" ∧ 2 = 2) by (right; done).
  assert (H6 : writable_or_creatable
                 (Os (λ _, 0) (λ _, true) (λ p, String.eqb p "/bin/cc") (λ _, 0)
                     (λ _, true) (λ _, true)) (p_fs (boot ∅)) "errors")
    by (left; split; [apply lookup_empty | reflexivity]).
  assert (H7 : is_Some (p_fds (boot ∅) !! 2)) by (by eexists).
  split; [exact (conj H1 (conj H2 (conj H3 (conj eq_refl (conj H5 (conj H6 H7))))))|].
  exact (redirected_command_in_forked_process
           (Os (λ _, 0) (λ _, true) (λ p, String.eqb p "/bin/cc") (λ _, 0)
               (λ _, true) (λ _, true))
           "/bin/cc" ["shell.c"] "2>" 2 "errors" (boot ∅)
           H1 H2 H3 eq_refl H5 H6 H7).
Defined.

(** ** The built-in rm on a directory *)

Lemma rm_one_directory (E : os) name s w entries :
  p_fs s !! name = Some (File true w (Dir entries)) → rm_one E name s = s.
Proof.
  intros Hdir.
  assert (Ho : open_effect (p_fs s) (Some name) O_RDONLY 0 = Some (p_fs s)).
  { unfold open_effect. rewrite Hdir. reflexivity. }
  unfold rm_one, doRm_step. unfold_M.
  destruct (sys_open_rdonly_cases E name s)
    as [(q & fs' & _ & Ho' & Heq) | ([[=] | Hno] & _)]; [|congruence].
  rewrite Heq. assert (fs' = p_fs s) as -> by congruence.
  pose proof (fresh_fd_nonneg (p_fds s)).
  destruct (Z.ltb_spec (fresh_fd (p_fds s)) 0); [lia|].
  unfold sys_unlink, sys_close. cbn [p_fs p_fds set_fds set_fs]. rewrite Hdir.
  cbn [p_fs p_fds set_fds set_fs].
  rewrite delete_insert_id by apply fresh_fd_free.
  by destruct s.
Qed.

(** X26. The built-in rm on directories: [open] with O_RDONLY accepts a
    directory that may be read, so no message is printed; [unlink] refuses
    it and its result is not looked at.  When every argument is such a
    directory the command returns with the process exactly as it was:
    nothing removed, nothing reported. *)
Theorem doRm_silent_on_directories (E : os) (args : argmem) (names : list string)
    (s : proc) :
  holds_vector args ("rm" :: names) → names ≠ [] →
  (∀ p, p ∈ names → ∃ w entries, p_fs s !! p = Some (File true w (Dir entries))) →
  doRm E args s = Ret tt s.
Proof.
  intros Hv Hne Hdirs. pose proof Hv as [Hcells _].
  destruct names as [|n ns]; [done|]. unfold doRm.
  rewrite (bind_Ret _ _ _ _ _ (arg_at_eq _ _ _ s (Hcells 1%nat n eq_refl))).
  rewrite (doRm_loop_eq E args ("rm" :: n :: ns) (size args) 1 s Hv);
    [|cbn; lia|pose proof (holds_vector_size _ _ Hv); lia].
  cbn [drop]. f_equal.
  clear Hv Hcells Hne. revert Hdirs. generalize (n :: ns). clear n ns.
  intros l. induction l as [|a l IH]; intros Hdirs; [done|].
  cbn [rm_all].
  destruct (Hdirs a ltac:(by left)) as (w & entries & Ha).
  rewrite (rm_one_directory E a s w entries Ha).
  apply IH. intros p Hp. apply Hdirs. by right.
Qed.

Lemma doRm_silent_on_directories_witness :
  let E := Os (λ _, 0) (λ _, true) (λ _, true) (λ _, 0) (λ _, true) (λ _, true) in
  let args : argmem := <[2%nat := None]> (<[1%nat := Some "src"]>
                         (<[0%nat := Some "rm"]> ∅)) in
  let s := boot (<["src" := File true true (Dir ["shell.c"])]> ∅) in
  (holds_vector args ["rm"; "src"] ∧ ["src"] ≠ []
   ∧ ∀ p, p ∈ ["src"] → ∃ w entries, p_fs s !! p = Some (File true w (Dir entries)))
  ∧ doRm E args s = Ret tt s.
Proof.
  cbv zeta.
  assert (Hv : holds_vector (<[2%nat := None]> (<[1%nat := Some "src"]>
                               (<[0%nat := Some "rm"]> ∅))) ["rm"; "src"]).
  { split; [|reflexivity].
    intros [|[|[|i]]] t Ht; vm_compute in Ht; try discriminate;
      injection Ht as <-; reflexivity. }
  assert (Hne : ["src"] ≠ []) by discriminate.
  assert (Hd : ∀ p, p ∈ ["src"] →
                    ∃ w entries,
                      p_fs (boot (<["src" := File true true (Dir ["shell.c"])]> ∅)) !! p
                      = Some (File true w (Dir entries))).
  { intros p Hp. apply elem_of_cons in Hp as [->|Hp].
    - exists true, ["shell.c"]. reflexivity.
    - by apply elem_of_nil in Hp. }
  split; [exact (conj Hv (conj Hne Hd))|].
  exact (doRm_silent_on_directories
           (Os (λ _, 0) (λ _, true) (λ _, true) (λ _, 0)
               (λ _, true) (λ _, true)) _ ["src"] _ Hv Hne Hd).
Defined.

(** ** Where the handling of a line can end *)






